(** * Public contacts API of nossocrm: a shallow embedding and its properties

    Embedded sources:
    - [src/app/api/public/v1/contacts/route.ts]              (GET list, POST upsert)
    - [src/app/api/public/v1/contacts/[contactId]/route.ts]  (GET by id, PATCH)

    JavaScript strings are modelled as [string], one character per code unit
    (code units above 255 are outside the model).  JSON objects and SQL rows
    are finite maps from column names to JSON values.  The hosted database
    client is modelled as an in-memory store with an explicit fault script and
    a call log, so that adapter failures and the order of store calls are
    observable. *)

From Stdlib Require Import ZArith Ascii String List Bool Lia.
From Stdlib Require Import DecimalString DecimalN.
From stdpp Require Import base option list gmap strings fin_maps sorting.

Local Open Scope string_scope.
Local Open Scope list_scope.
Local Open Scope Z_scope.

(** ** JSON values and rows *)

Inductive jsval : Type :=
| JNull
| JBool (b : bool)
| JNum (n : Z)
| JStr (s : string).

Global Instance jsval_eq_dec : EqDecision jsval.
Proof. solve_decision. Defined.

(** A JSON object, a SQL row and an update payload are all maps from column
    names to values.  A key that is not in the map is JavaScript's
    [undefined]; for a stored row it is SQL [NULL]. *)
Abbreviation row := (gmap string jsval).

(** [string | undefined | null] arguments: anything that is not a string
    behaves like the empty string under [v || ''] and like [null] under the
    normalizers. *)
Definition as_string (v : option jsval) : option string :=
  match v with
  | Some (JStr s) => Some s
  | _ => None
  end.

(** [string | null] results written into a payload. *)
Definition of_nullable (v : option string) : jsval :=
  match v with
  | Some s => JStr s
  | None => JNull
  end.

(** ** String primitives of the JavaScript runtime *)

(** A string is its sequence of UTF-16 code units, and the model covers the
    code units below 256 (Latin-1): an [ascii] is one code unit, so a letter
    outside ASCII is the one character with its code (201 for a capital E
    with acute), not the bytes of an encoding. *)

Module Js.

(** [WhiteSpace] and [LineTerminator] code units below 256. *)
Definition is_space (c : ascii) : bool :=
  let n := nat_of_ascii c in
  ((9 <=? n)%nat && (n <=? 13)%nat) || (n =? 32)%nat || (n =? 160)%nat.

Fixpoint trimStart (s : string) : string :=
  match s with
  | EmptyString => EmptyString
  | String c s' => if is_space c then trimStart s' else s
  end.

Fixpoint trimEnd (s : string) : string :=
  match s with
  | EmptyString => EmptyString
  | String c s' =>
      match trimEnd s' with
      | EmptyString => if is_space c then EmptyString else String c EmptyString
      | t => String c t
      end
  end.

(** [String.prototype.trim] *)
Definition trim (s : string) : string := trimEnd (trimStart s).

(** The lower-case mapping of one code unit below 256: the letters A-Z and
    the Latin-1 capitals 192-214 and 216-222 move up by 32; the
    multiplication sign (215), the sharp s (223) and everything else stay. *)
Definition lower_char (c : ascii) : ascii :=
  let n := nat_of_ascii c in
  if ((65 <=? n)%nat && (n <=? 90)%nat)
     || ((192 <=? n)%nat && (n <=? 214)%nat)
     || ((216 <=? n)%nat && (n <=? 222)%nat)
  then ascii_of_nat (n + 32)
  else c.

(** [String.prototype.toLowerCase] *)
Fixpoint toLowerCase (s : string) : string :=
  match s with
  | EmptyString => EmptyString
  | String c s' => String (lower_char c) (toLowerCase s')
  end.

Definition is_digit (c : ascii) : bool :=
  let n := nat_of_ascii c in (48 <=? n)%nat && (n <=? 57)%nat.

(** [!s] for a string. *)
Definition falsy (s : string) : bool :=
  match s with EmptyString => true | _ => false end.

(** [s.slice(0, n)] *)
Fixpoint slice0 (n : nat) (s : string) : string :=
  match n, s with
  | S n', String c s' => String c (slice0 n' s')
  | _, _ => EmptyString
  end.

End Js.

(** ** Collaborators that are not part of the embedded sources

    The platform gathers what the handlers import from outside the two route
    files and whose text is not available: the UUID checks, the phone
    canonicalization, the limit parser and JavaScript's [Date]. *)

Class Platform : Type := {
  (** [isValidUUID] of [@/lib/supabase/utils] *)
  isValidUUID : string -> bool;
  (** zod's [z.string().uuid()] *)
  zod_uuid : string -> bool;
  (** the canonical form of a phone number, [@/lib/public-api/sanitize] *)
  canonPhone : string -> string;
  (** [parseLimit] of [@/lib/public-api/cursor] *)
  parseLimit : option string -> Z;
  (** [new Date(s).getTime()]: [None] is [NaN] *)
  date_parse : string -> option Z;
  (** [Date.prototype.toISOString] of a valid time value *)
  toISOString : Z -> string;
}.

(** ** Input normalizers *)

(** Modelled from the spec: [normalizeText] of [@/lib/public-api/sanitize]
    is not among the sources.  "Trim surrounding whitespace; empty string
    normalizes to absence"; an absent input produces [null]. *)
Definition normalizeText (v : option string) : option string :=
  match v with
  | None => None
  | Some s => let t := Js.trim s in if Js.falsy t then None else Some t
  end.

(** Modelled from the spec: [normalizeEmail] of [@/lib/public-api/sanitize]
    is not among the sources.  "Lower-case, trim; no validation beyond
    emptiness". *)
Definition normalizeEmail (v : option string) : option string :=
  match v with
  | None => None
  | Some s =>
      let t := Js.toLowerCase (Js.trim s) in
      if Js.falsy t then None else Some t
  end.

(** Modelled from the spec: [normalizePhone] of [@/lib/public-api/sanitize]
    is not among the sources.  One canonicalization rule, the platform's
    [canonPhone], applied on every call; an absent or empty result is
    [null]. *)
Definition normalizePhone `{Platform} (v : option string) : option string :=
  match v with
  | None => None
  | Some s => let t := canonPhone s in if Js.falsy t then None else Some t
  end.

(** Modelled from the spec: [sanitizeUUID] of [@/lib/supabase/utils] is not
    among the sources.  "Validate format; invalid input yields null". *)
Definition sanitizeUUID `{Platform} (v : option string) : option string :=
  match v with
  | Some s => if isValidUUID s then Some s else None
  | None => None
  end.

(** ** Date helpers of the two route files *)

Definition INVALID : string := "__INVALID__".

(** The regular expression [/^\d{4}-\d{2}-\d{2}$/]. *)
Definition is_ymd (s : string) : bool :=
  match list_ascii_of_string s with
  | [y1; y2; y3; y4; d1; m1; m2; d2; a1; a2] =>
      Js.is_digit y1 && Js.is_digit y2 && Js.is_digit y3 && Js.is_digit y4
      && Ascii.eqb d1 "-" && Js.is_digit m1 && Js.is_digit m2
      && Ascii.eqb d2 "-" && Js.is_digit a1 && Js.is_digit a2
  | _ => false
  end.

(** [toIsoDateString]: [None] is [null]; the sentinel is the string
    ['__INVALID__'] as in the source. *)
Definition toIsoDateString `{Platform} (v : option string) : option string :=
  let s := Js.trim (default "" v) in
  if Js.falsy s then None
  else if is_ymd s then Some s
  else match date_parse s with
       | None => Some INVALID
       | Some d => Some (Js.slice0 10 (toISOString d))
       end.

(** [toIsoTimestamp] *)
Definition toIsoTimestamp `{Platform} (v : option string) : option string :=
  let s := Js.trim (default "" v) in
  if Js.falsy s then None
  else match date_parse s with
       | None => Some INVALID
       | Some d => Some (toISOString d)
       end.

(** ** Cursor codec *)

(** Modelled from the spec: [encodeOffsetCursor] of
    [@/lib/public-api/cursor] is not among the sources.  The token encodes a
    non-negative integer offset, "here a plain offset": its decimal
    numeral. *)
Definition encodeOffsetCursor (offset : Z) : string :=
  NilEmpty.string_of_uint (N.to_uint (Z.to_N offset)).

(** Modelled from the spec: [decodeOffsetCursor] of
    [@/lib/public-api/cursor] is not among the sources.  Decoding defaults to
    0 on an absent or malformed token. *)
Definition decodeOffsetCursor (cursor : option string) : Z :=
  match cursor with
  | None => 0
  | Some t =>
      match NilEmpty.uint_of_string t with
      | Some d => Z.of_N (N.of_uint d)
      | None => 0
      end
  end.

(** ** The Record Store Adapter

    The hosted database client is a collaborator outside the repository.  Its
    model is an in-memory store: two tables of rows, a counter for generated
    ids, a fault script and a call log.  Every awaited query is one adapter
    call; it consumes the head of the fault script ([Some m] makes the call
    fail with message [m], and an exhausted script means no fault) and
    appends one event to the log. *)

Inductive table : Type := Contacts | Companies.

Inductive operation : Type := Select | Insert | Update.

Record event : Type := Event {
  ev_table : table;
  ev_op : operation;
  ev_failure : option string;
}.

Record store : Type := Store {
  contacts : list row;
  companies : list row;
  next_id : nat;
  faults : list (option string);
  log : list event;
}.

Inductive result (A : Type) : Type :=
| Ok (a : A)
| Err (message : string).
Arguments Ok {A} a.
Arguments Err {A} message.

Definition rows (t : table) (s : store) : list row :=
  match t with
  | Contacts => contacts s
  | Companies => companies s
  end.

Definition set_rows (t : table) (l : list row) (s : store) : store :=
  match t with
  | Contacts => Store l (companies s) (next_id s) (faults s) (log s)
  | Companies => Store (contacts s) l (next_id s) (faults s) (log s)
  end.

Definition bump_id (s : store) : store :=
  Store (contacts s) (companies s) (S (next_id s)) (faults s) (log s).

(** Start of an adapter call: pop the fault script. *)
Definition begin_call (s : store) : option string * store :=
  match faults s with
  | [] => (None, s)
  | f :: fs => (f, Store (contacts s) (companies s) (next_id s) fs (log s))
  end.

(** End of an adapter call: append its event. *)
Definition end_call (t : table) (o : operation) (failure : option string)
    (s : store) : store :=
  Store (contacts s) (companies s) (next_id s) (faults s)
        (log s ++ [Event t o failure]).

(** [n] zeros. *)
Fixpoint zeros (n : nat) : string :=
  match n with
  | O => EmptyString
  | S n' => String "0" (zeros n')
  end.

(** The identifier the database generates for the [n]-th inserted row.  The
    routes take ids to be UUIDs (they check them with [isValidUUID]), so the
    model generates the UUID whose last group is [n] in decimal, padded to
    twelve digits: the ids are distinct, and of UUID form for the first
    10^12 rows. *)
Definition gen_id (n : nat) : string :=
  let digits := NilEmpty.string_of_uint (Nat.to_uint n) in
  "00000000-0000-4000-8000-"
  +:+ zeros (12 - String.length digits) +:+ digits.

(** The message of the error a single-row request gets when the result is
    not a single row. *)
Definition multi_row_message : string :=
  "JSON object requested, multiple (or no) rows returned".

(** [.select('c1,c2,...')]: the listed columns, [null] where the row has no
    value. *)
Definition project (cols : list string) (r : row) : row :=
  list_to_map (List.map (fun c => (c, default JNull (r !! c))) cols).

(** *** Filters *)

(** [.eq(col, v)] *)
Definition eq_col (col : string) (v : jsval) (r : row) : bool :=
  bool_decide (r !! col = Some v).

(** [.is(col, null)] *)
Definition is_null (col : string) (r : row) : bool :=
  match r !! col with
  | None | Some JNull => true
  | _ => false
  end.

(** SQL [LIKE] on code units: [%] matches any sequence, [_] any one
    character, a backslash makes the next pattern character literal, and the
    REST layer reads [*] as [%].  A pattern that ends in a lone backslash
    matches nothing here; the database raises an error when a match reaches
    that backslash, a failure of the query that the model does not
    reproduce. *)
Fixpoint like (p s : list ascii) {struct p} : bool :=
  match p with
  | [] => match s with [] => true | _ => false end
  | c :: p' =>
      if Ascii.eqb c "%" || Ascii.eqb c "*" then
        (fix any (s : list ascii) : bool :=
           like p' s || match s with [] => false | _ :: s' => any s' end) s
      else if Ascii.eqb c "_" then
        match s with [] => false | _ :: s' => like p' s' end
      else if Ascii.eqb c "\" then
        match p' with
        | [] => false
        | e :: p'' =>
            match s with
            | [] => false
            | x :: s' => Ascii.eqb e x && like p'' s'
            end
        end
      else
        match s with
        | [] => false
        | x :: s' => Ascii.eqb c x && like p' s'
        end
  end.

(** [.ilike(col, pattern)]: case-insensitive [LIKE]; [NULL] never matches. *)
Definition ilike_col (col : string) (pattern : string) (r : row) : bool :=
  match r !! col with
  | Some (JStr v) =>
      like (list_ascii_of_string (Js.toLowerCase pattern))
           (list_ascii_of_string (Js.toLowerCase v))
  | _ => false
  end.

(** *** Queries *)

(** [from(t).select(cols) ... .maybeSingle()] *)
Definition select_maybeSingle (t : table) (cols : list string)
    (p : row -> bool) (s : store) : result (option row) * store :=
  let '(f, s1) := begin_call s in
  match f with
  | Some m => (Err m, end_call t Select (Some m) s1)
  | None =>
      match List.filter p (rows t s1) with
      | [] => (Ok None, end_call t Select None s1)
      | [r] => (Ok (Some (project cols r)), end_call t Select None s1)
      | _ => (Err multi_row_message,
              end_call t Select (Some multi_row_message) s1)
      end
  end.

(** [from(t).insert(payload).select(cols).single()] *)
Definition insert_single (t : table) (payload : row) (cols : list string)
    (s : store) : result row * store :=
  let '(f, s1) := begin_call s in
  match f with
  | Some m => (Err m, end_call t Insert (Some m) s1)
  | None =>
      let r := <["id" := JStr (gen_id (next_id s1))]> payload in
      (Ok (project cols r),
       end_call t Insert None (bump_id (set_rows t (rows t s1 ++ [r]) s1)))
  end.

(** The rows of a table after [update(payload)] under filter [p]: the
    payload's columns overwrite, the others stay. *)
Definition apply_update (p : row -> bool) (payload : row) (l : list row)
  : list row :=
  List.map (fun r => if p r then payload ∪ r else r) l.

(** [from(t).update(payload) ... .select(cols).single()] (with
    [allow_none = false]) and [... .maybeSingle()] (with [allow_none = true]).
    A single-row request that does not touch exactly one row is an error and
    changes nothing. *)
Definition update_one (allow_none : bool) (t : table) (payload : row)
    (cols : list string) (p : row -> bool) (s : store)
  : result (option row) * store :=
  let '(f, s1) := begin_call s in
  match f with
  | Some m => (Err m, end_call t Update (Some m) s1)
  | None =>
      match List.filter p (rows t s1) with
      | [r] =>
          (Ok (Some (project cols (payload ∪ r))),
           end_call t Update None
             (set_rows t (apply_update p payload (rows t s1)) s1))
      | [] =>
          if allow_none then (Ok None, end_call t Update None s1)
          else (Err multi_row_message,
                end_call t Update (Some multi_row_message) s1)
      | _ => (Err multi_row_message,
              end_call t Update (Some multi_row_message) s1)
      end
  end.

(** [.order('created_at', { ascending: false })]: timestamps of one format
    compare as their strings do. *)
Definition created_at_desc (r1 r2 : row) : Prop :=
  String.le (default "" (as_string (r2 !! "created_at")))
            (default "" (as_string (r1 !! "created_at"))).

Global Instance created_at_desc_dec : RelDecision created_at_desc.
Proof. intros r1 r2. unfold created_at_desc, String.le. apply _. Defined.

(** [.range(from, to)]: the rows at positions [from] to [to], both
    included. *)
Definition range {A : Type} (from to : Z) (l : list A) : list A :=
  take (Z.to_nat (to - from + 1)) (drop (Z.to_nat from) l).

(** [from(t).select(cols, { count: 'exact' }) ... .order('created_at',
    { ascending: false }).range(from, to)]: the window and the exact count
    of the filtered rows. *)
Definition select_range (t : table) (cols : list string) (p : row -> bool)
    (from to : Z) (s : store) : result (list row * option Z) * store :=
  let '(f, s1) := begin_call s in
  match f with
  | Some m => (Err m, end_call t Select (Some m) s1)
  | None =>
      let matching := merge_sort created_at_desc (List.filter p (rows t s1)) in
      (Ok (List.map (project cols) (range from to matching),
           Some (Z.of_nat (length matching))),
       end_call t Select None s1)
  end.

(** ** Requests and responses *)

(** The outcome of [authPublicApi]: a failure carries the status and body
    that are passed through, a success the tenant. *)
Inductive auth_result : Type :=
| AuthFailed (status : Z) (body : string)
| AuthOk (organizationId : string).

Inductive response : Type :=
| RespAuth (status : Z) (body : string)
| RespError (status : Z) (error : string) (code : string)
| RespOne (status : Z) (data : option row) (action : option string)
| RespList (data : list row) (nextCursor : option string).

Definition VALIDATION_ERROR : string := "VALIDATION_ERROR".
Definition NOT_FOUND : string := "NOT_FOUND".
Definition DB_ERROR : string := "DB_ERROR".

(** The column list every contact query selects. *)
Definition CONTACT_COLUMNS : list string :=
  ["id"; "name"; "email"; "phone"; "role"; "company_name";
   "client_company_id"; "avatar"; "notes"; "status"; "stage"; "source";
   "birth_date"; "last_interaction"; "last_purchase_date"; "total_value";
   "created_at"; "updated_at"].

(** *** JavaScript truthiness *)

Definition truthy (v : jsval) : bool :=
  match v with
  | JNull => false
  | JBool b => b
  | JNum n => negb (n =? 0)
  | JStr s => negb (Js.falsy s)
  end.

(** [!x] for [x : string | null] *)
Definition absent (v : option string) : bool :=
  match v with
  | Some s => Js.falsy s
  | None => true
  end.

(** [x || null] for [x : string | null] *)
Definition or_null (v : option string) : option string :=
  if absent v then None else v.

(** *** The zod schemas

    Both schemas are strict objects of optional fields: a body passes when
    it is an object, every key is a field of the schema and every value has
    the field's type.  Booleans stand for every JSON value that no field
    accepts (arrays and nested objects are treated alike). *)

Inductive ftype : Type := TString | TUuid | TNumber.

Definition value_ok `{Platform} (t : ftype) (nullable : bool) (v : jsval)
  : bool :=
  match v with
  | JNull => nullable
  | JBool _ => false
  | JNum _ => match t with TNumber => true | _ => false end
  | JStr s =>
      match t with
      | TString => true
      | TUuid => zod_uuid s
      | TNumber => false
      end
  end.

Definition ContactUpsertSchema : gmap string (ftype * bool) :=
  list_to_map
    [("name", (TString, false)); ("email", (TString, false));
     ("phone", (TString, false)); ("role", (TString, false));
     ("company_name", (TString, false));
     ("client_company_id", (TUuid, false));
     ("avatar", (TString, false)); ("status", (TString, false));
     ("stage", (TString, false)); ("birth_date", (TString, false));
     ("last_interaction", (TString, false));
     ("last_purchase_date", (TString, false));
     ("total_value", (TNumber, false)); ("source", (TString, false));
     ("notes", (TString, false))].

Definition ContactPatchSchema : gmap string (ftype * bool) :=
  list_to_map
    [("name", (TString, false)); ("email", (TString, false));
     ("phone", (TString, false)); ("role", (TString, false));
     ("company_name", (TString, false));
     ("client_company_id", (TUuid, true));
     ("avatar", (TString, false)); ("status", (TString, false));
     ("stage", (TString, false)); ("birth_date", (TString, true));
     ("last_interaction", (TString, true));
     ("last_purchase_date", (TString, true));
     ("total_value", (TNumber, true)); ("source", (TString, false));
     ("notes", (TString, false))].

Definition field_ok `{Platform} (schema : gmap string (ftype * bool))
    (kv : string * jsval) : bool :=
  match schema !! kv.1 with
  | Some (t, nullable) => value_ok t nullable kv.2
  | None => false
  end.

(** [schema.safeParse(body)]: [None] is a failed parse.  A body of [None]
    is a request whose JSON is not an object (or not JSON at all). *)
Definition safeParse `{Platform} (schema : gmap string (ftype * bool))
    (body : option row) : option row :=
  match body with
  | None => None
  | Some data =>
      if forallb (field_ok schema) (map_to_list data) then Some data else None
  end.

(** ** [route.ts]: company resolution *)

Definition company_filter (organizationId name : string) (r : row) : bool :=
  eq_col "organization_id" (JStr organizationId) r
  && is_null "deleted_at" r
  && ilike_col "name" name r.

(** [resolveCompanyIdFromName]; [Err] is a thrown adapter error, [now] the
    value of [new Date().toISOString()]. *)
Definition resolveCompanyIdFromName (organizationId companyName now : string)
    (s : store) : result jsval * store :=
  match normalizeText (Some companyName) with
  | None => (Ok JNull, s)
  | Some name =>
      let '(existing, s1) :=
        select_maybeSingle Companies ["id"]
          (company_filter organizationId name) s in
      match existing with
      | Err m => (Err m, s1)
      | Ok data =>
          let id := default JNull (data ≫= (.!! "id")) in
          if truthy id then (Ok id, s1)
          else
            let '(created, s2) :=
              insert_single Companies
                (list_to_map
                   [("organization_id", JStr organizationId);
                    ("name", JStr name);
                    ("created_at", JStr now); ("updated_at", JStr now)])
                ["id"] s1 in
            match created with
            | Err m => (Err m, s2)
            | Ok r => (Ok (default JNull (r !! "id")), s2)
            end
      end
  end.

(** ** [route.ts]: GET (list) *)

(** The filter of the list query.  The three exact filters are passed to the
    client as values.  The search term is spliced into one [or(...)] filter
    string, [name.ilike.%q%,email.ilike.%q%,phone.ilike.%q%]; the model reads
    that string as the three [ilike] comparisons, which is how the REST layer
    reads it when [q] holds none of the characters its filter syntax
    reserves ([plain_value] below).  A [q] with such a character makes a
    different filter, which the model does not follow. *)
Definition list_filter `{Platform} (organizationId : string)
    (clientCompanyId email phone : option string) (q : string) (r : row)
  : bool :=
  eq_col "organization_id" (JStr organizationId) r
  && is_null "deleted_at" r
  && (if absent clientCompanyId then true
      else eq_col "client_company_id" (of_nullable clientCompanyId) r)
  && (if absent email then true else eq_col "email" (of_nullable email) r)
  && (if absent phone then true else eq_col "phone" (of_nullable phone) r)
  && (if Js.falsy q then true
      else ilike_col "name" ("%" +:+ q +:+ "%") r
           || ilike_col "email" ("%" +:+ q +:+ "%") r
           || ilike_col "phone" ("%" +:+ q +:+ "%") r).

(** [from] and [to] of the page. *)
Definition page_window (offset limit : Z) : Z * Z :=
  (offset, offset + limit - 1).

(** [nextCursor]; [count] is the adapter's exact count, [None] when it
    reports none. *)
Definition next_cursor (to : Z) (count : option Z) : option string :=
  let total := default 0 count in
  let nextOffset := to + 1 in
  if nextOffset <? total then Some (encodeOffsetCursor nextOffset) else None.

(** The object built for each listed contact: [x ?? null] for every column
    (which is what the projection already yields) and [Number] on a
    non-null [total_value], the identity on the numbers the column holds. *)
Definition list_item (c : row) : row := project CONTACT_COLUMNS c.

Definition GET_list `{Platform} (auth : auth_result)
    (params : gmap string string) (s : store) : response * store :=
  match auth with
  | AuthFailed status body => (RespAuth status body, s)
  | AuthOk organizationId =>
      let q := Js.trim (default "" (params !! "q")) in
      let email := normalizeEmail (params !! "email") in
      let phone := normalizePhone (params !! "phone") in
      let clientCompanyId := sanitizeUUID (params !! "client_company_id") in
      let limit := parseLimit (params !! "limit") in
      let offset := decodeOffsetCursor (params !! "cursor") in
      let '(from, to) := page_window offset limit in
      let '(res, s1) :=
        select_range Contacts CONTACT_COLUMNS
          (list_filter organizationId clientCompanyId email phone q)
          from to s in
      match res with
      | Err m => (RespError 500 m DB_ERROR, s1)
      | Ok (data, count) =>
          (RespList (List.map list_item data) (next_cursor to count), s1)
      end
  end.

(** ** [route.ts]: POST (upsert) *)

(** The dedup lookup: email or phone when both are given, else whichever is
    given.  A single value is passed to the client as a value.  With both
    given the source splices them into one [or(...)] filter string,
    [email.eq.E,phone.eq.P]; the model reads that string as the two
    comparisons, which is how the REST layer reads it when neither value
    holds a character its filter syntax reserves ([or_safe] below).  With
    such a character the string makes a different filter, which the model
    does not follow. *)
Definition dedup_filter (organizationId : string) (email phone : option string)
    (r : row) : bool :=
  eq_col "organization_id" (JStr organizationId) r
  && is_null "deleted_at" r
  && (if negb (absent email) && negb (absent phone) then
        eq_col "email" (of_nullable email) r
        || eq_col "phone" (of_nullable phone) r
      else if negb (absent email) then eq_col "email" (of_nullable email) r
      else if negb (absent phone) then eq_col "phone" (of_nullable phone) r
      else true).

(** [total_value: parsed.data.total_value ?? undefined]: an undefined
    property is not serialized. *)
Definition with_total_value (v : option jsval) (payload : row) : row :=
  match v with
  | None | Some JNull => payload
  | Some n => <["total_value" := n]> payload
  end.

Definition upsert_payload (organizationId : string) (data : row)
    (email phone companyName : option string) (clientCompanyId : jsval)
    (birthDate lastInteraction lastPurchaseDate : option string)
    (now : string) : row :=
  with_total_value (data !! "total_value")
    (list_to_map
       [("organization_id", JStr organizationId);
        ("email", of_nullable email);
        ("phone", of_nullable phone);
        ("role", of_nullable (normalizeText (as_string (data !! "role"))));
        ("company_name", of_nullable companyName);
        ("client_company_id", clientCompanyId);
        ("avatar", of_nullable (normalizeText (as_string (data !! "avatar"))));
        ("status", of_nullable (normalizeText (as_string (data !! "status"))));
        ("stage", of_nullable (normalizeText (as_string (data !! "stage"))));
        ("source", of_nullable (normalizeText (as_string (data !! "source"))));
        ("notes", of_nullable (normalizeText (as_string (data !! "notes"))));
        ("birth_date", of_nullable birthDate);
        ("last_interaction", of_nullable lastInteraction);
        ("last_purchase_date", of_nullable lastPurchaseDate);
        ("updated_at", JStr now)]).

(** [{ ...payload, name, created_at: now, status: 'ACTIVE', stage: 'LEAD' }] *)
Definition insert_payload (payload : row) (name : option string)
    (now : string) : row :=
  <["stage" := JStr "LEAD"]>
    (<["status" := JStr "ACTIVE"]>
       (<["created_at" := JStr now]>
          (<["name" := of_nullable name]> payload))).

(** The company reference of the payload: the sanitized id of the body, or
    else the id resolved from the company name. *)
Definition client_company `{Platform} (organizationId : string) (data : row)
    (now_company : string) (s : store) : result jsval * store :=
  let companyName := normalizeText (as_string (data !! "company_name")) in
  let clientCompanyId :=
    of_nullable
      (or_null (sanitizeUUID (as_string (data !! "client_company_id")))) in
  if negb (truthy clientCompanyId) && negb (absent companyName) then
    resolveCompanyIdFromName organizationId (default "" companyName)
      now_company s
  else (Ok clientCompanyId, s).

(** [if (name) payload.name = name] *)
Definition with_name (name : option string) (payload : row) : row :=
  if negb (absent name) then <["name" := of_nullable name]> payload
  else payload.

(** [POST]; [now_company] and [now] are the two readings of the clock, in
    [resolveCompanyIdFromName] and in the handler. *)
Definition POST `{Platform} (auth : auth_result) (body : option row)
    (now_company now : string) (s : store) : response * store :=
  match auth with
  | AuthFailed status b => (RespAuth status b, s)
  | AuthOk organizationId =>
  match safeParse ContactUpsertSchema body with
  | None => (RespError 422 "Invalid payload" VALIDATION_ERROR, s)
  | Some data =>
  let email := normalizeEmail (as_string (data !! "email")) in
  let phone := normalizePhone (as_string (data !! "phone")) in
  let name := normalizeText (as_string (data !! "name")) in
  let companyName := normalizeText (as_string (data !! "company_name")) in
  if absent email && absent phone then
    (RespError 422 "Provide email or phone" VALIDATION_ERROR, s)
  else
  let birthDate := toIsoDateString (as_string (data !! "birth_date")) in
  if bool_decide (birthDate = Some INVALID) then
    (RespError 422 "Invalid birth_date" VALIDATION_ERROR, s)
  else
  let lastPurchaseDate :=
    toIsoDateString (as_string (data !! "last_purchase_date")) in
  if bool_decide (lastPurchaseDate = Some INVALID) then
    (RespError 422 "Invalid last_purchase_date" VALIDATION_ERROR, s)
  else
  let lastInteraction :=
    toIsoTimestamp (as_string (data !! "last_interaction")) in
  if bool_decide (lastInteraction = Some INVALID) then
    (RespError 422 "Invalid last_interaction" VALIDATION_ERROR, s)
  else
  let '(resolved, s1) := client_company organizationId data now_company s in
  match resolved with
  | Err m =>
      (RespError 422 (if Js.falsy m then "Invalid company" else m)
         VALIDATION_ERROR, s1)
  | Ok clientCompanyId =>
  let '(existing, s2) :=
    select_maybeSingle Contacts ["id"]
      (dedup_filter organizationId email phone) s1 in
  match existing with
  | Err m => (RespError 500 m DB_ERROR, s2)
  | Ok found =>
  let payload :=
    upsert_payload organizationId data email phone companyName
      clientCompanyId birthDate lastInteraction lastPurchaseDate now in
  let existing_id := default JNull (found ≫= (.!! "id")) in
  if truthy existing_id then
    let '(res, s3) :=
      update_one false Contacts (with_name name payload) CONTACT_COLUMNS
        (eq_col "id" existing_id) s2 in
    match res with
    | Err m => (RespError 500 m DB_ERROR, s3)
    | Ok row_ => (RespOne 200 row_ (Some "updated"), s3)
    end
  else if absent name then
    (RespError 422 "Name is required to create a new contact"
       VALIDATION_ERROR, s2)
  else
    let '(res, s3) :=
      insert_single Contacts (insert_payload payload name now)
        CONTACT_COLUMNS s2 in
    match res with
    | Err m => (RespError 500 m DB_ERROR, s3)
    | Ok row_ => (RespOne 201 (Some row_) (Some "created"), s3)
    end
  end end end end.

(** ** [[contactId]/route.ts]: GET (by id) *)

Definition GET_one `{Platform} (auth : auth_result) (contactId : string)
    (s : store) : response * store :=
  match auth with
  | AuthFailed status b => (RespAuth status b, s)
  | AuthOk organizationId =>
      if negb (isValidUUID contactId) then
        (RespError 422 "Invalid contact id" VALIDATION_ERROR, s)
      else
        let '(res, s1) :=
          select_maybeSingle Contacts CONTACT_COLUMNS
            (fun r => eq_col "organization_id" (JStr organizationId) r
                      && is_null "deleted_at" r
                      && eq_col "id" (JStr contactId) r) s in
        match res with
        | Err m => (RespError 500 m DB_ERROR, s1)
        | Ok None => (RespError 404 "Contact not found" NOT_FOUND, s1)
        | Ok (Some data) => (RespOne 200 (Some data) None, s1)
        end
  end.

(** ** [[contactId]/route.ts]: PATCH *)

(** [if (data[k] !== undefined) updates[k] = f(data[k])] *)
Definition assign_if_defined (data : row) (k : string) (f : jsval -> jsval)
    (updates : row) : row :=
  match data !! k with
  | Some v => <[k := f v]> updates
  | None => updates
  end.

Definition text_field (v : jsval) : jsval :=
  of_nullable (normalizeText (as_string (Some v))).

(** One of the three date blocks: the value is [null] for an explicit
    [null] and the converted string otherwise; the sentinel ends the request
    with the block's message. *)
Definition date_block (data : row) (k : string)
    (convert : option string -> option string) (message : string)
    (updates : row) : response + row :=
  match data !! k with
  | None => inr updates
  | Some v =>
      let x :=
        match v with
        | JNull => JNull
        | _ => of_nullable (convert (as_string (Some v)))
        end in
      if bool_decide (x = JStr INVALID) then
        inl (RespError 422 message VALIDATION_ERROR)
      else inr (<[k := x]> updates)
  end.

(** The [updates] object as built from the parsed body, or the validation
    response that ends the request. *)
Definition patch_updates `{Platform} (data : row) (now : string)
  : response + row :=
  let updates : row := ∅ in
  let updates := assign_if_defined data "name" text_field updates in
  let updates :=
    assign_if_defined data "email"
      (fun v => of_nullable (normalizeEmail (as_string (Some v)))) updates in
  let updates :=
    assign_if_defined data "phone"
      (fun v => of_nullable (normalizePhone (as_string (Some v)))) updates in
  let updates := assign_if_defined data "role" text_field updates in
  let updates := assign_if_defined data "company_name" text_field updates in
  let updates := assign_if_defined data "avatar" text_field updates in
  let updates := assign_if_defined data "status" text_field updates in
  let updates := assign_if_defined data "stage" text_field updates in
  let updates := assign_if_defined data "source" text_field updates in
  let updates := assign_if_defined data "notes" text_field updates in
  let updates :=
    assign_if_defined data "client_company_id"
      (fun v =>
         match v with
         | JNull => JNull
         | _ => of_nullable (or_null (sanitizeUUID (as_string (Some v))))
         end) updates in
  match date_block data "birth_date" toIsoDateString
          "Invalid birth_date" updates with
  | inl r => inl r
  | inr updates =>
  match date_block data "last_purchase_date" toIsoDateString
          "Invalid last_purchase_date" updates with
  | inl r => inl r
  | inr updates =>
  match date_block data "last_interaction" toIsoTimestamp
          "Invalid last_interaction" updates with
  | inl r => inl r
  | inr updates =>
  let updates := assign_if_defined data "total_value" (fun v => v) updates in
  inr (<["updated_at" := JStr now]> updates)
  end end end.

Definition PATCH `{Platform} (auth : auth_result) (contactId : string)
    (body : option row) (now : string) (s : store) : response * store :=
  match auth with
  | AuthFailed status b => (RespAuth status b, s)
  | AuthOk organizationId =>
      if negb (isValidUUID contactId) then
        (RespError 422 "Invalid contact id" VALIDATION_ERROR, s)
      else
        match safeParse ContactPatchSchema body with
        | None => (RespError 422 "Invalid payload" VALIDATION_ERROR, s)
        | Some data =>
            match patch_updates data now with
            | inl r => (r, s)
            | inr updates =>
                let '(res, s1) :=
                  update_one true Contacts updates CONTACT_COLUMNS
                    (fun r =>
                       eq_col "organization_id" (JStr organizationId) r
                       && eq_col "id" (JStr contactId) r) s in
                match res with
                | Err m => (RespError 500 m DB_ERROR, s1)
                | Ok None =>
                    (RespError 404 "Contact not found" NOT_FOUND, s1)
                | Ok (Some data) => (RespOne 200 (Some data) None, s1)
                end
            end
        end
  end.

(** ** The four handlers as one entry point *)

Inductive call : Type :=
| CallList (params : gmap string string)
| CallGet (contactId : string)
| CallPost (body : option row) (now_company now : string)
| CallPatch (contactId : string) (body : option row) (now : string).

Definition handle `{Platform} (auth : auth_result) (c : call) (s : store)
  : response * store :=
  match c with
  | CallList params => GET_list auth params s
  | CallGet contactId => GET_one auth contactId s
  | CallPost body now_company now => POST auth body now_company now s
  | CallPatch contactId body now => PATCH auth contactId body now s
  end.

(** ** Vocabulary of the statements *)

(** The failure an adapter call reported, if any. *)
Definition failure_of {A : Type} (r : result A) : option string :=
  match r with
  | Ok _ => None
  | Err m => Some m
  end.

(** The fault the next adapter call will hit. *)
Definition next_fault (s : store) : option string :=
  match faults s with
  | Some m :: _ => Some m
  | _ => None
  end.

(** How the handlers surface a failed adapter call, by the table of the
    call. *)
Definition surfaced (e : event) (m : string) : response :=
  match ev_table e with
  | Contacts => RespError 500 m DB_ERROR
  | Companies =>
      RespError 422 (if Js.falsy m then "Invalid company" else m)
        VALIDATION_ERROR
  end.

(** A date-only value that is a non-blank string, is not of the form
    YYYY-MM-DD and is rejected by [Date]. *)
Definition unparsable_date `{Platform} (v : option jsval) : bool :=
  match as_string v with
  | Some s =>
      let t := Js.trim s in
      negb (Js.falsy t) && negb (is_ymd t)
      && bool_decide (date_parse t = None)
  | None => false
  end.

(** A timestamp value that is a non-blank string rejected by [Date]. *)
Definition unparsable_timestamp `{Platform} (v : option jsval) : bool :=
  match as_string v with
  | Some s =>
      let t := Js.trim s in
      negb (Js.falsy t) && bool_decide (date_parse t = None)
  | None => false
  end.

(** The primary key of a table: every row has an id, and no two rows share
    one. *)
Definition row_id (r : row) : jsval := default JNull (r !! "id").

Definition well_keyed (l : list row) : Prop :=
  NoDup (List.map row_id l) ∧ Forall (fun r => truthy (row_id r) = true) l.

(** The characters [LIKE] does not read literally. *)
Definition pattern_char (c : ascii) : bool :=
  Ascii.eqb c "%" || Ascii.eqb c "_" || Ascii.eqb c "\" || Ascii.eqb c "*".

Definition literal_name (name : string) : bool :=
  forallb (fun c => negb (pattern_char c)) (list_ascii_of_string name).

(** The characters that the filter syntax of the REST layer reserves inside
    an [or(...)] string: the comma and the parentheses that delimit a value,
    the double quote and the backslash of a quoted value, and the braces of
    an array. *)
Definition reserved_char (c : ascii) : bool :=
  Ascii.eqb c "," || Ascii.eqb c "(" || Ascii.eqb c ")"
  || Ascii.eqb c "034" || Ascii.eqb c "\" || Ascii.eqb c "{"
  || Ascii.eqb c "}".

(** A value that an [or(...)] string carries as it stands. *)
Definition plain_value (v : string) : bool :=
  forallb (fun c => negb (reserved_char c)) (list_ascii_of_string v).

(** The dedup lookup reads as the model has it: it splices no value (at most
    one of email and phone is given), or both values are plain. *)
Definition or_safe (email phone : option string) : bool :=
  if negb (absent email) && negb (absent phone) then
    plain_value (default "" email) && plain_value (default "" phone)
  else true.

(** A token with a character that is not a decimal digit. *)
Definition malformed (t : string) : Prop :=
  ∃ c, In c (list_ascii_of_string t) ∧ Js.is_digit c = false.

(** The fields of the upsert body that the update path nulls when they are
    omitted, whatever else the body holds. *)
Definition NULLED_WHEN_OMITTED : list string :=
  ["email"; "phone"; "role"; "company_name"; "avatar"; "status"; "stage";
   "source"; "notes"; "birth_date"; "last_interaction";
   "last_purchase_date"].

(** The text fields of the patch body. *)
Definition PATCH_TEXT_FIELDS : list string :=
  ["name"; "role"; "company_name"; "avatar"; "status"; "stage"; "source";
   "notes"].

(** The normalized identity of an upsert body and the payloads built from
    it, as [POST] computes them. *)
Definition body_email (data : row) : option string :=
  normalizeEmail (as_string (data !! "email")).

Definition body_phone `{Platform} (data : row) : option string :=
  normalizePhone (as_string (data !! "phone")).

Definition body_name (data : row) : option string :=
  normalizeText (as_string (data !! "name")).

Definition body_payload `{Platform} (organizationId : string) (data : row)
    (clientCompanyId : jsval) (now : string) : row :=
  upsert_payload organizationId data (body_email data) (body_phone data)
    (normalizeText (as_string (data !! "company_name"))) clientCompanyId
    (toIsoDateString (as_string (data !! "birth_date")))
    (toIsoTimestamp (as_string (data !! "last_interaction")))
    (toIsoDateString (as_string (data !! "last_purchase_date"))) now.

(** The contacts the dedup lookup of an upsert body matches. *)
Definition dedup_matches `{Platform} (organizationId : string) (data : row)
    (s : store) : list row :=
  List.filter (dedup_filter organizationId (body_email data) (body_phone data))
    (contacts s).

(** The [data] of a response, when it carries one record. *)
Definition response_data (resp : response) : option row :=
  match resp with
  | RespOne _ data _ => data
  | _ => None
  end.

(** A response that is a validation error. *)
Definition is_validation_error (resp : response) : bool :=
  match resp with
  | RespError 422 _ _ => true
  | _ => false
  end.

(** The events a handler added to the log are fine for its response when no
    call failed, or when only the last one did and the response surfaces
    it. *)
Definition clean (evs : list event) : Prop :=
  Forall (fun e => ev_failure e = None) evs.

Definition trace_ok (evs : list event) (resp : response) : Prop :=
  clean evs
  ∨ ∃ pre e m, evs = pre ++ [e] ∧ clean pre ∧ ev_failure e = Some m
               ∧ resp = surfaced e m.

(** The code of an error response is one of the three. *)
Definition code_ok (resp : response) : Prop :=
  match resp with
  | RespError _ _ code => In code [VALIDATION_ERROR; NOT_FOUND; DB_ERROR]
  | _ => True
  end.

(** What each handler adds to the log, and how its response relates to it. *)
Definition handled (s s' : store) (resp : response) : Prop :=
  ∃ evs, log s' = log s ++ evs ∧ trace_ok evs resp ∧ code_ok resp.

(** ** A platform and data for the closed examples *)

Module Sample.

Definition keep_phone_char (c : ascii) : bool :=
  Js.is_digit c || Ascii.eqb c "+".

Fixpoint keep (p : ascii -> bool) (s : string) : string :=
  match s with
  | EmptyString => EmptyString
  | String c s' => if p c then String c (keep p s') else keep p s'
  end.

(** UUIDs are the 36-character strings, phones keep digits and [+], the
    limit is 2, and [Date] parses the epoch only. *)
Definition platform : Platform := {|
  isValidUUID := fun s => (String.length s =? 36)%nat;
  zod_uuid := fun s => (String.length s =? 36)%nat;
  canonPhone := keep keep_phone_char;
  parseLimit := fun _ => 2;
  date_parse := fun s =>
    if String.eqb s "1970-01-01T00:00:00.000Z" then Some 0 else None;
  toISOString := fun _ => "1970-01-01T00:00:00.000Z";
|}.

Definition org : string := "org-1".

Definition empty : store := Store [] [] 0 [] [].

Definition contact (id name email phone created : string) : row :=
  list_to_map
    [("id", JStr id); ("organization_id", JStr org); ("name", JStr name);
     ("email", JStr email); ("phone", JStr phone);
     ("status", JStr "ACTIVE"); ("stage", JStr "LEAD");
     ("total_value", JNum 10);
     ("created_at", JStr created); ("updated_at", JStr created)].

Definition company (id name : string) : row :=
  list_to_map
    [("id", JStr id); ("organization_id", JStr org); ("name", JStr name);
     ("created_at", JStr "2024-01-01T00:00:00.000Z");
     ("updated_at", JStr "2024-01-01T00:00:00.000Z")].

Definition ana : row :=
  contact "c-ana" "Ana" "ana@ex.com" "+5511" "2024-01-01T00:00:00.000Z".
Definition bia : row :=
  contact "c-bia" "Bia" "bia@ex.com" "+5522" "2024-01-02T00:00:00.000Z".
Definition caio : row :=
  contact "c-caio" "Caio" "caio@ex.com" "+5533" "2024-01-03T00:00:00.000Z".

(** Three contacts and one company of the tenant. *)
Definition crm : store :=
  Store [ana; bia; caio] [company "k-abc" "abc"] 7 [] [].

Definition uuid : string := "00000000-0000-4000-8000-000000000001".

(** One contact whose id is a UUID, for the routes that take one. *)
Definition crm_uuid : store :=
  Store [contact uuid "Ana" "ana@ex.com" "+5511" "2024-01-01T00:00:00.000Z"]
        [] 1 [] [].

(** The same store with a fault script. *)
Definition with_faults (fs : list (option string)) (s : store) : store :=
  Store (contacts s) (companies s) (next_id s) fs (log s).

(** Upsert bodies. *)
Definition nameless_with_company : row :=
  list_to_map [("email", JStr "new@ex.com"); ("company_name", JStr "Acme")].

Definition new_with_company : row :=
  list_to_map
    [("name", JStr "Nu"); ("email", JStr "new@ex.com");
     ("company_name", JStr "Acme")].

Definition ana_and_bia : row :=
  list_to_map
    [("name", JStr "Ana"); ("email", JStr "ANA@EX.com");
     ("phone", JStr "+55 22")].

Definition ana_renamed : row :=
  list_to_map [("name", JStr "Ana Silva"); ("email", JStr "ANA@EX.com")].

Definition ana_company_only : row :=
  list_to_map [("email", JStr "ana@ex.com"); ("company_name", JStr "ABC")].

Definition two_bad_dates : row :=
  list_to_map
    [("name", JStr "Ana"); ("email", JStr "ana@ex.com");
     ("birth_date", JStr "not-a-date");
     ("last_purchase_date", JStr "also-bad")].

Definition bad_purchase_date : row :=
  list_to_map
    [("name", JStr "Ana"); ("email", JStr "ana@ex.com");
     ("last_purchase_date", JStr "also-bad")].

Definition new_lead_with_status : row :=
  list_to_map
    [("name", JStr "Nu"); ("email", JStr "new@ex.com");
     ("status", JStr "INACTIVE"); ("stage", JStr "CUSTOMER")].

Definition t0 : string := "2025-01-01T00:00:00.000Z".
Definition t1 : string := "2025-01-01T00:00:01.000Z".

End Sample.

(** ** A client of the list route

    [crawl] is a consumer of [GET /contacts]: it asks for a page, keeps the
    rows, and asks again with the [nextCursor] it was given until it is
    given none ([fuel] bounds the number of requests). *)
Fixpoint crawl `{Platform} (fuel : nat) (organizationId : string)
    (params : gmap string string) (cursor : option string) (s : store)
  : list row :=
  match fuel with
  | O => []
  | S fuel' =>
      let params' :=
        match cursor with
        | Some c => <["cursor" := c]> params
        | None => delete "cursor" params
        end in
      match GET_list (AuthOk organizationId) params' s with
      | (RespList data next, s') =>
          data ++ match next with
                  | Some c => crawl fuel' organizationId params (Some c) s'
                  | None => []
                  end
      | _ => []
      end
  end.

(** The rows a list request matches, newest first. *)
Definition list_matching `{Platform} (organizationId : string)
    (params : gmap string string) (s : store) : list row :=
  merge_sort created_at_desc
    (List.filter
       (list_filter organizationId
          (sanitizeUUID (params !! "client_company_id"))
          (normalizeEmail (params !! "email"))
          (normalizePhone (params !! "phone"))
          (Js.trim (default "" (params !! "q"))))
       (contacts s)).

(** A contact of the tenant that is not soft-deleted. *)
Definition visible_to (organizationId : string) (r : row) : bool :=
  eq_col "organization_id" (JStr organizationId) r && is_null "deleted_at" r.

(** The record a client is shown for a stored contact. *)
Definition shown (r : row) : row := project CONTACT_COLUMNS r.

(** The filter of the partial update: tenant and id. *)
Definition patch_filter (organizationId contactId : string) (r : row) : bool :=
  eq_col "organization_id" (JStr organizationId) r
  && eq_col "id" (JStr contactId) r.


(** ** More of the JavaScript string library *)

(** [hay.startsWith(needle)] *)
Fixpoint startsWith (needle hay : string) : bool :=
  match needle, hay with
  | EmptyString, _ => true
  | String a n, String b h => Ascii.eqb a b && startsWith n h
  | String _ _, EmptyString => false
  end.

(** [hay.includes(needle)] *)
Fixpoint includes (needle hay : string) : bool :=
  startsWith needle hay
  || match hay with
     | EmptyString => false
     | String _ h => includes needle h
     end.

(** A contact one of whose name, email and phone contains [q], letter case
    aside. *)
Definition text_contains (q : string) (r : row) : bool :=
  existsb
    (fun col =>
       match r !! col with
       | Some (JStr v) => includes (Js.toLowerCase q) (Js.toLowerCase v)
       | _ => false
       end)
    ["name"; "email"; "phone"].

(** The rows a response carries. *)
Definition response_rows (resp : response) : list row :=
  match resp with
  | RespOne _ (Some d) _ => [d]
  | RespList data _ => data
  | _ => []
  end.

(** ** [installer/supabase/create-project/route.ts]

    The handler that creates the hosted project of an installation.  Its
    three imports are collaborators outside the sources: the origin check
    and the two calls to the provider's management API. *)

Module Installer.

(** [process.env]: an unset variable is [None]. *)
Record env : Type := Env {
  INSTALLER_ENABLED : option string;
  INSTALLER_TOKEN : option string;
}.

(** The request: its headers, and the outcome of [req.json()], where [None]
    is a body that is not a JSON object.  As in the contact schemas, a
    boolean stands for every JSON value no field accepts. *)
Record request : Type := Request {
  headers : gmap string string;
  req_json : option row;
}.

(** The argument of [createSupabaseProject]. *)
Record create_args : Type := CreateArgs {
  accessToken : string;
  organizationSlug : string;
  name : string;
  dbPass : string;
  regionSmartGroup : option string;
}.

(** The argument of [listAllSupabaseOrganizationProjects]; [statuses] is
    always [undefined]. *)
Record list_args : Type := ListArgs {
  list_accessToken : string;
  list_organizationSlug : string;
  statuses : option (list string);
  search : string;
}.

(** What [createSupabaseProject] resolves to: [ok] with the project, or not
    [ok] with [error], [status] and [response], each possibly undefined. *)
Inductive created : Type :=
| Created (projectRef projectName : string)
| CreateFailed (error : option string) (status : option Z)
    (response : option jsval).

(** An entry of the project listing, as far as the handler reads it. *)
Record project : Type := Project {
  project_name : option string;
  ref : option string;
}.

(** What [listAllSupabaseOrganizationProjects] resolves to; an entry may be
    nullish, which is what [p?.name] guards against. *)
Inductive existing : Type :=
| Listed (projects : list (option project))
| ListFailed.

Class Collaborators : Type := {
  (** [isAllowedOrigin] of [@/lib/security/sameOrigin] *)
  isAllowedOrigin : request -> bool;
  (** the two functions of [@/lib/installer/edgeFunctions] *)
  createSupabaseProject : create_args -> created;
  listAllSupabaseOrganizationProjects : list_args -> existing;
}.

(** The calls made to the provider, in order. *)
Inductive sent : Type :=
| SentCreate (args : create_args)
| SentList (args : list_args).

(** The JSON bodies the handler answers with.  The [details] of an invalid
    payload (zod's flattened error) are not modelled; [reusedExisting] is
    [false] where the source leaves the key out. *)
Inductive body : Type :=
| ErrorBody (error : string)
| InvalidPayload
| Forwarded (error : option string) (status : option Z)
    (details : option jsval)
| ProjectBody (projectRef : string) (projectName : option string)
    (supabaseUrl : string) (reusedExisting : bool).

Record reply : Type := Reply {
  reply_status : Z;
  reply_body : body;
}.

(** [json(body, status = 200)]: the status and body handed to
    [new Response].  The constructor takes them when [accepted_status] holds
    of the status; for any other status it throws instead of building a
    response, which the model does not follow. *)
Definition json (b : body) (status : option Z) : reply :=
  Reply (default 200 status) b.

(** The statuses [new Response] accepts together with a body: from 200 to
    599, and not a null-body status. *)
Definition accepted_status (status : Z) : bool :=
  (200 <=? status) && (status <=? 599)
  && negb (bool_decide (status ∈ [204; 205; 304])).

(** *** The zod schema *)

Definition REGIONS : list string := ["americas"; "emea"; "apac"].

(** The check of one key of the body; a key the schema does not list fails
    the strict object. *)
Definition Schema_field (k : string) (v : jsval) : bool :=
  match v with
  | JStr x =>
      let n := String.length x in
      if String.eqb k "installerToken" then true
      else if String.eqb k "accessToken" then (1 <=? n)%nat
      else if String.eqb k "organizationSlug" then (1 <=? n)%nat
      else if String.eqb k "name" then (2 <=? n)%nat && (n <=? 64)%nat
      else if String.eqb k "dbPass" then (12 <=? n)%nat
      else if String.eqb k "regionSmartGroup" then bool_decide (x ∈ REGIONS)
      else false
  | _ => false
  end.

Definition REQUIRED : list string :=
  ["accessToken"; "organizationSlug"; "name"; "dbPass"].

(** [Schema.safeParse(raw)]: [None] is a failed parse. *)
Definition safeParse (raw : option row) : option row :=
  match raw with
  | None => None
  | Some data =>
      if forallb (fun kv => Schema_field kv.1 kv.2) (map_to_list data)
         && forallb (fun k => bool_decide (is_Some (data !! k))) REQUIRED
      then Some data
      else None
  end.

(** A string field of the parsed body. *)
Definition field (data : row) (k : string) : string :=
  default "" (as_string (data !! k)).

(** [created.status || 500] *)
Definition status_or_500 (status : option Z) : Z :=
  match status with
  | Some n => if n =? 0 then 500 else n
  | None => 500
  end.

(** The callback of [existing.projects.find]. *)
Definition same_name (wanted : string) (p : option project) : bool :=
  String.eqb
    (Js.trim (Js.toLowerCase (default "" (p ≫= project_name))))
    (Js.toLowerCase (Js.trim wanted)).

(** Names written in ASCII, where letter case is the twenty-six letters. *)
Definition ascii_only (s : string) : bool :=
  forallb (fun c => (nat_of_ascii c <? 128)%nat) (list_ascii_of_string s).

Definition ascii_names (projects : list (option project)) : Prop :=
  Forall (fun p => ascii_only (default "" (p ≫= project_name)) = true)
    projects.

Definition supabaseUrl_of (projectRef : string) : string :=
  "https://" +:+ projectRef +:+ ".supabase.co".

(** [POST]: the reply and the calls made to the provider. *)
Definition POST `{Collaborators} (e : env) (req : request)
  : reply * list sent :=
  if negb (isAllowedOrigin req) then
    (json (ErrorBody "Forbidden") (Some 403), [])
  else if bool_decide (INSTALLER_ENABLED e = Some "false") then
    (json (ErrorBody "Installer disabled") (Some 403), [])
  else
  match safeParse (req_json req) with
  | None => (json InvalidPayload (Some 400), [])
  | Some data =>
  let expectedToken := INSTALLER_TOKEN e in
  if negb (absent expectedToken)
     && negb (bool_decide
                (as_string (data !! "installerToken") = expectedToken))
  then (json (ErrorBody "Invalid installer token") (Some 403), [])
  else
  let args :=
    CreateArgs (Js.trim (field data "accessToken"))
      (Js.trim (field data "organizationSlug"))
      (Js.trim (field data "name"))
      (field data "dbPass")
      (as_string (data !! "regionSmartGroup")) in
  match createSupabaseProject args with
  | Created projectRef projectName =>
      (json (ProjectBody projectRef (Some projectName)
               (supabaseUrl_of projectRef) false) None,
       [SentCreate args])
  | CreateFailed error status response =>
      let msg := Js.toLowerCase (default "" error) in
      let forwarded :=
        json (Forwarded error status response)
          (Some (status_or_500 status)) in
      if (bool_decide (status = Some 400) || bool_decide (status = Some 409))
         && includes "already exists" msg
      then
        let largs :=
          ListArgs (Js.trim (field data "accessToken"))
            (Js.trim (field data "organizationSlug"))
            None
            (Js.trim (field data "name")) in
        match listAllSupabaseOrganizationProjects largs with
        | Listed projects =>
            match List.find (same_name (field data "name")) projects with
            | Some (Some p) =>
                if negb (absent (ref p)) then
                  (json (ProjectBody (default "" (ref p)) (project_name p)
                           (supabaseUrl_of (default "" (ref p))) true) None,
                   [SentCreate args; SentList largs])
                else (forwarded, [SentCreate args; SentList largs])
            | _ => (forwarded, [SentCreate args; SentList largs])
            end
        | ListFailed => (forwarded, [SentCreate args; SentList largs])
        end
      else (forwarded, [SentCreate args])
  end
  end.

(** The checks a request passes before the provider is called. *)
Definition admitted `{Collaborators} (e : env) (req : request) (data : row)
  : Prop :=
  isAllowedOrigin req = true
  ∧ INSTALLER_ENABLED e ≠ Some "false"
  ∧ safeParse (req_json req) = Some data
  ∧ (absent (INSTALLER_TOKEN e) = true
     ∨ as_string (data !! "installerToken") = INSTALLER_TOKEN e).

(** A provider whose project already exists, and one that also lists it. *)
Definition taken : Collaborators := {|
  isAllowedOrigin := fun _ => true;
  createSupabaseProject := fun _ =>
    CreateFailed (Some "Project ALREADY EXISTS") (Some 409) None;
  listAllSupabaseOrganizationProjects := fun _ =>
    Listed [Some (Project (Some "other") (Some "ref-0"));
            Some (Project (Some " My CRM") (Some "ref-1"));
            Some (Project (Some "my crm") (Some "ref-2"))];
|}.

(** A provider whose listing has the name twice, first without a ref. *)
Definition shadowed : Collaborators := {|
  isAllowedOrigin := fun _ => true;
  createSupabaseProject := fun _ =>
    CreateFailed (Some "Project ALREADY EXISTS") (Some 409) None;
  listAllSupabaseOrganizationProjects := fun _ =>
    Listed [Some (Project (Some "My CRM") None);
            Some (Project (Some "my crm") (Some "ref-2"))];
|}.

Definition sample_env : env := Env None (Some "s3cret").

Definition sample_body : row :=
  list_to_map
    [("installerToken", JStr "s3cret"); ("accessToken", JStr " sbp_1 ");
     ("organizationSlug", JStr "acme"); ("name", JStr "My CRM ");
     ("dbPass", JStr "correct horse")].

Definition sample_request : request := Request ∅ (Some sample_body).

(** A body whose project name is three spaces. *)
Definition blank_name_request : request :=
  Request ∅ (Some (<["name" := JStr "   "]> sample_body)).

End Installer.

(** ** [NavigationRail.tsx] and its [navConfig] *)

Module Nav.

Record PrimaryNavItem : Type := NavItem {
  id : string;
  label : string;
  href : option string;
}.

Definition PRIMARY_NAV : list PrimaryNavItem :=
  [NavItem "inbox" "Inbox" (Some "/inbox");
   NavItem "boards" "Boards" (Some "/boards");
   NavItem "contacts" "Contatos" (Some "/contacts");
   NavItem "activities" "Atividades" (Some "/activities");
   NavItem "more" "Mais" None].

(** [isActive] of the rail. *)
Definition isActive (pathname : string) (item : PrimaryNavItem) : bool :=
  match href item with
  | Some h =>
      if Js.falsy h then false
      else String.eqb pathname h
           || (String.eqb h "/boards" && String.eqb pathname "/pipeline")
  | None => false
  end.

(** What the rail renders for an item: the button that opens the menu, or a
    link with its [aria-current]. *)
Inductive element : Type :=
| Button (title : string)
| Link (to title : string) (aria_current : bool).

Definition render (pathname : string) (item : PrimaryNavItem) : element :=
  if String.eqb (id item) "more" then Button (label item)
  else Link (default "" (href item)) (label item) (isActive pathname item).

(** The items of [NavigationRail] at a pathname. *)
Definition NavigationRail (pathname : string) : list element :=
  List.map (render pathname) PRIMARY_NAV.

Definition is_current (el : element) : bool :=
  match el with
  | Link _ _ c => c
  | Button _ => false
  end.

End Nav.

(** * Properties *)

(** ** Cursor codec *)

Lemma uint_of_char_non_digit (c : ascii) (o : option Decimal.uint) :
  Js.is_digit c = false → uint_of_char c o = None.
Proof.
  destruct o as [d|].
  - destruct c as [[] [] [] [] [] [] [] []]; vm_compute; congruence.
  - destruct c as [[] [] [] [] [] [] [] []]; reflexivity.
Qed.

Lemma uint_of_char_None (c : ascii) : uint_of_char c None = None.
Proof. destruct c as [[] [] [] [] [] [] [] []]; reflexivity. Qed.

Lemma malformed_not_numeral (t : string) :
  malformed t → NilEmpty.uint_of_string t = None.
Proof.
  intros (c & Hin & Hc).
  induction t as [|a t IH]; simpl in *; [contradiction|].
  destruct Hin as [->|Hin].
  - by apply uint_of_char_non_digit.
  - rewrite (IH Hin). apply uint_of_char_None.
Qed.

(** C8. Decoding the token of a non-negative offset gives the offset back;
    an absent token and a malformed token decode to 0. *)
Theorem cursor_decode_encode :
  (∀ k : N,
     decodeOffsetCursor (Some (encodeOffsetCursor (Z.of_N k))) = Z.of_N k)
  ∧ decodeOffsetCursor None = 0
  ∧ (∀ t : string, malformed t → decodeOffsetCursor (Some t) = 0).
Proof.
  split; [|split].
  - intros k. unfold decodeOffsetCursor, encodeOffsetCursor.
    by rewrite NilEmpty.usu, DecimalN.Unsigned.of_to, N2Z.id.
  - reflexivity.
  - intros t Ht. unfold decodeOffsetCursor.
    by rewrite (malformed_not_numeral t Ht).
Qed.

Lemma cursor_decode_encode_witness :
  malformed "12a" ∧ decodeOffsetCursor (Some "12a") = 0.
Proof.
  assert (Hm : malformed "12a").
  { exists "a"%char. split; [simpl; tauto | reflexivity]. }
  split; [exact Hm|].
  exact (proj2 (proj2 cursor_decode_encode) "12a" Hm).
Defined.

(** ** Page window *)

Lemma range_lookup {A : Type} (k L : Z) (l : list A) (i : nat) :
  0 ≤ k →
  range k (k + L - 1) l !! i =
    if Z.of_nat i <? L then l !! (Z.to_nat k + i)%nat else None.
Proof.
  intros Hk. unfold range.
  replace (k + L - 1 - k + 1) with L by lia.
  destruct (Z.ltb_spec (Z.of_nat i) L) as [Hlt|Hge].
  - rewrite lookup_take_lt by lia. by rewrite lookup_drop.
  - apply lookup_take_ge. lia.
Qed.

Lemma decodeOffsetCursor_nonneg (c : option string) :
  0 ≤ decodeOffsetCursor c.
Proof.
  unfold decodeOffsetCursor.
  destruct c as [t|]; [|lia].
  destruct (NilEmpty.uint_of_string t); lia.
Qed.

(** ** The adapter calls *)

(** The store after an adapter call that left the tables alone. *)
Lemma begin_call_eq (s : store) :
  begin_call s =
    (next_fault s,
     Store (contacts s) (companies s) (next_id s) (tail (faults s)) (log s)).
Proof. destruct s as [c k n [|[m|] fs] l]; reflexivity. Qed.

Lemma rows_set_rows (t : table) (l : list row) (s : store) :
  rows t (set_rows t l s) = l.
Proof. by destruct t. Qed.

Lemma select_maybeSingle_facts (t : table) (cols : list string)
    (p : row → bool) (s s' : store) (res : result (option row)) :
  select_maybeSingle t cols p s = (res, s') →
  contacts s' = contacts s ∧ companies s' = companies s
  ∧ next_id s' = next_id s ∧ faults s' = tail (faults s)
  ∧ log s' = log s ++ [Event t Select (failure_of res)]
  ∧ match res with
    | Err m =>
        next_fault s = Some m
        ∨ (next_fault s = None ∧ m = multi_row_message
           ∧ (1 < length (List.filter p (rows t s)))%nat)
    | Ok None => next_fault s = None ∧ List.filter p (rows t s) = []
    | Ok (Some r) =>
        next_fault s = None
        ∧ ∃ r0, List.filter p (rows t s) = [r0] ∧ r = project cols r0
    end.
Proof.
  unfold select_maybeSingle. rewrite begin_call_eq.
  destruct (next_fault s) as [m|] eqn:Hf.
  - intros [= <- <-]. simpl. by repeat split; auto.
  - replace (rows t (Store (contacts s) (companies s) (next_id s)
                       (tail (faults s)) (log s))) with (rows t s)
      by (by destruct t).
    destruct (List.filter p (rows t s)) as [|r0 [|r1 l]] eqn:Hfl;
      intros [= <- <-]; simpl; repeat split; eauto.
    right. repeat split; auto. lia.
Qed.

Lemma insert_single_facts (t : table) (payload : row) (cols : list string)
    (s s' : store) (res : result row) :
  insert_single t payload cols s = (res, s') →
  faults s' = tail (faults s)
  ∧ log s' = log s ++ [Event t Insert (failure_of res)]
  ∧ match res with
    | Err m =>
        next_fault s = Some m ∧ contacts s' = contacts s
        ∧ companies s' = companies s ∧ next_id s' = next_id s
    | Ok r =>
        next_fault s = None
        ∧ let new := <["id" := JStr (gen_id (next_id s))]> payload in
          r = project cols new
          ∧ rows t s' = rows t s ++ [new]
          ∧ (∀ t', t' ≠ t → rows t' s' = rows t' s)
          ∧ next_id s' = S (next_id s)
    end.
Proof.
  unfold insert_single. rewrite begin_call_eq.
  destruct (next_fault s) as [m|] eqn:Hf; intros [= <- <-].
  - by repeat split.
  - destruct t; simpl; repeat split; auto; by intros [] ?.
Qed.

Lemma update_one_facts (allow_none : bool) (t : table) (payload : row)
    (cols : list string) (p : row → bool) (s s' : store)
    (res : result (option row)) :
  update_one allow_none t payload cols p s = (res, s') →
  faults s' = tail (faults s)
  ∧ next_id s' = next_id s
  ∧ log s' = log s ++ [Event t Update (failure_of res)]
  ∧ (∀ t', t' ≠ t → rows t' s' = rows t' s)
  ∧ match res with
    | Err m =>
        rows t s' = rows t s
        ∧ (next_fault s = Some m
           ∨ (next_fault s = None ∧ m = multi_row_message
              ∧ length (List.filter p (rows t s)) ≠ 1%nat))
    | Ok None =>
        rows t s' = rows t s ∧ next_fault s = None ∧ allow_none = true
        ∧ List.filter p (rows t s) = []
    | Ok (Some r) =>
        next_fault s = None
        ∧ ∃ r0, List.filter p (rows t s) = [r0]
                ∧ r = project cols (payload ∪ r0)
                ∧ rows t s' = apply_update p payload (rows t s)
    end.
Proof.
  unfold update_one. rewrite begin_call_eq.
  destruct (next_fault s) as [m|] eqn:Hf.
  - intros [= <- <-]. destruct t; simpl; repeat split; auto; by intros [] ?.
  - replace (rows t (Store (contacts s) (companies s) (next_id s)
                       (tail (faults s)) (log s))) with (rows t s)
      by (by destruct t).
    destruct (List.filter p (rows t s)) as [|r0 [|r1 l]] eqn:Hfl.
    + destruct allow_none; intros [= <- <-];
        destruct t; simpl; repeat split; auto; try (by intros [] ?);
        right; by rewrite Hfl.
    + intros [= <- <-].
      destruct t; simpl; repeat split; auto; try (by intros [] ?);
        exists r0; by repeat split.
    + intros [= <- <-].
      destruct t; simpl; repeat split; auto; try (by intros [] ?);
        right; by rewrite Hfl.
Qed.

Lemma select_range_facts (t : table) (cols : list string) (p : row → bool)
    (from to : Z) (s s' : store) (res : result (list row * option Z)) :
  select_range t cols p from to s = (res, s') →
  contacts s' = contacts s ∧ companies s' = companies s
  ∧ next_id s' = next_id s ∧ faults s' = tail (faults s)
  ∧ log s' = log s ++ [Event t Select (failure_of res)]
  ∧ match res with
    | Err m => next_fault s = Some m
    | Ok (data, count) =>
        next_fault s = None
        ∧ let matching :=
            merge_sort created_at_desc (List.filter p (rows t s)) in
          data = List.map (project cols) (range from to matching)
          ∧ count = Some (Z.of_nat (length matching))
    end.
Proof.
  unfold select_range. rewrite begin_call_eq.
  destruct (next_fault s) as [m|] eqn:Hf; intros [= <- <-]; simpl.
  - by repeat split.
  - repeat split; auto; by destruct t.
Qed.



(** ** Adapter failures *)

Lemma trace_ok_nil (resp : response) : trace_ok [] resp.
Proof. left. constructor. Qed.

Lemma clean_snoc (evs : list event) (t : table) (o : operation) :
  clean evs → clean (evs ++ [Event t o None]).
Proof. intros Hc. apply Forall_app. split; [done|]. by repeat constructor. Qed.

Lemma trace_ok_failed (evs : list event) (t : table) (o : operation)
    (m : string) (resp : response) :
  clean evs → resp = surfaced (Event t o (Some m)) m →
  trace_ok (evs ++ [Event t o (Some m)]) resp.
Proof. intros Hc ->. right. by exists evs, (Event t o (Some m)), m. Qed.

(** A failed event of a fine trace is its last event. *)
Lemma trace_ok_failure_last (evs pre post : list event) (e : event)
    (m : string) (resp : response) :
  trace_ok evs resp → evs = pre ++ e :: post → ev_failure e = Some m →
  post = [] ∧ resp = surfaced e m.
Proof.
  intros [Hc|(pre' & e' & m' & Hevs & Hc & He' & Hresp)] -> He.
  - apply Forall_app in Hc as [_ Hc]. inversion Hc; congruence.
  - destruct post as [|x post].
    + apply (app_inj_tail pre pre' e e') in Hevs as [-> ->].
      split; [done|]. congruence.
    + exfalso.
      assert (Hin : e ∈ pre').
      { assert (Hl : (pre ++ e :: x :: post) !! length pre = Some e)
          by (by rewrite lookup_app_r, Nat.sub_diag by lia).
        rewrite Hevs in Hl.
        assert (Hlen : (length pre < length pre')%nat).
        { apply (f_equal length) in Hevs.
          rewrite !length_app in Hevs. simpl in Hevs. lia. }
        rewrite lookup_app_l in Hl by done.
        by apply list_elem_of_lookup_2 in Hl. }
      unfold clean in Hc. rewrite Forall_forall in Hc.
      specialize (Hc e Hin). congruence.
Qed.

(** Company resolution calls the companies table only, leaves the contacts
    alone, and a failure is its last call. *)
Lemma resolveCompanyIdFromName_trace (organizationId companyName now : string)
    (s s' : store) (res : result jsval) :
  resolveCompanyIdFromName organizationId companyName now s = (res, s') →
  contacts s' = contacts s
  ∧ ∃ evs, log s' = log s ++ evs
           ∧ match res with
             | Ok _ => clean evs
             | Err m =>
                 ∃ pre o, evs = pre ++ [Event Companies o (Some m)] ∧ clean pre
             end.
Proof.
  unfold resolveCompanyIdFromName.
  destruct (normalizeText (Some companyName)) as [name|].
  2:{ intros [= <- <-]. split; [done|]. exists []. rewrite app_nil_r.
      split; [done|constructor]. }
  destruct (select_maybeSingle _ _ _ s) as [existing s1] eqn:H1.
  apply select_maybeSingle_facts in H1 as (Hc1 & _ & _ & _ & Hl1 & _).
  destruct existing as [data|m].
  2:{ intros [= <- <-]. split; [done|].
      exists [Event Companies Select (Some m)]. split; [done|].
      exists [], Select. split; [done|constructor]. }
  destruct (truthy _).
  { intros [= <- <-]. split; [done|].
    exists [Event Companies Select None]. split; [done|].
    by repeat constructor. }
  destruct (insert_single _ _ _ s1) as [created s2] eqn:H2.
  apply insert_single_facts in H2 as (_ & Hl2 & Hres).
  destruct created as [r|m]; intros [= <- <-].
  - destruct Hres as (_ & _ & _ & Hother & _).
    split; [by rewrite <- Hc1; apply (Hother Contacts)|].
    exists [Event Companies Select None; Event Companies Insert None].
    split; [by rewrite Hl2, Hl1, <- app_assoc|by repeat constructor].
  - destruct Hres as (_ & Hc2 & _).
    split; [congruence|].
    exists [Event Companies Select None; Event Companies Insert (Some m)].
    split; [by rewrite Hl2, Hl1, <- app_assoc|].
    exists [Event Companies Select None], Insert.
    split; [done|by repeat constructor].
Qed.

Lemma handled_no_call (s : store) (resp : response) :
  code_ok resp → handled s s resp.
Proof.
  intros Hc. exists []. rewrite app_nil_r. split; [done|].
  split; [apply trace_ok_nil|done].
Qed.

Ltac no_call :=
  intros [= <- <-]; apply handled_no_call; simpl; tauto.

Lemma GET_list_handled `{Platform} (auth : auth_result)
    (params : gmap string string) (s s' : store) (resp : response) :
  GET_list auth params s = (resp, s') → handled s s' resp.
Proof.
  unfold GET_list. destruct auth as [st b|org]; [no_call|].
  unfold page_window.
  destruct (select_range _ _ _ _ _ s) as [res s1] eqn:Hq.
  apply select_range_facts in Hq as (_ & _ & _ & _ & Hl & _).
  destruct res as [[data count]|m]; intros [= <- <-].
  - exists [Event Contacts Select None]. split; [done|].
    split; [left; by repeat constructor|done].
  - exists ([] ++ [Event Contacts Select (Some m)]). split; [done|].
    split; [by apply trace_ok_failed; [constructor|]|simpl; tauto].
Qed.

Lemma GET_one_handled `{Platform} (auth : auth_result) (contactId : string)
    (s s' : store) (resp : response) :
  GET_one auth contactId s = (resp, s') → handled s s' resp.
Proof.
  unfold GET_one. destruct auth as [st b|org]; [no_call|].
  destruct (negb (isValidUUID contactId)); [no_call|].
  destruct (select_maybeSingle _ _ _ s) as [res s1] eqn:Hq.
  apply select_maybeSingle_facts in Hq as (_ & _ & _ & _ & Hl & _).
  destruct res as [[data|]|m]; intros [= <- <-].
  - exists [Event Contacts Select None]. split; [done|].
    split; [left; by repeat constructor|done].
  - exists [Event Contacts Select None]. split; [done|].
    split; [left; by repeat constructor|simpl; tauto].
  - exists ([] ++ [Event Contacts Select (Some m)]). split; [done|].
    split; [by apply trace_ok_failed; [constructor|]|simpl; tauto].
Qed.

Lemma date_block_code (data : row) (k : string)
    (convert : option string → option string) (message : string)
    (updates : row) (r : response) :
  date_block data k convert message updates = inl r →
  r = RespError 422 message VALIDATION_ERROR.
Proof.
  unfold date_block. destruct (data !! k); [|done].
  by destruct (bool_decide _); intros [= <-].
Qed.

Lemma patch_updates_code `{Platform} (data : row) (now : string)
    (r : response) :
  patch_updates data now = inl r →
  ∃ message, r = RespError 422 message VALIDATION_ERROR.
Proof.
  unfold patch_updates.
  repeat match goal with
  | |- context [date_block ?d ?k ?c ?m ?u] =>
      let E := fresh "E" in
      destruct (date_block d k c m u) eqn:E;
      [apply date_block_code in E; intros [= <-]; eauto|]
  end.
  done.
Qed.

Lemma PATCH_handled `{Platform} (auth : auth_result) (contactId : string)
    (body : option row) (now : string) (s s' : store) (resp : response) :
  PATCH auth contactId body now s = (resp, s') → handled s s' resp.
Proof.
  unfold PATCH. destruct auth as [st b|org]; [no_call|].
  destruct (negb (isValidUUID contactId)); [no_call|].
  destruct (safeParse _ body) as [data|]; [|no_call].
  destruct (patch_updates data now) as [r|updates] eqn:Hu.
  { apply patch_updates_code in Hu as [message ->]. no_call. }
  destruct (update_one _ _ _ _ _ s) as [res s1] eqn:Hq.
  apply update_one_facts in Hq as (_ & _ & Hl & _).
  destruct res as [[data'|]|m]; intros [= <- <-].
  - exists [Event Contacts Update None]. split; [done|].
    split; [left; by repeat constructor|done].
  - exists [Event Contacts Update None]. split; [done|].
    split; [left; by repeat constructor|simpl; tauto].
  - exists ([] ++ [Event Contacts Update (Some m)]). split; [done|].
    split; [by apply trace_ok_failed; [constructor|]|simpl; tauto].
Qed.

Lemma POST_handled `{Platform} (auth : auth_result) (body : option row)
    (now_company now : string) (s s' : store) (resp : response) :
  POST auth body now_company now s = (resp, s') → handled s s' resp.
Proof.
  unfold POST. destruct auth as [st b|org]; [no_call|].
  destruct (safeParse _ body) as [data|]; [|no_call].
  destruct (absent _ && absent _); [no_call|].
  destruct (bool_decide (toIsoDateString (as_string (data !! "birth_date"))
                         = _)); [no_call|].
  destruct (bool_decide (toIsoDateString
                           (as_string (data !! "last_purchase_date")) = _));
    [no_call|].
  destruct (bool_decide (toIsoTimestamp
                           (as_string (data !! "last_interaction")) = _));
    [no_call|].
  destruct (client_company org data now_company s) as [resolved s1] eqn:Hr.
  unfold client_company in Hr.
  assert (Hco : ∃ evs, log s1 = log s ++ evs
                  ∧ match resolved with
                    | Ok _ => clean evs
                    | Err m =>
                        ∃ pre o, evs = pre ++ [Event Companies o (Some m)]
                                 ∧ clean pre
                    end).
  { destruct (negb _ && negb _) in Hr.
    - by apply resolveCompanyIdFromName_trace in Hr as [_ ?].
    - inversion Hr; subst; clear Hr. exists []. rewrite app_nil_r.
      split; [done|constructor]. }
  destruct Hco as (evs1 & Hl1 & Hres).
  destruct resolved as [cid|m].
  2:{ intros [= <- <-]. destruct Hres as (pre & o & -> & Hpre).
      eexists. split; [exact Hl1|].
      split; [by apply trace_ok_failed|simpl; tauto]. }
  destruct (select_maybeSingle _ _ _ s1) as [existing s2] eqn:H2.
  apply select_maybeSingle_facts in H2 as (_ & _ & _ & _ & Hl2 & _).
  rewrite Hl1, <- app_assoc in Hl2.
  destruct existing as [found|m].
  2:{ intros [= <- <-]. eexists. split; [exact Hl2|].
      split; [by apply trace_ok_failed|simpl; tauto]. }
  simpl in Hl2. clear Hr.
  destruct (truthy (default JNull (found ≫= _))).
  - destruct (update_one _ _ _ _ _ s2) as [res s3] eqn:H3.
    apply update_one_facts in H3 as (_ & _ & Hl3 & _).
    rewrite Hl2, <- app_assoc in Hl3.
    destruct res as [r|m]; intros [= <- <-];
      (eexists; split; [exact Hl3|]).
    + split; [left|done]. simpl. by do 2 apply clean_snoc.
    + split; [|simpl; tauto]. simpl.
      apply trace_ok_failed; [by apply clean_snoc|done].
  - destruct (absent (normalizeText _)).
    + intros [= <- <-]. eexists. split; [exact Hl2|].
      split; [left; by apply clean_snoc|simpl; tauto].
    + destruct (insert_single _ _ _ s2) as [res s3] eqn:H3.
      apply insert_single_facts in H3 as (_ & Hl3 & _).
      rewrite Hl2, <- app_assoc in Hl3.
      destruct res as [r|m]; intros [= <- <-];
        (eexists; split; [exact Hl3|]).
      * split; [left|done]. simpl. by do 2 apply clean_snoc.
      * split; [|simpl; tauto]. simpl.
        apply trace_ok_failed; [by apply clean_snoc|done].
Qed.

(** C3 (as amended). In every contacts handler a failed adapter call is the
    last call of the request (nothing is retried) and is surfaced with the
    adapter's message: as DB_ERROR with status 500 when the call was on the
    contacts table, and as VALIDATION_ERROR with status 422 (message
    'Invalid company' when the adapter's is empty) when it was a call of the
    company find-or-create step.  The code is one of VALIDATION_ERROR,
    NOT_FOUND and DB_ERROR. *)
Theorem adapter_failure_surfaced `{Platform} (auth : auth_result) (c : call)
    (s : store) :
  code_ok (handle auth c s).1
  ∧ ∀ (pre post : list event) (e : event) (m : string),
      log (handle auth c s).2 = log s ++ pre ++ e :: post →
      ev_failure e = Some m →
      post = [] ∧ (handle auth c s).1 = surfaced e m.
Proof.
  assert (Hh : handled s (handle auth c s).2 (handle auth c s).1).
  { destruct (handle auth c s) as [resp s'] eqn:Hrun. simpl.
    destruct c; simpl in Hrun.
    - by eapply GET_list_handled.
    - by eapply GET_one_handled.
    - by eapply POST_handled.
    - by eapply PATCH_handled. }
  destruct Hh as (evs & Hl & Ht & Hc).
  split; [done|]. intros pre post e m Hlog He.
  rewrite Hl in Hlog. apply app_inv_head in Hlog.
  exact (trace_ok_failure_last _ _ _ _ _ _ Ht Hlog He).
Qed.

Lemma adapter_failure_surfaced_witness :
  let s := Sample.with_faults [None; Some "connection lost"] Sample.crm in
  let c := CallPost (Some Sample.ana_renamed) Sample.t0 Sample.t1 in
  log (@handle Sample.platform (AuthOk Sample.org) c s).2
  = [Event Contacts Select None;
     Event Contacts Update (Some "connection lost")]
  ∧ (@handle Sample.platform (AuthOk Sample.org) c s).1
    = RespError 500 "connection lost" DB_ERROR.
Proof.
  intros s c. split; [vm_compute; exact eq_refl|].
  exact (proj2 (proj2 (@adapter_failure_surfaced Sample.platform
                         (AuthOk Sample.org) c s)
                  [Event Contacts Select None] []
                  (Event Contacts Update (Some "connection lost"))
                  "connection lost" eq_refl eq_refl)).
Defined.

(** C3 as stated fails: a failure of the adapter inside the company
    find-or-create step is answered with VALIDATION_ERROR and status 422,
    not with DB_ERROR. *)
Lemma company_failure_is_validation_error :
  let s := Sample.with_faults [Some "connection lost"] Sample.empty in
  let out :=
    @POST Sample.platform (AuthOk Sample.org)
      (Some Sample.new_with_company) Sample.t0 Sample.t1 s in
  out.1 = RespError 422 "connection lost" VALIDATION_ERROR
  ∧ log out.2 = [Event Companies Select (Some "connection lost")]
  ∧ out.1 ≠ RespError 500 "connection lost" DB_ERROR.
Proof. vm_compute. by repeat split. Qed.

(** ** Rows, projections and updates *)

Lemma project_lookup (cols : list string) (r : row) (k : string) :
  k ∈ cols → project cols r !! k = Some (default JNull (r !! k)).
Proof.
  unfold project. induction cols as [|c cols IH]; intros Hin.
  - by apply elem_of_nil in Hin.
  - simpl. destruct (decide (c = k)) as [->|Hne].
    + by rewrite lookup_insert_eq.
    + rewrite lookup_insert_ne by done. apply IH.
      apply elem_of_cons in Hin as [Heq|Hin]; [congruence|done].
Qed.

Lemma found_id (cols : list string) (r : row) :
  "id" ∈ cols →
  default JNull (Some (project cols r) ≫= (.!! "id")) = row_id r.
Proof. intros Hin. simpl. by rewrite project_lookup. Qed.

Lemma eq_col_row_id (r : row) :
  truthy (row_id r) = true → eq_col "id" (row_id r) r = true.
Proof.
  unfold eq_col, row_id. destruct (r !! "id") as [v|] eqn:Hid; simpl.
  - intros _. by apply bool_decide_eq_true.
  - discriminate.
Qed.

Lemma eq_col_id_row_id (v : jsval) (r : row) :
  eq_col "id" v r = true → row_id r = v.
Proof.
  unfold eq_col, row_id. intros Hv%bool_decide_eq_true. by rewrite Hv.
Qed.

(** A filter with a single result singles out one position of the list. *)
Lemma filter_singleton {A : Type} (p : A → bool) (l : list A) (x : A) :
  List.filter p l = [x] →
  ∃ i, l !! i = Some x ∧ p x = true
       ∧ ∀ j y, l !! j = Some y → p y = true → j = i.
Proof.
  revert x. induction l as [|a l IH]; intros x; simpl; [done|].
  destruct (p a) eqn:Hpa.
  - intros [= -> Hnil]. exists 0%nat. repeat split; auto.
    intros [|j] y Hy Hpy; [done|]. simpl in Hy.
    assert (Hin : In y (List.filter p l)).
    { apply filter_In. split; [|done].
      apply list_elem_of_In. by eapply list_elem_of_lookup_2. }
    rewrite Hnil in Hin. destruct Hin.
  - intros Hx. destruct (IH x Hx) as (i & Hi & Hpx & Huniq).
    exists (S i). repeat split; auto.
    intros [|j] y Hy Hpy; simpl in Hy.
    + congruence.
    + f_equal. by eapply Huniq.
Qed.

(** An update whose filter has a single result rewrites that row in place. *)
Lemma apply_update_single (p : row → bool) (payload : row) (l : list row)
    (r0 : row) :
  List.filter p l = [r0] →
  ∃ i, l !! i = Some r0 ∧ apply_update p payload l = <[i := payload ∪ r0]> l.
Proof.
  intros Hf. destruct (filter_singleton p l r0 Hf) as (i & Hi & Hp & Huniq).
  exists i. split; [done|].
  apply list_eq. intros j. unfold apply_update.
  change (List.map ?f l) with (f <$> l). rewrite list_lookup_fmap.
  destruct (decide (j = i)) as [->|Hne].
  - rewrite list_lookup_insert_eq by (by eapply lookup_lt_Some).
    rewrite Hi. simpl. by rewrite Hp.
  - rewrite list_lookup_insert_ne by done.
    destruct (l !! j) as [y|] eqn:Hj; [|done]. simpl.
    destruct (p y) eqn:Hpy; [|done].
    by specialize (Huniq j y Hj Hpy).
Qed.

Lemma length_apply_update (p : row → bool) (payload : row) (l : list row) :
  length (apply_update p payload l) = length l.
Proof. unfold apply_update. apply length_map. Qed.

(** The columns of a payload overwrite, the others stay. *)
Lemma lookup_update_written (payload r : row) (k : string) (v : jsval) :
  payload !! k = Some v → (payload ∪ r) !! k = Some v.
Proof. intros Hk. by apply lookup_union_Some_l. Qed.

Lemma lookup_update_kept (payload r : row) (k : string) :
  payload !! k = None → (payload ∪ r) !! k = r !! k.
Proof. intros Hk. by apply lookup_union_r. Qed.

(** ** The upsert: its successful paths *)

Lemma resolveCompanyIdFromName_faults (organizationId companyName now : string)
    (s s' : store) (res : result jsval) :
  resolveCompanyIdFromName organizationId companyName now s = (res, s') →
  faults s = [] → faults s' = [].
Proof.
  unfold resolveCompanyIdFromName. intros Hrun Hf.
  destruct (normalizeText (Some companyName)) as [name|];
    [|by inversion Hrun; subst].
  destruct (select_maybeSingle _ _ _ s) as [existing s1] eqn:H1.
  apply select_maybeSingle_facts in H1 as (_ & _ & _ & Hf1 & _).
  rewrite Hf in Hf1. simpl in Hf1.
  destruct existing as [data|m]; [|by inversion Hrun; subst].
  destruct (truthy _); [by inversion Hrun; subst|].
  destruct (insert_single _ _ _ s1) as [created s2] eqn:H2.
  apply insert_single_facts in H2 as (Hf2 & _).
  rewrite Hf1 in Hf2.
  by destruct created; inversion Hrun; subst.
Qed.

Lemma client_company_facts `{Platform} (organizationId : string) (data : row)
    (now_company : string) (s s' : store) (res : result jsval) :
  client_company organizationId data now_company s = (res, s') →
  contacts s' = contacts s ∧ (faults s = [] → faults s' = []).
Proof.
  unfold client_company. destruct (negb _ && negb _).
  - intros Hr. split.
    + by apply resolveCompanyIdFromName_trace in Hr as [? _].
    + by eapply resolveCompanyIdFromName_faults.
  - by intros [= <- <-].
Qed.

Lemma next_fault_nil (s : store) : faults s = [] → next_fault s = None.
Proof. unfold next_fault. by intros ->. Qed.

(** The update path, read off a response tagged [updated]. *)
Lemma POST_updated_inv `{Platform} (auth : auth_result) (body : option row)
    (now_company now : string) (s s' : store) (r : option row) :
  POST auth body now_company now s = (RespOne 200 r (Some "updated"), s') →
  ∃ organizationId data clientCompanyId s1 found r0,
    auth = AuthOk organizationId
    ∧ safeParse ContactUpsertSchema body = Some data
    ∧ client_company organizationId data now_company s
      = (Ok clientCompanyId, s1)
    ∧ dedup_matches organizationId data s1 = [found]
    ∧ truthy (row_id found) = true
    ∧ let payload :=
        with_name (body_name data)
          (body_payload organizationId data clientCompanyId now) in
      List.filter (eq_col "id" (row_id found)) (contacts s1) = [r0]
      ∧ r = Some (project CONTACT_COLUMNS (payload ∪ r0))
      ∧ contacts s' =
          apply_update (eq_col "id" (row_id found)) payload (contacts s1).
Proof.
  unfold POST. destruct auth as [st b|org]; [done|].
  destruct (safeParse _ body) as [data|]; [|done].
  destruct (absent _ && absent _); [done|].
  destruct (bool_decide (toIsoDateString (as_string (data !! "birth_date"))
                         = _)); [done|].
  destruct (bool_decide (toIsoDateString
                           (as_string (data !! "last_purchase_date")) = _));
    [done|].
  destruct (bool_decide (toIsoTimestamp
                           (as_string (data !! "last_interaction")) = _));
    [done|].
  destruct (client_company org data now_company s) as [[cid|m] s1] eqn:Hr;
    [|done].
  destruct (select_maybeSingle _ _ _ s1) as [existing s2] eqn:H2.
  apply select_maybeSingle_facts in H2 as (Hc2 & _ & _ & _ & _ & Hres).
  destruct existing as [found|m]; [|done].
  destruct (truthy (default JNull (found ≫= _))) eqn:Hid.
  2:{ destruct (absent (normalizeText _)); [done|].
      by destruct (insert_single _ _ _ s2) as [[?|?] ?]. }
  destruct found as [found|]; [|done].
  destruct Hres as (_ & found0 & Hfilter & ->).
  rewrite found_id in Hid by set_solver.
  rewrite found_id by set_solver.
  destruct (update_one _ _ _ _ _ s2) as [res s3] eqn:H3.
  apply update_one_facts in H3 as (_ & _ & _ & _ & Hupd).
  destruct res as [r'|m]; [|done].
  intros [= <- <-].
  destruct r' as [r'|]; [|by destruct Hupd as (_ & _ & ? & _)].
  destruct Hupd as (_ & r0 & Hf0 & -> & Hrows). simpl in Hf0, Hrows.
  rewrite Hc2 in Hf0, Hrows.
  exists org, data, cid, s1, found0, r0. by repeat split.
Qed.

(** The create path, read off a response tagged [created]. *)
Lemma POST_created_inv `{Platform} (auth : auth_result) (body : option row)
    (now_company now : string) (s s' : store) (st : Z) (r : option row) :
  POST auth body now_company now s = (RespOne st r (Some "created"), s') →
  ∃ organizationId data clientCompanyId s1,
    auth = AuthOk organizationId
    ∧ safeParse ContactUpsertSchema body = Some data
    ∧ client_company organizationId data now_company s
      = (Ok clientCompanyId, s1)
    ∧ match dedup_matches organizationId data s1 with
      | [] => True
      | [found] => truthy (row_id found) = false
      | _ => False
      end
    ∧ absent (body_name data) = false
    ∧ st = 201
    ∧ let new :=
        <["id" := JStr (gen_id (next_id s1))]>
          (insert_payload
             (body_payload organizationId data clientCompanyId now)
             (body_name data) now) in
      r = Some (project CONTACT_COLUMNS new)
      ∧ contacts s' = contacts s1 ++ [new]
      ∧ companies s' = companies s1.
Proof.
  unfold POST. destruct auth as [st' b|org]; [done|].
  destruct (safeParse _ body) as [data|]; [|done].
  destruct (absent _ && absent _); [done|].
  destruct (bool_decide (toIsoDateString (as_string (data !! "birth_date"))
                         = _)); [done|].
  destruct (bool_decide (toIsoDateString
                           (as_string (data !! "last_purchase_date")) = _));
    [done|].
  destruct (bool_decide (toIsoTimestamp
                           (as_string (data !! "last_interaction")) = _));
    [done|].
  destruct (client_company org data now_company s) as [[cid|m] s1] eqn:Hr;
    [|done].
  destruct (select_maybeSingle _ _ _ s1) as [existing s2] eqn:H2.
  apply select_maybeSingle_facts in H2 as (Hc2 & Hk2 & Hn2 & _ & _ & Hres).
  destruct existing as [found|m]; [|done].
  destruct (truthy (default JNull (found ≫= _))) eqn:Hid.
  { by destruct (update_one _ _ _ _ _ s2) as [[?|?] ?]. }
  destruct (absent (normalizeText _)) eqn:Hname; [done|].
  destruct (insert_single _ _ _ s2) as [res s3] eqn:H3.
  apply insert_single_facts in H3 as (_ & _ & Hins).
  destruct res as [r'|m]; [|done].
  intros [= <- <- <-].
  destruct Hins as (_ & -> & Hrows & Hother & _).
  simpl in Hrows. specialize (Hother Companies). simpl in Hother.
  exists org, data, cid, s1. repeat split; auto.
  - unfold dedup_matches, body_email, body_phone.
    destruct found as [found|].
    + destruct Hres as (_ & found0 & Hfilter & ->). simpl in Hfilter.
      rewrite Hfilter. by rewrite found_id in Hid by set_solver.
    + destruct Hres as (_ & Hfilter). simpl in Hfilter. by rewrite Hfilter.
  - by rewrite Hn2.
  - by rewrite Hrows, Hc2, Hn2.
  - rewrite Hother, ?Hk2; [done|discriminate].
Qed.

Lemma safeParse_Some `{Platform} (schema : gmap string (ftype * bool))
    (body : option row) (data : row) :
  safeParse schema body = Some data →
  body = Some data
  ∧ ∀ k v, data !! k = Some v →
      ∃ t nullable, schema !! k = Some (t, nullable)
                    ∧ value_ok t nullable v = true.
Proof.
  unfold safeParse. destruct body as [d|]; [|done].
  destruct (forallb _ _) eqn:Hall; [|done]. intros [= ->].
  split; [done|]. intros k v Hkv.
  rewrite forallb_forall in Hall.
  specialize (Hall (k, v)). unfold field_ok in Hall. simpl in Hall.
  destruct (schema !! k) as [[t nullable]|].
  - exists t, nullable. split; [done|]. apply Hall.
    apply list_elem_of_In. by apply elem_of_map_to_list.
  - assert (false = true); [|done]. apply Hall.
    apply list_elem_of_In. by apply elem_of_map_to_list.
Qed.

(** C10. On the create path the inserted contact has status 'ACTIVE' and
    stage 'LEAD' whatever the body supplied for them; on the update path the
    normalized status and stage of the body are what is written. *)
Theorem created_contact_is_active_lead `{Platform} (auth : auth_result)
    (body : option row) (now_company now : string) (s s' : store) (st : Z)
    (r : option row) :
  (POST auth body now_company now s = (RespOne st r (Some "created"), s') →
   ∃ new, contacts s' = contacts s ++ [new]
          ∧ r = Some (project CONTACT_COLUMNS new)
          ∧ new !! "status" = Some (JStr "ACTIVE")
          ∧ new !! "stage" = Some (JStr "LEAD"))
  ∧ (POST auth body now_company now s = (RespOne 200 r (Some "updated"), s') →
     ∃ data i old new,
       body = Some data ∧ contacts s !! i = Some old
       ∧ contacts s' = <[i := new]> (contacts s)
       ∧ r = Some (project CONTACT_COLUMNS new)
       ∧ new !! "status"
         = Some (of_nullable (normalizeText (as_string (data !! "status"))))
       ∧ new !! "stage"
         = Some (of_nullable (normalizeText (as_string (data !! "stage"))))).
Proof.
  split.
  - intros Hrun.
    apply POST_created_inv in Hrun
      as (org & data & cid & s1 & _ & _ & Hcc & _ & _ & _ & Hr & Hrows & _).
    apply client_company_facts in Hcc as [Hc _].
    eexists. rewrite <- Hc. split; [exact Hrows|]. split; [exact Hr|].
    unfold insert_payload. split.
    + rewrite !lookup_insert_ne by done. apply lookup_insert_eq.
    + rewrite lookup_insert_ne by done. apply lookup_insert_eq.
  - intros Hrun.
    apply POST_updated_inv in Hrun
      as (org & data & cid & s1 & found & r0 & _ & Hparse & Hcc & _ & _
          & Hf0 & Hr & Hrows).
    apply safeParse_Some in Hparse as [-> _].
    apply client_company_facts in Hcc as [Hc _]. rewrite Hc in Hf0, Hrows.
    destruct (apply_update_single _
                (with_name (body_name data) (body_payload org data cid now))
                _ _ Hf0) as (i & Hi & Hupd).
    exists data, i, r0, (with_name (body_name data)
                           (body_payload org data cid now) ∪ r0).
    repeat split; auto; try congruence.
    all: apply lookup_update_written.
    all: unfold with_name, body_payload, upsert_payload, with_total_value.
    all: destruct (negb (absent (body_name data)));
      destruct (data !! "total_value") as [[]|]; reflexivity.
Qed.

Lemma created_contact_is_active_lead_witness :
  ∃ new,
    contacts
      (@POST Sample.platform (AuthOk Sample.org)
         (Some Sample.new_lead_with_status) Sample.t0 Sample.t1 Sample.crm).2
    = contacts Sample.crm ++ [new]
    ∧ new !! "status" = Some (JStr "ACTIVE")
    ∧ new !! "stage" = Some (JStr "LEAD").
Proof.
  destruct (@POST Sample.platform (AuthOk Sample.org)
              (Some Sample.new_lead_with_status) Sample.t0 Sample.t1
              Sample.crm) as [resp s'] eqn:Hrun.
  assert (Hresp : ∃ r, resp = RespOne 201 r (Some "created")).
  { apply (f_equal fst) in Hrun. vm_compute in Hrun. subst resp. eauto. }
  destruct Hresp as [r ->].
  destruct (proj1 (@created_contact_is_active_lead Sample.platform _ _ _ _
                     _ _ 201 r) Hrun) as (new & H1 & _ & H2 & H3).
  exists new. by repeat split.
Defined.

(** C9 as stated fails: with [client_company_id] omitted and a company name
    given, the update path writes the resolved company's id, not null. *)
Lemma omitted_company_id_is_resolved :
  let out :=
    @POST Sample.platform (AuthOk Sample.org) (Some Sample.ana_company_only)
      Sample.t0 Sample.t1 Sample.crm in
  Sample.ana_company_only !! "client_company_id" = None
  ∧ (∃ r, out.1 = RespOne 200 (Some r) (Some "updated")
          ∧ r !! "id" = Some (JStr "c-ana")
          ∧ r !! "client_company_id" = Some (JStr "k-abc"))
  ∧ (contacts out.2 !! 0%nat) ≫= (.!! "client_company_id")
    = Some (JStr "k-abc").
Proof.
  split; [reflexivity|]. split; [|by vm_compute].
  eexists. split; [by vm_compute|]. split; by vm_compute.
Qed.

(** C9 (as amended). On the update path the matched contact is overwritten,
    not merged: each of email, phone, role, company_name, avatar, status,
    stage, source, notes, birth_date, last_interaction and
    last_purchase_date that the body omits becomes null;
    [client_company_id] becomes the company reference computed for the
    request, which is null when both it and company_name are omitted and the
    id resolved from the company name when only it is omitted; name and
    total_value keep their stored values when omitted. *)
Theorem upsert_update_overwrites `{Platform} (auth : auth_result)
    (body : option row) (now_company now : string) (s s' : store)
    (r : option row) :
  POST auth body now_company now s = (RespOne 200 r (Some "updated"), s') →
  ∃ organizationId data clientCompanyId s1 i old new,
    auth = AuthOk organizationId ∧ body = Some data
    ∧ contacts s !! i = Some old
    ∧ contacts s' = <[i := new]> (contacts s)
    ∧ r = Some (project CONTACT_COLUMNS new)
    ∧ (∀ f, f ∈ NULLED_WHEN_OMITTED → data !! f = None →
            new !! f = Some JNull)
    ∧ client_company organizationId data now_company s
      = (Ok clientCompanyId, s1)
    ∧ new !! "client_company_id" = Some clientCompanyId
    ∧ (data !! "client_company_id" = None → data !! "company_name" = None →
       clientCompanyId = JNull)
    ∧ (data !! "name" = None → new !! "name" = old !! "name")
    ∧ (data !! "total_value" = None →
       new !! "total_value" = old !! "total_value").
Proof.
  intros Hrun.
  apply POST_updated_inv in Hrun
    as (org & data & cid & s1 & found & r0 & -> & Hparse & Hcc & _ & _
        & Hf0 & Hr & Hrows).
  apply safeParse_Some in Hparse as [-> _].
  pose proof Hcc as Hcc'.
  apply client_company_facts in Hcc' as [Hc _]. rewrite Hc in Hf0, Hrows.
  destruct (apply_update_single _
              (with_name (body_name data) (body_payload org data cid now))
              _ _ Hf0) as (i & Hi & Hupd).
  exists org, data, cid, s1, i, r0,
    (with_name (body_name data) (body_payload org data cid now) ∪ r0).
  split; [done|]. split; [done|]. split; [done|].
  split; [congruence|]. split; [done|]. split; [|split; [done|split]].
  - intros f Hf Hd. apply lookup_update_written.
    unfold NULLED_WHEN_OMITTED in Hf.
    repeat (apply elem_of_cons in Hf as [->|Hf]);
      [..|by apply elem_of_nil in Hf].
    all: unfold with_name, body_payload, upsert_payload, with_total_value,
           body_email, body_phone.
    all: destruct (negb (absent (body_name data)));
      destruct (data !! "total_value") as [[]|].
    all: rewrite ?lookup_insert_ne by done.
    all: rewrite Hd; reflexivity.
  - apply lookup_update_written.
    unfold with_name, body_payload, upsert_payload, with_total_value.
    destruct (negb (absent (body_name data)));
      destruct (data !! "total_value") as [[]|]; reflexivity.
  - split; [|split].
    + intros Hid Hname. unfold client_company in Hcc.
      rewrite Hid, Hname in Hcc. simpl in Hcc. congruence.
    + intros Hname. apply lookup_update_kept.
      unfold with_name, body_name. rewrite Hname. simpl.
      unfold body_payload, upsert_payload, with_total_value.
      destruct (data !! "total_value") as [[]|]; reflexivity.
    + intros Htv. apply lookup_update_kept.
      unfold with_name, body_payload, upsert_payload, with_total_value.
      rewrite Htv.
      destruct (negb (absent (body_name data))); reflexivity.
Qed.

Lemma upsert_update_overwrites_witness :
  let out :=
    @POST Sample.platform (AuthOk Sample.org) (Some Sample.ana_renamed)
      Sample.t0 Sample.t1 Sample.crm in
  out = (RespOne 200 (response_data out.1) (Some "updated"), out.2)
  ∧ ∃ organizationId data clientCompanyId s1 i old new,
      AuthOk Sample.org = AuthOk organizationId
      ∧ Some Sample.ana_renamed = Some data
      ∧ contacts Sample.crm !! i = Some old
      ∧ contacts out.2 = <[i := new]> (contacts Sample.crm)
      ∧ response_data out.1 = Some (project CONTACT_COLUMNS new)
      ∧ (∀ f, f ∈ NULLED_WHEN_OMITTED → data !! f = None →
              new !! f = Some JNull)
      ∧ @client_company Sample.platform organizationId data Sample.t0
          Sample.crm = (Ok clientCompanyId, s1)
      ∧ new !! "client_company_id" = Some clientCompanyId
      ∧ (data !! "client_company_id" = None →
         data !! "company_name" = None → clientCompanyId = JNull)
      ∧ (data !! "name" = None → new !! "name" = old !! "name")
      ∧ (data !! "total_value" = None →
         new !! "total_value" = old !! "total_value").
Proof.
  intros out.
  assert (Hrun : out
                 = (RespOne 200 (response_data out.1) (Some "updated"), out.2))
    by (vm_compute; reflexivity).
  split; [exact Hrun|].
  exact (@upsert_update_overwrites Sample.platform _ _ _ _ _ _ _ Hrun).
Defined.

(** ** The upsert: one create or one update *)

Lemma resolveCompanyIdFromName_companies
    (organizationId companyName now : string) (s s' : store)
    (res : result jsval) :
  resolveCompanyIdFromName organizationId companyName now s = (res, s') →
  companies s' = companies s
  ∨ ∃ name id,
      normalizeText (Some companyName) = Some name
      ∧ res = Ok (JStr id)
      ∧ companies s' =
          companies s
          ++ [<["id" := JStr id]>
                (list_to_map
                   [("organization_id", JStr organizationId);
                    ("name", JStr name);
                    ("created_at", JStr now); ("updated_at", JStr now)])].
Proof.
  unfold resolveCompanyIdFromName.
  destruct (normalizeText (Some companyName)) as [name|];
    [|intros [= <- <-]; by left].
  destruct (select_maybeSingle _ _ _ s) as [existing s1] eqn:H1.
  apply select_maybeSingle_facts in H1 as (_ & Hk1 & Hn1 & _).
  destruct existing as [data|m]; [|intros [= <- <-]; by left].
  destruct (truthy _); [intros [= <- <-]; by left|].
  destruct (insert_single _ _ _ s1) as [created s2] eqn:H2.
  apply insert_single_facts in H2 as (_ & _ & Hres).
  destruct created as [r|m]; intros [= <- <-].
  - destruct Hres as (_ & -> & Hrows & _). simpl in Hrows.
    right. exists name, (gen_id (next_id s1)). split; [done|].
    split; [|by rewrite Hrows, Hk1].
    reflexivity.
  - destruct Hres as (_ & _ & Hk2 & _). left. congruence.
Qed.

Lemma well_keyed_lookup_by_id (l : list row) (old : row) :
  well_keyed l → old ∈ l →
  truthy (row_id old) = true
  ∧ List.filter (eq_col "id" (row_id old)) l = [old].
Proof.
  intros [Hnd Hall] Hin. rewrite Forall_forall in Hall.
  split; [by apply Hall|].
  induction l as [|a l IH]; [by apply elem_of_nil in Hin|].
  simpl in Hnd. apply NoDup_cons in Hnd as [Hna Hnd].
  assert (Hrest : ∀ r, r ∈ l → row_id r = row_id a → False).
  { intros r Hr Heq. apply Hna. rewrite <- Heq.
    change (List.map row_id l) with (row_id <$> l).
    by apply list_elem_of_fmap_2. }
  simpl. destruct (eq_col "id" (row_id old) a) eqn:Hpa.
  - apply eq_col_id_row_id in Hpa.
    assert (old = a) as ->.
    { apply elem_of_cons in Hin as [?|Hin]; [done|].
      exfalso. by apply (Hrest old). }
    f_equal.
    destruct (List.filter _ l) as [|r rs] eqn:Hf; [done|exfalso].
    assert (Hr : In r (List.filter (eq_col "id" (row_id a)) l))
      by (rewrite Hf; by left).
    apply filter_In in Hr as [Hr Hpr].
    apply eq_col_id_row_id in Hpr. apply (Hrest r); [|done].
    by apply list_elem_of_In.
  - apply IH; [done|by intros r Hr; apply Hall; right|].
    apply elem_of_cons in Hin as [->|Hin]; [|done].
    rewrite eq_col_row_id in Hpa; [done|]. apply Hall. by left.
Qed.

Lemma normalizeEmail_truthy (v : option string) (e : string) :
  normalizeEmail v = Some e → absent (Some e) = false.
Proof.
  unfold normalizeEmail. destruct v as [s|]; [|done].
  simpl. by destruct (Js.falsy (Js.toLowerCase (Js.trim s))) eqn:Hf;
    intros [= <-].
Qed.

(** What a request does to the two tables, by its response. *)
Lemma POST_store_effect `{Platform} (auth : auth_result) (body : option row)
    (now_company now : string) (s s' : store) (resp : response) :
  POST auth body now_company now s = (resp, s') →
  (companies s' = companies s ∨ ∃ new, companies s' = companies s ++ [new])
  ∧ (contacts s' = contacts s
     ∨ (∃ r, resp = RespOne 200 r (Some "updated"))
     ∨ (∃ r, resp = RespOne 201 r (Some "created"))).
Proof.
  unfold POST. destruct auth as [st b|org]; [intros [= <- <-]; auto|].
  destruct (safeParse _ body) as [data|]; [|intros [= <- <-]; auto].
  destruct (absent _ && absent _); [intros [= <- <-]; auto|].
  destruct (bool_decide (toIsoDateString (as_string (data !! "birth_date"))
                         = _)); [intros [= <- <-]; auto|].
  destruct (bool_decide (toIsoDateString
                           (as_string (data !! "last_purchase_date")) = _));
    [intros [= <- <-]; auto|].
  destruct (bool_decide (toIsoTimestamp
                           (as_string (data !! "last_interaction")) = _));
    [intros [= <- <-]; auto|].
  destruct (client_company org data now_company s) as [resolved s1] eqn:Hr.
  assert (Hk : companies s1 = companies s
               ∨ ∃ new, companies s1 = companies s ++ [new]).
  { unfold client_company in Hr. destruct (negb _ && negb _) in Hr.
    - apply resolveCompanyIdFromName_companies in Hr
        as [?|(? & ? & _ & _ & ?)]; eauto.
    - inversion Hr; subst. by left. }
  apply client_company_facts in Hr as [Hc _].
  destruct resolved as [cid|m]; [|intros [= <- <-]; auto].
  destruct (select_maybeSingle _ _ _ s1) as [existing s2] eqn:H2.
  apply select_maybeSingle_facts in H2 as (Hc2 & Hk2 & _).
  rewrite <- Hc2 in Hc. rewrite <- Hk2 in Hk.
  destruct existing as [found|m]; [|intros [= <- <-]; auto].
  destruct (truthy (default JNull (found ≫= _))).
  - destruct (update_one _ _ _ _ _ s2) as [res s3] eqn:H3.
    apply update_one_facts in H3 as (_ & _ & _ & Hother & Hres).
    specialize (Hother Companies). simpl in Hother.
    rewrite <- Hother in Hk by done.
    destruct res as [r|m]; intros [= <- <-]; split; eauto.
    destruct Hres as [Hrows _]. simpl in Hrows. left. congruence.
  - destruct (absent (normalizeText _)); [intros [= <- <-]; auto|].
    destruct (insert_single _ _ _ s2) as [res s3] eqn:H3.
    apply insert_single_facts in H3 as (_ & _ & Hres).
    destruct res as [r|m]; intros [= <- <-].
    + destruct Hres as (_ & _ & _ & Hother & _).
      specialize (Hother Companies). simpl in Hother.
      rewrite <- Hother in Hk by done. split; eauto.
    + destruct Hres as (_ & Hc3 & Hk3 & _). rewrite <- Hk3 in Hk.
      split; [done|]. left. congruence.
Qed.

(** C2 as stated fails: when the email matches one contact and the phone
    another, the request gets past validation and neither creates nor
    updates; the single-row lookup reports an error, answered with status
    500. *)
Lemma ambiguous_upsert_does_neither :
  let out :=
    @POST Sample.platform (AuthOk Sample.org) (Some Sample.ana_and_bia)
      Sample.t0 Sample.t1 Sample.crm in
  @dedup_matches Sample.platform Sample.org Sample.ana_and_bia Sample.crm
  = [Sample.ana; Sample.bia]
  ∧ is_validation_error out.1 = false
  ∧ out.1 = RespError 500 multi_row_message DB_ERROR
  ∧ contacts out.2 = contacts Sample.crm.
Proof. repeat split; vm_compute; reflexivity. Qed.

(** C2 (as amended). For a request past validation on which the adapter
    injects no fault, over contacts keyed by id, and whose email and phone,
    when both are given, hold no character that the filter syntax of the
    REST layer reserves (they are spliced into the lookup's filter string):
    when exactly one non-deleted contact of the tenant matches the
    normalized email or phone, that record is updated in place, its id and
    created timestamp kept, and the response is 200 with action 'updated';
    when none matches, one contact is appended and the response is 201 with
    action 'created'; when more than one matches, the lookup's error is
    answered with 500 DB_ERROR and the contacts are left as they were.  In
    each of the three cases the company step, which runs before the lookup,
    has left the companies as they were or appended one.  Whatever the
    adapter does, an upsert with the email of a contact that an upsert has
    just created, under the same condition on its email and phone, does not
    add a contact. *)
Theorem upsert_creates_or_updates `{Platform} :
  (∀ (organizationId : string) (data : row) (now_company now : string)
     (s s' : store) (resp : response),
     faults s = [] → well_keyed (contacts s) →
     or_safe (body_email data) (body_phone data) = true →
     POST (AuthOk organizationId) (Some data) now_company now s = (resp, s') →
     is_validation_error resp = false →
     (match dedup_matches organizationId data s with
     | [] =>
         ∃ new,
           resp = RespOne 201 (Some (project CONTACT_COLUMNS new))
                    (Some "created")
           ∧ contacts s' = contacts s ++ [new]
     | [old] =>
         ∃ i new,
           contacts s !! i = Some old
           ∧ contacts s' = <[i := new]> (contacts s)
           ∧ new !! "id" = old !! "id"
           ∧ new !! "created_at" = old !! "created_at"
           ∧ resp = RespOne 200 (Some (project CONTACT_COLUMNS new))
                      (Some "updated")
     | _ =>
         resp = RespError 500 multi_row_message DB_ERROR
         ∧ contacts s' = contacts s
     end)
     ∧ (companies s' = companies s
        ∨ ∃ company, companies s' = companies s ++ [company]))
  ∧ (∀ (organizationId : string) (data1 data2 : row)
       (now_company1 now1 now_company2 now2 : string) (s s1 s2 : store)
       (r1 : option row) (resp2 : response) (email : string),
       POST (AuthOk organizationId) (Some data1) now_company1 now1 s
       = (RespOne 201 r1 (Some "created"), s1) →
       body_email data1 = Some email →
       body_email data2 = Some email →
       or_safe (body_email data2) (body_phone data2) = true →
       POST (AuthOk organizationId) (Some data2) now_company2 now2 s1
       = (resp2, s2) →
       length (contacts s2) = length (contacts s1)).
Proof.
  split.
  - intros org data nc now s s' resp Hfaults Hkeys _ Hrun Hpast.
    split; [|by destruct (POST_store_effect _ _ _ _ _ _ _ Hrun) as [? _]].
    revert Hrun Hpast.
    unfold POST, dedup_matches, body_email, body_phone.
    destruct (safeParse _ (Some data)) as [data'|] eqn:Hparse;
      [|by intros [= <- <-]].
    apply safeParse_Some in Hparse as [[= <-] _].
    destruct (absent _ && absent _); [by intros [= <- <-]|].
    destruct (bool_decide (toIsoDateString (as_string (data !! "birth_date"))
                           = _)); [by intros [= <- <-]|].
    destruct (bool_decide (toIsoDateString
                             (as_string (data !! "last_purchase_date")) = _));
      [by intros [= <- <-]|].
    destruct (bool_decide (toIsoTimestamp
                             (as_string (data !! "last_interaction")) = _));
      [by intros [= <- <-]|].
    destruct (client_company org data nc s) as [[cid|m] s1] eqn:Hr;
      [|by intros [= <- <-]].
    apply client_company_facts in Hr as [Hc Hf1]. specialize (Hf1 Hfaults).
    destruct (select_maybeSingle _ _ _ s1) as [existing s2] eqn:H2.
    apply select_maybeSingle_facts in H2 as (Hc2 & _ & _ & Hf2 & _ & Hres).
    rewrite Hf1 in Hf2. simpl in Hf2, Hres. rewrite Hc in Hres.
    rewrite (next_fault_nil s1 Hf1) in Hres.
    destruct existing as [[found|]|m].
    + (* one match: the update path *)
      destruct Hres as (_ & old & Hfilter & ->). rewrite Hfilter.
      rewrite found_id by set_solver.
      assert (Hin : old ∈ contacts s).
      { apply list_elem_of_In.
        eapply (proj1 (filter_In _ old (contacts s))).
        rewrite Hfilter. by left. }
      destruct (well_keyed_lookup_by_id _ old Hkeys Hin) as [Hid Hone].
      rewrite Hid.
      destruct (update_one _ _ _ _ _ s2) as [res s3] eqn:H3.
      apply update_one_facts in H3 as (_ & _ & _ & _ & Hupd).
      simpl in Hupd. rewrite (next_fault_nil s2 Hf2), Hc2, Hc, Hone in Hupd.
      destruct res as [[r|]|m].
      * destruct Hupd as (_ & r0 & [= <-] & -> & Hrows).
        intros [= <- <-] _.
        destruct (apply_update_single _
                    (with_name (normalizeText (as_string (data !! "name")))
                       (upsert_payload org data
                          (normalizeEmail (as_string (data !! "email")))
                          (normalizePhone (as_string (data !! "phone")))
                          (normalizeText (as_string (data !! "company_name")))
                          cid
                          (toIsoDateString (as_string (data !! "birth_date")))
                          (toIsoTimestamp
                             (as_string (data !! "last_interaction")))
                          (toIsoDateString
                             (as_string (data !! "last_purchase_date")))
                          now))
                    _ _ Hone) as (i & Hi & Hupd).
        eexists i, _. split; [exact Hi|]. split; [by rewrite Hrows|].
        split; [|split; [|reflexivity]].
        all: apply lookup_update_kept.
        all: unfold with_name, upsert_payload, with_total_value.
        all: destruct (negb (absent _));
          destruct (data !! "total_value") as [[]|]; reflexivity.
      * by destruct Hupd as (_ & _ & ? & _).
      * destruct Hupd as [_ [?|(_ & _ & ?)]]; done.
    + (* no match: the create path *)
      destruct Hres as [_ Hfilter]. rewrite Hfilter. simpl.
      destruct (absent (normalizeText _)); [by intros [= <- <-]|].
      destruct (insert_single _ _ _ s2) as [res s3] eqn:H3.
      apply insert_single_facts in H3 as (_ & _ & Hins).
      rewrite (next_fault_nil s2 Hf2) in Hins.
      destruct res as [r|m]; [|by destruct Hins].
      destruct Hins as (_ & -> & Hrows & _). simpl in Hrows.
      intros [= <- <-] _. eexists. split; [reflexivity|].
      by rewrite Hrows, Hc2, Hc.
    + (* several matches *)
      destruct Hres as [?|(_ & -> & Hlen)]; [done|].
      intros [= <- <-] _.
      destruct (List.filter _ (contacts s)) as [|a [|b l]];
        [simpl in Hlen; lia..|].
      split; [done|congruence].
  - intros org data1 data2 nc1 now1 nc2 now2 s s1 s2 r1 resp2 email
      Hfirst He1 He2 _ Hsecond.
    apply POST_created_inv in Hfirst
      as (org' & d1 & cid & s0 & [= <-] & Hparse & _ & _ & _ & _ & _
          & Hrows & _).
    apply safeParse_Some in Hparse as [[= <-] _].
    pose proof (POST_store_effect _ _ _ _ _ _ _ Hsecond)
      as [_ [Hsame|[[r Hupd]|[r Hcre]]]].
    + by rewrite Hsame.
    + subst resp2.
      apply POST_updated_inv in Hsecond
        as (? & ? & ? & s1' & ? & ? & _ & _ & Hcc & _ & _ & _ & _ & Hrows2).
      apply client_company_facts in Hcc as [Hc _].
      by rewrite Hrows2, length_apply_update, Hc.
    + exfalso. subst resp2.
      apply POST_created_inv in Hsecond
        as (org' & d2 & cid2 & s1' & [= <-] & Hparse & Hcc & Hnone & _).
      apply safeParse_Some in Hparse as [[= <-] _].
      apply client_company_facts in Hcc as [Hc _].
      unfold dedup_matches in Hnone. rewrite Hc, Hrows in Hnone.
      rewrite List.filter_app in Hnone. simpl in Hnone.
      set (new := <["id" := JStr (gen_id (next_id s0))]> _) in Hnone.
      assert (Hmatch : dedup_filter org (body_email data2) (body_phone data2)
                         new = true).
      { unfold dedup_filter. rewrite He2.
        rewrite (normalizeEmail_truthy _ _ He2). simpl.
        assert (Hemail : eq_col "email" (JStr email) new = true).
        { apply bool_decide_eq_true. subst new.
          unfold insert_payload, body_payload, upsert_payload,
            with_total_value.
          rewrite He1.
          destruct (data1 !! "total_value") as [[]|]; reflexivity. }
        assert (Horg : eq_col "organization_id" (JStr org) new = true).
        { apply bool_decide_eq_true. subst new.
          unfold insert_payload, body_payload, upsert_payload,
            with_total_value.
          destruct (data1 !! "total_value") as [[]|]; reflexivity. }
        assert (Hdel : is_null "deleted_at" new = true).
        { unfold is_null. subst new.
          unfold insert_payload, body_payload, upsert_payload,
            with_total_value.
          destruct (data1 !! "total_value") as [[]|]; reflexivity. }
        rewrite Horg, Hdel, Hemail. simpl.
        by destruct (negb (absent (body_phone data2))). }
      rewrite Hmatch in Hnone.
      destruct (List.filter _ (contacts s0)) as [|a [|b l]]; simpl in Hnone;
        [|done..].
      assert (Hid : row_id new = JStr (gen_id (next_id s0)))
        by (unfold row_id; subst new; by rewrite lookup_insert_eq).
      by rewrite Hid in Hnone.
Qed.

Lemma sample_crm_well_keyed : well_keyed (contacts Sample.crm).
Proof.
  split.
  - refine (bool_decide_unpack _ _). vm_compute. exact I.
  - repeat constructor.
Defined.

Lemma upsert_creates_or_updates_witness :
  let out :=
    @POST Sample.platform (AuthOk Sample.org) (Some Sample.ana_renamed)
      Sample.t0 Sample.t1 Sample.crm in
  faults Sample.crm = []
  ∧ or_safe (body_email Sample.ana_renamed)
      (@body_phone Sample.platform Sample.ana_renamed) = true
  ∧ is_validation_error out.1 = false
  ∧ ∃ i new,
      contacts Sample.crm !! i = Some Sample.ana
      ∧ contacts out.2 = <[i := new]> (contacts Sample.crm)
      ∧ new !! "id" = Sample.ana !! "id"
      ∧ new !! "created_at" = Sample.ana !! "created_at"
      ∧ out.1 = RespOne 200 (Some (project CONTACT_COLUMNS new))
                  (Some "updated").
Proof.
  intros out.
  assert (Hv : is_validation_error out.1 = false)
    by (vm_compute; reflexivity).
  split; [reflexivity|]. split; [reflexivity|]. split; [exact Hv|].
  destruct (proj1 (@upsert_creates_or_updates Sample.platform)
              Sample.org Sample.ana_renamed Sample.t0 Sample.t1
              Sample.crm out.2 out.1 eq_refl sample_crm_well_keyed
              eq_refl (surjective_pairing out) Hv) as [Hw _].
  assert (Hd : @dedup_matches Sample.platform Sample.org Sample.ana_renamed
                 Sample.crm = [Sample.ana])
    by (vm_compute; exact eq_refl).
  rewrite Hd in Hw. exact Hw.
Defined.

(** ** Date and timestamp validation *)

Lemma slice0_length (n : nat) (s : string) :
  (String.length (Js.slice0 n s) ≤ n)%nat.
Proof.
  revert s. induction n as [|n IH]; intros [|c s]; simpl; try lia.
  specialize (IH s). lia.
Qed.

Lemma is_ymd_length (s : string) : is_ymd s = true → String.length s = 10%nat.
Proof.
  unfold is_ymd.
  do 11 (destruct s as [|? s]; simpl; try discriminate). done.
Qed.

(** The date-only helper answers with the sentinel exactly on the
    unparsable values. *)
Lemma toIsoDateString_invalid `{Platform} (v : option jsval) :
  toIsoDateString (as_string v) = Some INVALID ↔ unparsable_date v = true.
Proof.
  unfold toIsoDateString, unparsable_date.
  destruct (as_string v) as [s|]; [|done]. simpl.
  destruct (Js.falsy (Js.trim s)); [done|]. simpl.
  destruct (is_ymd (Js.trim s)) eqn:Hymd; simpl.
  - split; [|done]. intros [= Heq]. rewrite Heq in Hymd. discriminate.
  - destruct (date_parse (Js.trim s)) as [d|] eqn:Hd.
    + split.
      * intros Heq.
        assert (Heq' : Js.slice0 10 (toISOString d) = INVALID)
          by (injection Heq as Heq; exact Heq).
        pose proof (slice0_length 10 (toISOString d)) as Hl.
        rewrite Heq' in Hl. simpl in Hl. lia.
      * intros Hb%bool_decide_eq_true. discriminate.
    + split; [|done]. intros _. by apply bool_decide_eq_true.
Qed.

Lemma toIsoTimestamp_invalid `{Platform} (v : option jsval) :
  unparsable_timestamp v = true → toIsoTimestamp (as_string v) = Some INVALID.
Proof.
  unfold toIsoTimestamp, unparsable_timestamp.
  destruct (as_string v) as [s|]; [|done]. simpl.
  destruct (Js.falsy (Js.trim s)); [done|]. simpl.
  intros Hb%bool_decide_eq_true. by rewrite Hb.
Qed.

Lemma bool_decide_invalid_date `{Platform} (v : option jsval) :
  bool_decide (toIsoDateString (as_string v) = Some INVALID)
  = unparsable_date v.
Proof.
  destruct (unparsable_date v) eqn:Hu.
  - apply bool_decide_eq_true. by apply toIsoDateString_invalid.
  - apply bool_decide_eq_false. rewrite toIsoDateString_invalid. congruence.
Qed.

(** The value a date block computes is the sentinel exactly when the
    conversion of the field answers with it. *)
Lemma date_block_sentinel (convert : option string → option string)
    (v : jsval) :
  convert None ≠ Some INVALID →
  bool_decide
    (match v with
     | JNull => JNull
     | _ => of_nullable (convert (as_string (Some v)))
     end = JStr INVALID)
  = bool_decide (convert (as_string (Some v)) = Some INVALID).
Proof.
  intros Hnone. apply bool_decide_ext.
  destruct v as [|b|n|s]; simpl.
  1-3: destruct (convert None) eqn:E; simpl; split; congruence.
  destruct (convert (Some s)) eqn:E; simpl; split; congruence.
Qed.

Lemma date_block_date `{Platform} (data : row) (k message : string)
    (updates : row) :
  date_block data k toIsoDateString message updates
  = if unparsable_date (data !! k)
    then inl (RespError 422 message VALIDATION_ERROR)
    else inr (match data !! k with
              | Some v =>
                  <[k := match v with
                         | JNull => JNull
                         | _ => of_nullable
                                  (toIsoDateString (as_string (Some v)))
                         end]> updates
              | None => updates
              end).
Proof.
  unfold date_block. destruct (data !! k) as [v|] eqn:Hk; [|done].
  rewrite date_block_sentinel by done.
  by rewrite bool_decide_invalid_date.
Qed.

Lemma date_block_timestamp `{Platform} (data : row) (k message : string)
    (updates : row) :
  unparsable_timestamp (data !! k) = true →
  date_block data k toIsoTimestamp message updates
  = inl (RespError 422 message VALIDATION_ERROR).
Proof.
  intros Hu. unfold date_block.
  destruct (data !! k) as [v|] eqn:Hk; [|done].
  rewrite date_block_sentinel by done.
  apply toIsoTimestamp_invalid in Hu.
  by rewrite bool_decide_eq_true_2.
Qed.

(** C6 as stated fails: an unparsable last_purchase_date is not named when
    birth_date is unparsable too, and no date field is named when the
    request has neither email nor phone. *)
Lemma later_bad_date_is_not_named :
  @unparsable_date Sample.platform
    (Sample.two_bad_dates !! "last_purchase_date") = true
  ∧ (@POST Sample.platform (AuthOk Sample.org) (Some Sample.two_bad_dates)
       Sample.t0 Sample.t1 Sample.crm).1
    = RespError 422 "Invalid birth_date" VALIDATION_ERROR
  ∧ (@POST Sample.platform (AuthOk Sample.org)
       (Some (delete "email" Sample.two_bad_dates))
       Sample.t0 Sample.t1 Sample.crm).1
    = RespError 422 "Provide email or phone" VALIDATION_ERROR.
Proof. repeat split; vm_compute; reflexivity. Qed.

(** C6 (as amended). On a request that passed the earlier checks (the
    schema and, for the upsert, email-or-phone; the id and the schema for
    the partial update), the first of birth_date, last_purchase_date and
    last_interaction, in this order, whose value is an unparsable string (not
    blank, rejected by [Date], and for the two date-only fields not of the
    form YYYY-MM-DD) makes the handler answer 422 VALIDATION_ERROR with
    'Invalid ' and the name of that field, the store untouched. *)
Theorem invalid_date_names_first_field `{Platform} :
  (∀ (organizationId : string) (body : option row) (data : row)
     (now_company now : string) (s : store),
     safeParse ContactUpsertSchema body = Some data →
     absent (body_email data) && absent (body_phone data) = false →
     (unparsable_date (data !! "birth_date") = true →
      POST (AuthOk organizationId) body now_company now s
      = (RespError 422 "Invalid birth_date" VALIDATION_ERROR, s))
     ∧ (unparsable_date (data !! "birth_date") = false →
        unparsable_date (data !! "last_purchase_date") = true →
        POST (AuthOk organizationId) body now_company now s
        = (RespError 422 "Invalid last_purchase_date" VALIDATION_ERROR, s))
     ∧ (unparsable_date (data !! "birth_date") = false →
        unparsable_date (data !! "last_purchase_date") = false →
        unparsable_timestamp (data !! "last_interaction") = true →
        POST (AuthOk organizationId) body now_company now s
        = (RespError 422 "Invalid last_interaction" VALIDATION_ERROR, s)))
  ∧ (∀ (organizationId contactId : string) (body : option row) (data : row)
       (now : string) (s : store),
       isValidUUID contactId = true →
       safeParse ContactPatchSchema body = Some data →
       (unparsable_date (data !! "birth_date") = true →
        PATCH (AuthOk organizationId) contactId body now s
        = (RespError 422 "Invalid birth_date" VALIDATION_ERROR, s))
       ∧ (unparsable_date (data !! "birth_date") = false →
          unparsable_date (data !! "last_purchase_date") = true →
          PATCH (AuthOk organizationId) contactId body now s
          = (RespError 422 "Invalid last_purchase_date" VALIDATION_ERROR, s))
       ∧ (unparsable_date (data !! "birth_date") = false →
          unparsable_date (data !! "last_purchase_date") = false →
          unparsable_timestamp (data !! "last_interaction") = true →
          PATCH (AuthOk organizationId) contactId body now s
          = (RespError 422 "Invalid last_interaction" VALIDATION_ERROR, s))).
Proof.
  split.
  - intros org body data nc now s Hparse Hid.
    unfold POST. rewrite Hparse. cbv zeta.
    unfold body_email, body_phone in Hid. rewrite Hid.
    rewrite !bool_decide_invalid_date.
    split; [by intros ->|]. split.
    + by intros -> ->.
    + intros -> -> Hli. apply toIsoTimestamp_invalid in Hli.
      by rewrite bool_decide_eq_true_2.
  - intros org cid body data now s Hcid Hparse.
    unfold PATCH. rewrite Hcid, Hparse. simpl.
    unfold patch_updates. cbv zeta. rewrite date_block_date.
    split; [by intros ->|]. split.
    + intros -> Hlpd. cbv iota beta. by rewrite date_block_date, Hlpd.
    + intros -> Hlpd Hli. cbv iota beta. rewrite date_block_date, Hlpd.
      cbv iota beta. by rewrite date_block_timestamp.
Qed.

Lemma invalid_date_names_first_field_witness :
  @unparsable_date Sample.platform
    (Sample.bad_purchase_date !! "birth_date") = false
  ∧ @unparsable_date Sample.platform
      (Sample.bad_purchase_date !! "last_purchase_date") = true
  ∧ @POST Sample.platform (AuthOk Sample.org) (Some Sample.bad_purchase_date)
      Sample.t0 Sample.t1 Sample.crm
    = (RespError 422 "Invalid last_purchase_date" VALIDATION_ERROR,
       Sample.crm).
Proof.
  split; [reflexivity|]. split; [reflexivity|].
  apply (proj1 (proj2 (proj1 (@invalid_date_names_first_field Sample.platform)
                         Sample.org (Some Sample.bad_purchase_date)
                         Sample.bad_purchase_date Sample.t0 Sample.t1
                         Sample.crm eq_refl eq_refl))); reflexivity.
Defined.

(** ** The partial update *)

Lemma assign_lookup (data : row) (k : string) (g : jsval → jsval)
    (updates : row) (f : string) :
  assign_if_defined data k g updates !! f
  = if decide (k = f)
    then match data !! k with
         | Some v => Some (g v)
         | None => updates !! f
         end
    else updates !! f.
Proof.
  unfold assign_if_defined. case_decide as Hk.
  - subst f. destruct (data !! k); [apply lookup_insert_eq|done].
  - destruct (data !! k); [by rewrite lookup_insert_ne|done].
Qed.

Lemma date_block_lookup (data : row) (k : string)
    (convert : option string → option string) (message : string)
    (updates updates' : row) (f : string) :
  date_block data k convert message updates = inr updates' →
  updates' !! f
  = if decide (k = f)
    then match data !! k with
         | Some JNull => Some JNull
         | Some v => Some (of_nullable (convert (as_string (Some v))))
         | None => updates !! f
         end
    else updates !! f.
Proof.
  unfold date_block. case_decide as Hk.
  - subst f. destruct (data !! k) as [v|]; [|by intros [= <-]].
    destruct (bool_decide _); [done|]. intros [= <-].
    rewrite lookup_insert_eq. by destruct v.
  - destruct (data !! k) as [v|]; [|by intros [= <-]].
    destruct (bool_decide _); [done|]. intros [= <-].
    by rewrite lookup_insert_ne.
Qed.

Lemma assign_absent (data : row) (k : string) (g : jsval → jsval)
    (updates : row) (f : string) :
  data !! f = None → assign_if_defined data k g updates !! f = updates !! f.
Proof.
  intros Hf. rewrite assign_lookup. case_decide; [|done].
  subst. by rewrite Hf.
Qed.

Lemma date_block_absent (data : row) (k : string)
    (convert : option string → option string) (message : string)
    (updates updates' : row) (f : string) :
  date_block data k convert message updates = inr updates' →
  data !! f = None → updates' !! f = updates !! f.
Proof.
  intros Hb Hf. rewrite (date_block_lookup _ _ _ _ _ _ f Hb).
  case_decide; [|done]. subst. by rewrite Hf.
Qed.

Lemma assign_other (data : row) (k : string) (g : jsval → jsval)
    (updates : row) (f : string) :
  k ≠ f → assign_if_defined data k g updates !! f = updates !! f.
Proof. intros Hk. rewrite assign_lookup. by rewrite decide_False. Qed.

Lemma assign_here (data : row) (k : string) (g : jsval → jsval)
    (updates : row) (v : jsval) :
  data !! k = Some v → assign_if_defined data k g updates !! k = Some (g v).
Proof.
  intros Hk. rewrite assign_lookup. by rewrite decide_True, Hk.
Qed.

Lemma date_block_other (data : row) (k : string)
    (convert : option string → option string) (message : string)
    (updates updates' : row) (f : string) :
  date_block data k convert message updates = inr updates' →
  k ≠ f → updates' !! f = updates !! f.
Proof.
  intros Hb Hk. rewrite (date_block_lookup _ _ _ _ _ _ f Hb).
  by rewrite decide_False.
Qed.

(** The [updates] object, column by column. *)
Lemma patch_updates_lookup `{Platform} (data : row) (now : string)
    (updates : row) (f : string) :
  patch_updates data now = inr updates →
  (f ≠ "updated_at" → data !! f = None → updates !! f = None)
  ∧ updates !! "updated_at" = Some (JStr now)
  ∧ (∀ v, f ∈ PATCH_TEXT_FIELDS → data !! f = Some v →
          updates !! f = Some (text_field v))
  ∧ (∀ v, f = "email" → data !! f = Some v →
          updates !! f
          = Some (of_nullable (normalizeEmail (as_string (Some v)))))
  ∧ (∀ v, f = "phone" → data !! f = Some v →
          updates !! f
          = Some (of_nullable (normalizePhone (as_string (Some v)))))
  ∧ (f ∈ ["client_company_id"; "birth_date"; "last_purchase_date";
          "last_interaction"; "total_value"] →
     data !! f = Some JNull → updates !! f = Some JNull)
  ∧ (∀ v, f = "client_company_id" → data !! f = Some (JStr v) →
          updates !! f = Some (of_nullable (or_null (sanitizeUUID (Some v)))))
  ∧ (∀ v, f ∈ ["birth_date"; "last_purchase_date"] →
          data !! f = Some (JStr v) →
          updates !! f = Some (of_nullable (toIsoDateString (Some v))))
  ∧ (∀ v, f = "last_interaction" → data !! f = Some (JStr v) →
          updates !! f = Some (of_nullable (toIsoTimestamp (Some v))))
  ∧ (∀ v, f = "total_value" → data !! f = Some v → updates !! f = Some v).
Proof.
  unfold patch_updates.
  destruct (date_block data "birth_date" _ _ _) as [?|u1] eqn:H1; [done|].
  destruct (date_block data "last_purchase_date" _ _ _) as [?|u2] eqn:H2;
    [done|].
  destruct (date_block data "last_interaction" _ _ _) as [?|u3] eqn:H3;
    [done|].
  intros [= <-].
  split; [|split; [apply lookup_insert_eq|]].
  - intros Hf Hnone. rewrite lookup_insert_ne by done.
    rewrite assign_absent by done.
    rewrite (date_block_absent _ _ _ _ _ _ f H3) by done.
    rewrite (date_block_absent _ _ _ _ _ _ f H2) by done.
    rewrite (date_block_absent _ _ _ _ _ _ f H1) by done.
    by rewrite !assign_absent by done.
  - split; [|split; [|split; [|split; [|split; [|split; [|split]]]]]].
    + intros v Hf Hv. unfold PATCH_TEXT_FIELDS in Hf.
      repeat (apply elem_of_cons in Hf as [->|Hf]);
        [..|by apply elem_of_nil in Hf].
      all: rewrite lookup_insert_ne by done; rewrite assign_other by done.
      all: rewrite (date_block_other _ _ _ _ _ _ _ H3) by done.
      all: rewrite (date_block_other _ _ _ _ _ _ _ H2) by done.
      all: rewrite (date_block_other _ _ _ _ _ _ _ H1) by done.
      all: rewrite ?assign_other by done.
      all: by rewrite (assign_here _ _ _ _ _ Hv).
    + intros v -> Hv.
      rewrite lookup_insert_ne by done. rewrite assign_other by done.
      rewrite (date_block_other _ _ _ _ _ _ _ H3) by done.
      rewrite (date_block_other _ _ _ _ _ _ _ H2) by done.
      rewrite (date_block_other _ _ _ _ _ _ _ H1) by done.
      rewrite ?assign_other by done.
      by rewrite (assign_here _ _ _ _ _ Hv).
    + intros v -> Hv.
      rewrite lookup_insert_ne by done. rewrite assign_other by done.
      rewrite (date_block_other _ _ _ _ _ _ _ H3) by done.
      rewrite (date_block_other _ _ _ _ _ _ _ H2) by done.
      rewrite (date_block_other _ _ _ _ _ _ _ H1) by done.
      rewrite ?assign_other by done.
      by rewrite (assign_here _ _ _ _ _ Hv).
    + intros Hf Hv.
      repeat (apply elem_of_cons in Hf as [->|Hf]);
        [..|by apply elem_of_nil in Hf].
      all: rewrite lookup_insert_ne by done.
      all: rewrite ?assign_other by done.
      all: rewrite ?(date_block_other _ _ _ _ _ _ _ H3) by done.
      all: rewrite ?(date_block_other _ _ _ _ _ _ _ H2) by done.
      all: rewrite ?(date_block_other _ _ _ _ _ _ _ H1) by done.
      all: rewrite ?assign_other by done.
      all: first [ by rewrite (assign_here _ _ _ _ _ Hv)
                 | by rewrite (date_block_lookup _ _ _ _ _ _ _ H3),
                      decide_True, Hv by done
                 | by rewrite (date_block_lookup _ _ _ _ _ _ _ H2),
                      decide_True, Hv by done
                 | by rewrite (date_block_lookup _ _ _ _ _ _ _ H1),
                      decide_True, Hv by done ].
    + intros v -> Hv.
      rewrite lookup_insert_ne by done. rewrite assign_other by done.
      rewrite (date_block_other _ _ _ _ _ _ _ H3) by done.
      rewrite (date_block_other _ _ _ _ _ _ _ H2) by done.
      rewrite (date_block_other _ _ _ _ _ _ _ H1) by done.
      by rewrite (assign_here _ _ _ _ _ Hv).
    + intros v Hf Hv.
      repeat (apply elem_of_cons in Hf as [->|Hf]);
        [..|by apply elem_of_nil in Hf].
      all: rewrite lookup_insert_ne by done; rewrite assign_other by done.
      all: rewrite ?(date_block_other _ _ _ _ _ _ _ H3) by done.
      all: rewrite ?(date_block_other _ _ _ _ _ _ _ H2) by done.
      all: first [ by rewrite (date_block_lookup _ _ _ _ _ _ _ H2),
                      decide_True, Hv by done
                 | by rewrite (date_block_lookup _ _ _ _ _ _ _ H1),
                      decide_True, Hv by done ].
    + intros v -> Hv.
      rewrite lookup_insert_ne by done. rewrite assign_other by done.
      by rewrite (date_block_lookup _ _ _ _ _ _ _ H3), decide_True, Hv
        by done.
    + intros v -> Hv.
      rewrite lookup_insert_ne by done.
      by rewrite (assign_here _ _ _ _ _ Hv).
Qed.

Lemma patch_null_fields `{Platform} (body : option row) (data : row)
    (f : string) :
  safeParse ContactPatchSchema body = Some data →
  data !! f = Some JNull →
  f ∈ ["client_company_id"; "birth_date"; "last_purchase_date";
       "last_interaction"; "total_value"].
Proof.
  intros Hparse Hf.
  apply safeParse_Some in Hparse as [_ Hok].
  destruct (Hok f JNull Hf) as (t & nullable & Hs & Hv).
  simpl in Hv. subst nullable.
  unfold ContactPatchSchema in Hs. apply elem_of_list_to_map_2 in Hs.
  repeat match goal with
  | Hin : _ ∈ _ :: _ |- _ =>
      apply elem_of_cons in Hin as [Hin|Hin];
      [first [discriminate | simplify_eq; by repeat constructor]|]
  | Hin : _ ∈ [] |- _ => by apply elem_of_nil in Hin
  end.
Qed.

(** C7 as stated fails: [updated_at] is never in the body (the schema is
    strict), yet every successful partial update rewrites it. *)
Lemma empty_patch_rewrites_updated_at :
  let out :=
    @PATCH Sample.platform (AuthOk Sample.org) Sample.uuid (Some ∅)
      Sample.t1 Sample.crm_uuid in
  (∅ : row) !! "updated_at" = None
  ∧ contacts Sample.crm_uuid !! 0%nat ≫= (.!! "updated_at")
    = Some (JStr "2024-01-01T00:00:00.000Z")
  ∧ contacts out.2 !! 0%nat ≫= (.!! "updated_at") = Some (JStr Sample.t1).
Proof. repeat split; vm_compute; reflexivity. Qed.

(** C7 (as amended). A partial update that does not answer with a record
    leaves the contacts as they were.  One that does rewrites a single
    contact; there every column other than [updated_at] that the body does
    not mention keeps its stored value, every field the body gives as null
    becomes null, every other field of the body is written in normalized
    form, and [updated_at] becomes the time of the request. *)
Theorem patch_writes_present_fields `{Platform}
    (organizationId contactId : string) (body : option row) (now : string)
    (s s' : store) (resp : response) :
  PATCH (AuthOk organizationId) contactId body now s = (resp, s') →
  (response_data resp = None → contacts s' = contacts s)
  ∧ (∀ r, response_data resp = Some r →
       ∃ data i old new,
         body = Some data
         ∧ contacts s !! i = Some old
         ∧ contacts s' = <[i := new]> (contacts s)
         ∧ r = project CONTACT_COLUMNS new
         ∧ new !! "updated_at" = Some (JStr now)
         ∧ (∀ f, f ≠ "updated_at" → data !! f = None →
                 new !! f = old !! f)
         ∧ (∀ f, data !! f = Some JNull → new !! f = Some JNull)
         ∧ (∀ f v, f ∈ PATCH_TEXT_FIELDS → data !! f = Some (JStr v) →
                   new !! f = Some (of_nullable (normalizeText (Some v))))
         ∧ (∀ v, data !! "email" = Some (JStr v) →
                 new !! "email" = Some (of_nullable (normalizeEmail (Some v))))
         ∧ (∀ v, data !! "phone" = Some (JStr v) →
                 new !! "phone" = Some (of_nullable (normalizePhone (Some v))))
         ∧ (∀ v, data !! "client_company_id" = Some (JStr v) →
                 new !! "client_company_id"
                 = Some (of_nullable (or_null (sanitizeUUID (Some v)))))
         ∧ (∀ f v, f ∈ ["birth_date"; "last_purchase_date"] →
                   data !! f = Some (JStr v) →
                   new !! f = Some (of_nullable (toIsoDateString (Some v))))
         ∧ (∀ v, data !! "last_interaction" = Some (JStr v) →
                 new !! "last_interaction"
                 = Some (of_nullable (toIsoTimestamp (Some v))))
         ∧ (∀ v, data !! "total_value" = Some v →
                 new !! "total_value" = Some v)).
Proof.
  unfold PATCH.
  destruct (negb (isValidUUID contactId)); [by intros [= <- <-]|].
  destruct (safeParse _ body) as [data|] eqn:Hparse; [|by intros [= <- <-]].
  destruct (patch_updates data now) as [r|updates] eqn:Hu.
  { apply patch_updates_code in Hu as [message ->]. by intros [= <- <-]. }
  destruct (update_one _ _ _ _ _ s) as [res s1] eqn:Hq.
  apply update_one_facts in Hq as (_ & _ & _ & _ & Hres).
  destruct res as [[r|]|m]; intros [= <- <-]; simpl.
  2,3: split; [intros _; by destruct Hres as [? _]|done].
  split; [done|]. intros r' [= <-].
  destruct Hres as (_ & r0 & Hf0 & -> & Hrows). simpl in Hf0, Hrows.
  destruct (apply_update_single _ updates _ _ Hf0) as (i & Hi & Hupd).
  pose proof (safeParse_Some _ _ _ Hparse) as [-> _].
  exists data, i, r0, (updates ∪ r0).
  split; [done|]. split; [done|]. split; [congruence|]. split; [done|].
  split; [|split; [|split; [|split; [|split; [|split; [|split; [|split;
    [|split]]]]]]]].
  - apply lookup_update_written.
    by destruct (patch_updates_lookup data now updates "updated_at" Hu)
      as (_ & Hnow & _).
  - intros f Hf Hnone. rewrite lookup_update_kept; [done|].
    destruct (patch_updates_lookup data now updates f Hu) as (Hkeep & _).
    by apply Hkeep.
  - intros f Hnull. apply lookup_update_written.
    destruct (patch_updates_lookup data now updates f Hu)
      as (_ & _ & _ & _ & _ & Hclear & _).
    apply Hclear; [|done]. by eapply patch_null_fields.
  - intros f v Hf Hv. apply lookup_update_written.
    destruct (patch_updates_lookup data now updates f Hu)
      as (_ & _ & Htext & _).
    exact (Htext (JStr v) Hf Hv).
  - intros v Hv. apply lookup_update_written.
    destruct (patch_updates_lookup data now updates "email" Hu)
      as (_ & _ & _ & Hemail & _).
    exact (Hemail (JStr v) eq_refl Hv).
  - intros v Hv. apply lookup_update_written.
    destruct (patch_updates_lookup data now updates "phone" Hu)
      as (_ & _ & _ & _ & Hphone & _).
    exact (Hphone (JStr v) eq_refl Hv).
  - intros v Hv. apply lookup_update_written.
    destruct (patch_updates_lookup data now updates "client_company_id" Hu)
      as (_ & _ & _ & _ & _ & _ & Hcid & _).
    exact (Hcid v eq_refl Hv).
  - intros f v Hf Hv. apply lookup_update_written.
    destruct (patch_updates_lookup data now updates f Hu)
      as (_ & _ & _ & _ & _ & _ & _ & Hdate & _).
    exact (Hdate v Hf Hv).
  - intros v Hv. apply lookup_update_written.
    destruct (patch_updates_lookup data now updates "last_interaction" Hu)
      as (_ & _ & _ & _ & _ & _ & _ & _ & Hts & _).
    exact (Hts v eq_refl Hv).
  - intros v Hv. apply lookup_update_written.
    destruct (patch_updates_lookup data now updates "total_value" Hu)
      as (_ & _ & _ & _ & _ & _ & _ & _ & _ & Htv).
    exact (Htv v eq_refl Hv).
Qed.

Lemma patch_writes_present_fields_witness :
  let out :=
    @PATCH Sample.platform (AuthOk Sample.org) Sample.uuid
      (Some {["notes" := JStr " vip "; "birth_date" := JNull]})
      Sample.t1 Sample.crm_uuid in
  ∃ old new,
    contacts Sample.crm_uuid !! 0%nat = Some old
    ∧ contacts out.2 !! 0%nat = Some new
    ∧ new !! "name" = old !! "name"
    ∧ new !! "birth_date" = Some JNull.
Proof.
  intros out.
  assert (Hr : is_Some (response_data out.1)).
  { refine (bool_decide_unpack _ _). vm_compute. exact I. }
  destruct Hr as [r Hr].
  destruct (proj2 (@patch_writes_present_fields Sample.platform _ _ _ _ _ _ _
                     (surjective_pairing out)) r Hr)
    as (data & i & old & new & [= <-] & Hi & Hs' & _ & _ & Hkeep & Hnull & _).
  assert (Hi0 : i = 0%nat).
  { apply lookup_lt_Some in Hi. change (i < 1)%nat in Hi. lia. }
  subst i. exists old, new.
  split; [exact Hi|]. split; [by rewrite Hs'|].
  split; [by apply Hkeep|by apply Hnull].
Defined.

(** ** Validation and store writes *)

(** C1 fails on the code: a request without a name, for which no contact
    matches, is rejected with a validation error only after the company
    find-or-create step has run, and the company it created stays. *)
Theorem rejected_upsert_leaves_company :
  let out :=
    @POST Sample.platform (AuthOk Sample.org)
      (Some Sample.nameless_with_company) Sample.t0 Sample.t1 Sample.empty in
  out.1 = RespError 422 "Name is required to create a new contact"
            VALIDATION_ERROR
  ∧ companies Sample.empty = []
  ∧ companies out.2
    = [list_to_map
         [("id", JStr "00000000-0000-4000-8000-000000000000");
          ("organization_id", JStr Sample.org);
          ("name", JStr "Acme"); ("created_at", JStr Sample.t0);
          ("updated_at", JStr Sample.t0)]]
  ∧ log out.2
    = [Event Companies Select None; Event Companies Insert None;
       Event Contacts Select None].
Proof. repeat split; vm_compute; reflexivity. Qed.

(** Where C1 does hold: a request rejected with a validation error never
    changes the contacts, and it changes the companies only in the case
    above, by the one company that name resolution appended. *)
Lemma POST_rejected_store `{Platform} (auth : auth_result)
    (body : option row) (now_company now : string) (s s' : store)
    (e c : string) :
  POST auth body now_company now s = (RespError 422 e c, s') →
  contacts s' = contacts s
  ∧ (companies s' = companies s
     ∨ (e = "Name is required to create a new contact"
        ∧ ∃ new, companies s' = companies s ++ [new])).
Proof.
  intros Hrun.
  pose proof (POST_store_effect _ _ _ _ _ _ _ Hrun)
    as [_ [Hc|[[? [=]]|[? [=]]]]].
  split; [done|]. revert Hrun. unfold POST.
  destruct auth as [st b|org]; [done|].
  destruct (safeParse _ body) as [data|]; [|intros [= <- <- <-]; by left].
  destruct (absent _ && absent _); [intros [= <- <- <-]; by left|].
  destruct (bool_decide (toIsoDateString (as_string (data !! "birth_date"))
                         = _)); [intros [= <- <- <-]; by left|].
  destruct (bool_decide (toIsoDateString
                           (as_string (data !! "last_purchase_date")) = _));
    [intros [= <- <- <-]; by left|].
  destruct (bool_decide (toIsoTimestamp
                           (as_string (data !! "last_interaction")) = _));
    [intros [= <- <- <-]; by left|].
  destruct (client_company org data now_company s) as [resolved s1] eqn:Hr.
  assert (Hk : companies s1 = companies s
               ∨ (∃ id, resolved = Ok id)
                 ∧ ∃ new, companies s1 = companies s ++ [new]).
  { unfold client_company in Hr. destruct (negb _ && negb _) in Hr.
    - apply resolveCompanyIdFromName_companies in Hr
        as [?|(? & ? & _ & -> & ?)]; eauto.
    - inversion Hr; subst. by left. }
  destruct resolved as [cid|m].
  2:{ intros [= <- <- <-]. destruct Hk as [?|[[? [=]] _]]. by left. }
  destruct (select_maybeSingle _ _ _ s1) as [existing s2] eqn:H2.
  apply select_maybeSingle_facts in H2 as (_ & Hk2 & _).
  destruct existing as [found|m]; [|done].
  destruct (truthy (default JNull (found ≫= _))).
  - by destruct (update_one _ _ _ _ _ s2) as [[?|?] ?].
  - destruct (absent (normalizeText _)).
    + intros [= <- <- <-]. rewrite Hk2.
      destruct Hk as [?|[_ ?]]; [by left|by right].
    + by destruct (insert_single _ _ _ s2) as [[?|?] ?].
Qed.

(** ** Company resolution *)

(** C4 fails on the code: the lookup reads the name as a [LIKE] pattern.
    Name "a_c" resolves to the existing company "abc", which is not the same
    name in another case, and nothing is created; and the two spellings
    "x\y" and "X\Y" of one name get two companies with two ids, because a
    name with a backslash does not match itself. *)
Theorem company_lookup_reads_pattern :
  let wild :=
    resolveCompanyIdFromName Sample.org "a_c" Sample.t0 Sample.crm in
  let first :=
    resolveCompanyIdFromName Sample.org "x\y" Sample.t0 Sample.empty in
  let second :=
    resolveCompanyIdFromName Sample.org "X\Y" Sample.t1 first.2 in
  (Js.toLowerCase "a_c" ≠ Js.toLowerCase "abc"
   ∧ wild.1 = Ok (JStr "k-abc")
   ∧ companies wild.2 = companies Sample.crm)
  ∧ (Js.toLowerCase "x\y" = Js.toLowerCase "X\Y"
     ∧ first.1 = Ok (JStr "00000000-0000-4000-8000-000000000000")
     ∧ second.1 = Ok (JStr "00000000-0000-4000-8000-000000000001")
     ∧ length (companies second.2) = 2%nat).
Proof.
  repeat split; try (vm_compute; reflexivity).
  vm_compute. discriminate.
Qed.

Lemma lower_char_pattern (c : ascii) :
  pattern_char (Js.lower_char c) = pattern_char c.
Proof. destruct c as [[] [] [] [] [] [] [] []]; reflexivity. Qed.

Lemma lower_char_space (c : ascii) :
  Js.is_space (Js.lower_char c) = Js.is_space c.
Proof. destruct c as [[] [] [] [] [] [] [] []]; reflexivity. Qed.

Lemma toLowerCase_trimStart (s : string) :
  Js.toLowerCase (Js.trimStart s) = Js.trimStart (Js.toLowerCase s).
Proof.
  induction s as [|c s IH]; [done|]. simpl.
  rewrite lower_char_space. by destruct (Js.is_space c).
Qed.

Lemma toLowerCase_trimEnd (s : string) :
  Js.toLowerCase (Js.trimEnd s) = Js.trimEnd (Js.toLowerCase s).
Proof.
  induction s as [|c s IH]; [done|]. simpl.
  rewrite <- IH, lower_char_space.
  destruct (Js.trimEnd s); [by destruct (Js.is_space c)|done].
Qed.

Lemma toLowerCase_trim (s : string) :
  Js.toLowerCase (Js.trim s) = Js.trim (Js.toLowerCase s).
Proof.
  unfold Js.trim. by rewrite toLowerCase_trimEnd, toLowerCase_trimStart.
Qed.

Lemma toLowerCase_falsy (s : string) :
  Js.falsy (Js.toLowerCase s) = Js.falsy s.
Proof. by destruct s. Qed.

Lemma literal_toLowerCase (s : string) :
  literal_name (Js.toLowerCase s) = literal_name s.
Proof.
  unfold literal_name. induction s as [|c s IH]; [done|]. simpl.
  by rewrite lower_char_pattern, IH.
Qed.

Lemma literal_trimStart (s : string) :
  literal_name s = true → literal_name (Js.trimStart s) = true.
Proof.
  unfold literal_name. induction s as [|c s IH]; [done|]. simpl.
  intros [Hc Hs]%andb_prop. destruct (Js.is_space c); [by apply IH|].
  simpl. by rewrite Hc, Hs.
Qed.

Lemma literal_trimEnd (s : string) :
  literal_name s = true → literal_name (Js.trimEnd s) = true.
Proof.
  unfold literal_name. induction s as [|c s IH]; [done|]. simpl.
  intros [Hc Hs]%andb_prop. specialize (IH Hs).
  destruct (Js.trimEnd s).
  - destruct (Js.is_space c); [done|]. simpl. by rewrite Hc.
  - simpl in *. by rewrite Hc, IH.
Qed.

Lemma literal_trim (s : string) :
  literal_name s = true → literal_name (Js.trim s) = true.
Proof. intros Hs. by apply literal_trimEnd, literal_trimStart. Qed.

(** A pattern without pattern characters matches itself only. *)
Lemma like_literal (p s : list ascii) :
  forallb (λ c, negb (pattern_char c)) p = true →
  like p s = true ↔ p = s.
Proof.
  revert s. induction p as [|c p IH]; intros s Hp.
  - destruct s; simpl; split; congruence.
  - simpl in Hp. apply andb_prop in Hp as [Hc Hp].
    unfold pattern_char in Hc. apply negb_true_iff in Hc.
    apply orb_false_elim in Hc as [Hc H4].
    apply orb_false_elim in Hc as [Hc H3].
    apply orb_false_elim in Hc as [H1 H2].
    simpl. rewrite H1, H2, H3, H4. simpl.
    destruct s as [|x s]; [split; congruence|].
    rewrite andb_true_iff, (IH s Hp), Ascii.eqb_eq.
    split; [by intros [-> ->]|by intros [= -> ->]].
Qed.

Lemma list_ascii_of_string_inj (s1 s2 : string) :
  list_ascii_of_string s1 = list_ascii_of_string s2 → s1 = s2.
Proof.
  intros Heq. rewrite <- (string_of_list_ascii_of_string s1).
  rewrite <- (string_of_list_ascii_of_string s2). by rewrite Heq.
Qed.

(** For a name without pattern characters the lookup is the
    case-insensitive comparison of names. *)
Lemma ilike_literal (name : string) (r : row) :
  literal_name name = true →
  ilike_col "name" name r = true
  ↔ ∃ v, r !! "name" = Some (JStr v)
         ∧ Js.toLowerCase name = Js.toLowerCase v.
Proof.
  intros Hlit. unfold ilike_col.
  destruct (r !! "name") as [[| | |v]|].
  1-3,5: split; [done|by intros (? & [=] & _)].
  rewrite like_literal by (by rewrite <- literal_toLowerCase in Hlit).
  split.
  - intros Heq%list_ascii_of_string_inj. eauto.
  - intros (? & [= <-] & ->). done.
Qed.

Lemma normalizeText_toLowerCase (n : string) :
  normalizeText (Some (Js.toLowerCase n))
  = Js.toLowerCase <$> normalizeText (Some n).
Proof.
  unfold normalizeText. simpl.
  rewrite <- toLowerCase_trim, toLowerCase_falsy.
  by destruct (Js.falsy (Js.trim n)).
Qed.

Lemma company_filter_case (organizationId name1 name2 : string) (r : row) :
  Js.toLowerCase name1 = Js.toLowerCase name2 →
  company_filter organizationId name1 r = company_filter organizationId name2 r.
Proof.
  intros Heq. unfold company_filter, ilike_col. by rewrite Heq.
Qed.

(** Where C4 does hold: for a name without pattern characters, over
    companies that all have an id, resolving another spelling of the name
    right after a successful resolution gives the same id and creates
    nothing. *)
Lemma resolve_case_variants (organizationId name1 name2 now1 now2 : string)
    (s s1 : store) (id : jsval) :
  Js.toLowerCase name1 = Js.toLowerCase name2 →
  literal_name name1 = true →
  Forall (λ r, truthy (row_id r) = true) (companies s) →
  resolveCompanyIdFromName organizationId name1 now1 s = (Ok id, s1) →
  next_fault s1 = None →
  ∃ s2,
    resolveCompanyIdFromName organizationId name2 now2 s1 = (Ok id, s2)
    ∧ companies s2 = companies s1.
Proof.
  intros Hcase Hlit Hids Hfirst Hfault.
  pose proof (normalizeText_toLowerCase name1) as Hn1.
  pose proof (normalizeText_toLowerCase name2) as Hn2.
  rewrite Hcase, Hn2 in Hn1. clear Hn2.
  unfold resolveCompanyIdFromName in *.
  destruct (normalizeText (Some name1)) as [t1|] eqn:Ht1;
    destruct (normalizeText (Some name2)) as [t2|] eqn:Ht2;
    simpl in Hn1; try discriminate.
  2:{ injection Hfirst as <- <-. eauto. }
  injection Hn1 as Hn1. symmetry in Hn1.
  assert (Hlit1 : literal_name t1 = true).
  { unfold normalizeText in Ht1. destruct (Js.falsy _); [done|].
    injection Ht1 as <-. by apply literal_trim. }
  assert (Hfilter : ∀ l, List.filter (company_filter organizationId t2) l
                         = List.filter (company_filter organizationId t1) l).
  { intros l. apply List.filter_ext. intros r.
    by apply company_filter_case. }
  destruct (select_maybeSingle _ _ _ s) as [existing s0] eqn:H1.
  apply select_maybeSingle_facts in H1 as (_ & Hk0 & Hn0 & _ & _ & Hres).
  destruct existing as [data|m]; [|done]. simpl in Hres.
  destruct (select_maybeSingle _ _ (company_filter organizationId t2) s1)
    as [again s2] eqn:H2.
  apply select_maybeSingle_facts in H2 as (_ & Hk2 & _ & _ & _ & Hres2).
  simpl in Hres2. rewrite Hfilter, Hfault in Hres2.
  exists s2.
  destruct (truthy (default JNull (data ≫= _))) eqn:Hid.
  - (* the first resolution found the company *)
    injection Hfirst as <- <-.
    destruct data as [d|]; [|done].
    destruct Hres as (_ & r0 & Hf0 & ->). rewrite Hk0, Hf0 in Hres2.
    destruct again as [[d2|]|m].
    + destruct Hres2 as (_ & r1 & [= <-] & ->). by rewrite Hid.
    + by destruct Hres2.
    + destruct Hres2 as [?|(_ & _ & ?)]; [done|simpl in *; lia].
  - (* the first resolution created the company *)
    destruct (insert_single _ _ _ s0) as [created s'] eqn:H3.
    apply insert_single_facts in H3 as (_ & _ & Hins).
    destruct created as [r|m]; [|done].
    injection Hfirst as <- <-.
    destruct Hins as (_ & -> & Hrows & _). simpl in Hrows.
    assert (Hnone : List.filter (company_filter organizationId t1)
                      (companies s) = []).
    { destruct data as [d|].
      - destruct Hres as (_ & r0 & Hf0 & ->). exfalso.
        rewrite found_id in Hid by set_solver.
        rewrite Forall_forall in Hids.
        rewrite Hids in Hid; [done|].
        apply list_elem_of_In.
        eapply (proj1 (filter_In _ r0 (companies s))).
        rewrite Hf0. by left.
      - by destruct Hres. }
    set (new := <["id" := JStr (gen_id (next_id s0))]> _) in *.
    assert (Hmatch : company_filter organizationId t1 new = true).
    { unfold company_filter.
      assert (ilike_col "name" t1 new = true) as ->.
      { apply ilike_literal; [done|]. by exists t1. }
      rewrite andb_true_r. apply andb_true_intro. split.
      - apply bool_decide_eq_true. reflexivity.
      - reflexivity. }
    rewrite Hrows, Hk0, List.filter_app, Hnone in Hres2.
    simpl in Hres2. rewrite Hmatch in Hres2.
    destruct again as [[d2|]|m].
    + destruct Hres2 as (_ & r1 & [= <-] & ->). done.
    + by destruct Hres2.
    + destruct Hres2 as [?|(_ & _ & ?)]; [done|simpl in *; lia].
Qed.

(** * Further properties of the contacts routes *)

Lemma project_lookup_None (cols : list string) (r : row) (k : string) :
  k ∉ cols → project cols r !! k = None.
Proof.
  unfold project. induction cols as [|c cols IH]; intros Hk; [done|].
  simpl. apply not_elem_of_cons in Hk as [Hne Hk].
  rewrite lookup_insert_ne by done. by apply IH.
Qed.

Lemma project_idemp (cols : list string) (r : row) :
  project cols (project cols r) = project cols r.
Proof.
  apply map_eq. intros k. destruct (decide (k ∈ cols)) as [Hk|Hk].
  - by rewrite !project_lookup by done.
  - by rewrite !project_lookup_None by done.
Qed.

Lemma list_item_shown (r : row) : list_item (shown r) = shown r.
Proof. apply project_idemp. Qed.

Lemma filter_elem_of {A : Type} (p : A → bool) (l : list A) (x : A) :
  x ∈ List.filter p l ↔ x ∈ l ∧ p x = true.
Proof. rewrite !list_elem_of_In. apply filter_In. Qed.

(** The response of the list route, request by request. *)
Lemma GET_list_data `{Platform} (organizationId : string)
    (params : gmap string string) (s s' : store) (data : list row)
    (next : option string) :
  GET_list (AuthOk organizationId) params s = (RespList data next, s') →
  let k := decodeOffsetCursor (params !! "cursor") in
  let L := parseLimit (params !! "limit") in
  let matching := list_matching organizationId params s in
  data = shown <$> range k (k + L - 1) matching
  ∧ next = (if k + L <? Z.of_nat (length matching)
            then Some (encodeOffsetCursor (k + L)) else None)
  ∧ contacts s' = contacts s ∧ companies s' = companies s
  ∧ faults s' = tail (faults s).
Proof.
  unfold GET_list, page_window.
  destruct (select_range _ _ _ _ _ s) as [res s1] eqn:Hq.
  apply select_range_facts in Hq as (Hc & Hk & _ & Hf & _ & Hres).
  destruct res as [[d count]|m]; [|done]. intros [= <- <- <-].
  destruct Hres as (_ & -> & ->). simpl.
  split; [|split; [|done]].
  - change (List.map ?f ?l) with (f <$> l). rewrite <- !list_fmap_compose.
    apply list_fmap_ext. intros i r _. simpl. apply list_item_shown.
  - unfold next_cursor. simpl.
    by replace (decodeOffsetCursor (params !! "cursor")
                + parseLimit (params !! "limit") - 1 + 1)
      with (decodeOffsetCursor (params !! "cursor")
            + parseLimit (params !! "limit")) by lia.
Qed.

Lemma elem_of_range {A : Type} (from to : Z) (l : list A) (x : A) :
  x ∈ range from to l → x ∈ l.
Proof.
  unfold range. intros (i & Hi)%list_elem_of_lookup_1.
  apply lookup_take_Some in Hi as [Hi _]. rewrite lookup_drop in Hi.
  by eapply list_elem_of_lookup_2.
Qed.

Lemma length_range {A : Type} (k L : Z) (l : list A) :
  (length (range k (k + L - 1) l) ≤ Z.to_nat L)%nat.
Proof.
  unfold range. replace (k + L - 1 - k + 1) with L by lia.
  rewrite length_take. lia.
Qed.

Lemma list_matching_elem_of `{Platform} (organizationId : string)
    (params : gmap string string) (s : store) (r : row) :
  r ∈ list_matching organizationId params s
  ↔ r ∈ contacts s
    ∧ list_filter organizationId
        (sanitizeUUID (params !! "client_company_id"))
        (normalizeEmail (params !! "email"))
        (normalizePhone (params !! "phone"))
        (Js.trim (default "" (params !! "q"))) r = true.
Proof.
  unfold list_matching. rewrite merge_sort_Permutation.
  apply filter_elem_of.
Qed.

(** X1. Every contact the list route returns is a stored contact of the
    caller's tenant that is not soft-deleted and passes each exact filter of
    the request; a page has at most [limit] rows; and the request changes
    neither table. *)
Theorem GET_list_returns_visible `{Platform} (organizationId : string)
    (params : gmap string string) (s s' : store) (data : list row)
    (next : option string) :
  GET_list (AuthOk organizationId) params s = (RespList data next, s') →
  (length data ≤ Z.to_nat (parseLimit (params !! "limit")))%nat
  ∧ contacts s' = contacts s ∧ companies s' = companies s
  ∧ ∀ d, d ∈ data →
      ∃ r, r ∈ contacts s ∧ d = shown r
           ∧ visible_to organizationId r = true
           ∧ (∀ e, normalizeEmail (params !! "email") = Some e →
                   r !! "email" = Some (JStr e))
           ∧ (∀ p, normalizePhone (params !! "phone") = Some p →
                   r !! "phone" = Some (JStr p))
           ∧ (∀ c, sanitizeUUID (params !! "client_company_id") = Some c →
                   c ≠ "" → r !! "client_company_id" = Some (JStr c)).
Proof.
  intros Hrun. apply GET_list_data in Hrun as (-> & _ & Hc & Hk & _).
  split; [|split; [done|split; [done|]]].
  - rewrite length_fmap. apply length_range.
  - intros d (r & -> & Hr)%list_elem_of_fmap.
    apply elem_of_range, list_matching_elem_of in Hr as [Hr Hf].
    exists r. split; [done|]. split; [done|].
    unfold list_filter in Hf.
    apply andb_prop in Hf as [Hf _]. apply andb_prop in Hf as [Hf Hphone].
    apply andb_prop in Hf as [Hf Hemail]. apply andb_prop in Hf as [Hf Hcid].
    split; [done|]. split; [|split].
    + intros e He. rewrite He in Hemail.
      rewrite (normalizeEmail_truthy _ _ He) in Hemail.
      by apply bool_decide_eq_true in Hemail.
    + intros p Hp. rewrite Hp in Hphone.
      assert (Hfp : absent (Some p) = false).
      { unfold normalizePhone in Hp. destruct (params !! "phone"); [|done].
        simpl. by destruct (Js.falsy (canonPhone _)) eqn:?; simplify_eq. }
      rewrite Hfp in Hphone. by apply bool_decide_eq_true in Hphone.
    + intros c Hc' Hne. rewrite Hc' in Hcid.
      destruct c; [done|]. by apply bool_decide_eq_true in Hcid.
Qed.

Lemma created_at_desc_transitive : Transitive created_at_desc.
Proof. intros r1 r2 r3 H12 H23. unfold created_at_desc in *. by etrans. Qed.

Lemma created_at_desc_total : Total created_at_desc.
Proof. intros r1 r2. unfold created_at_desc. apply (total String.le). Qed.

Lemma created_at_shown (r : row) :
  as_string (shown r !! "created_at") = as_string (r !! "created_at").
Proof.
  unfold shown. rewrite project_lookup by (by repeat constructor).
  by destruct (r !! "created_at").
Qed.

Lemma StronglySorted_range {A : Type} (R : relation A) (from to : Z)
    (l : list A) :
  StronglySorted R l → StronglySorted R (range from to l).
Proof.
  intros Hl. unfold range.
  rewrite <- (take_drop (Z.to_nat from) l) in Hl.
  apply StronglySorted_app_1_r in Hl.
  rewrite <- (take_drop (Z.to_nat (to - from + 1))
                (drop (Z.to_nat from) l)) in Hl.
  by apply StronglySorted_app_1_l in Hl.
Qed.

(** X2. The rows of a page are ordered by creation time, newest first: each
    row was created no earlier than every row after it. *)
Theorem GET_list_newest_first `{Platform} (organizationId : string)
    (params : gmap string string) (s s' : store) (data : list row)
    (next : option string) :
  GET_list (AuthOk organizationId) params s = (RespList data next, s') →
  StronglySorted created_at_desc data.
Proof.
  intros Hrun. apply GET_list_data in Hrun as (-> & _).
  apply (StronglySorted_fmap shown created_at_desc created_at_desc).
  - intros r1 r2. unfold created_at_desc. by rewrite !created_at_shown.
  - apply StronglySorted_range.
    apply (@StronglySorted_merge_sort _ _ _ created_at_desc_transitive
             created_at_desc_total).
Qed.

Lemma GET_list_newest_first_witness :
  ∃ d1 d2 data next s',
    @GET_list Sample.platform (AuthOk Sample.org) ∅ Sample.crm
    = (RespList (d1 :: d2 :: data) next, s')
    ∧ StronglySorted created_at_desc (d1 :: d2 :: data).
Proof.
  assert (Hshape :
    match (@GET_list Sample.platform (AuthOk Sample.org) ∅ Sample.crm).1 with
    | RespList (_ :: _ :: _) _ => True
    | _ => False
    end) by (vm_compute; exact I).
  remember (@GET_list Sample.platform (AuthOk Sample.org) ∅ Sample.crm)
    as out eqn:Hrun.
  destruct out as [[| | |[|d1 [|d2 data]] next] s']; try contradiction.
  exists d1, d2, data, next, s'. split; [done|].
  by eapply (@GET_list_newest_first Sample.platform).
Defined.

Lemma GET_list_returns_visible_witness :
  ∃ d data next s',
    @GET_list Sample.platform (AuthOk Sample.org)
      {["email" := " BIA@ex.com "]} Sample.crm
    = (RespList (d :: data) next, s')
    ∧ ∃ r, r ∈ contacts Sample.crm ∧ d = shown r
           ∧ visible_to Sample.org r = true
           ∧ r !! "email" = Some (JStr "bia@ex.com").
Proof.
  assert (Hshape :
    match (@GET_list Sample.platform (AuthOk Sample.org)
             {["email" := " BIA@ex.com "]} Sample.crm).1 with
    | RespList (_ :: _) _ => True
    | _ => False
    end) by (vm_compute; exact I).
  remember (@GET_list Sample.platform (AuthOk Sample.org)
              {["email" := " BIA@ex.com "]} Sample.crm) as out eqn:Hrun.
  destruct out as [[| | |[|d data] next] s']; try contradiction.
  exists d, data, next, s'. split; [done|]. symmetry in Hrun.
  destruct (proj2 (proj2 (proj2 (@GET_list_returns_visible Sample.platform
                                   _ _ _ _ _ _ Hrun))) d)
    as (r & Hr & Hdr & Hv & He & _); [by left|].
  exists r. repeat split; auto.
Defined.

Lemma GET_list_ok `{Platform} (organizationId : string)
    (params : gmap string string) (s : store) :
  next_fault s = None →
  ∃ data next s',
    GET_list (AuthOk organizationId) params s = (RespList data next, s').
Proof.
  intros Hf. unfold GET_list, page_window.
  destruct (select_range _ _ _ _ _ s) as [res s1] eqn:Hq.
  apply select_range_facts in Hq as (_ & _ & _ & _ & _ & Hres).
  destruct res as [[d count]|m]; [eauto|congruence].
Qed.

Lemma list_matching_ext `{Platform} (organizationId : string)
    (params params' : gmap string string) (s s' : store) :
  contacts s' = contacts s →
  (∀ k, k ≠ "cursor" → params' !! k = params !! k) →
  list_matching organizationId params' s'
  = list_matching organizationId params s.
Proof.
  intros Hc Hp. unfold list_matching. by rewrite Hc, !Hp.
Qed.

Lemma decode_encode_nat (k : nat) :
  decodeOffsetCursor (Some (encodeOffsetCursor (Z.of_nat k))) = Z.of_nat k.
Proof.
  unfold decodeOffsetCursor, encodeOffsetCursor.
  rewrite NilEmpty.usu, DecimalN.Unsigned.of_to. lia.
Qed.

Lemma crawl_step `{Platform} (fuel : nat) (organizationId : string)
    (params : gmap string string) (cursor : option string) (s : store) :
  crawl (S fuel) organizationId params cursor s
  = match GET_list (AuthOk organizationId)
            (match cursor with
             | Some c => <["cursor" := c]> params
             | None => delete "cursor" params
             end) s with
    | (RespList data next, s') =>
        data ++ match next with
                | Some c => crawl fuel organizationId params (Some c) s'
                | None => []
                end
    | _ => []
    end.
Proof. reflexivity. Qed.

Lemma crawl_from `{Platform} (organizationId : string)
    (params : gmap string string) (s : store) (fuel : nat) :
  1 ≤ parseLimit (params !! "limit") →
  ∀ (k : nat) (cursor : option string) (s1 : store),
    decodeOffsetCursor cursor = Z.of_nat k →
    contacts s1 = contacts s → faults s1 = [] →
    (length (list_matching organizationId params s) - k < fuel)%nat →
    crawl fuel organizationId params cursor s1
    = shown <$> drop k (list_matching organizationId params s).
Proof.
  intros HL. induction fuel as [|fuel IH]; intros k cursor s1 Hk Hc Hf Hfuel;
    [lia|].
  rewrite crawl_step.
  set (params' := match cursor with
                  | Some c => <["cursor" := c]> params
                  | None => delete "cursor" params
                  end).
  assert (Hother : ∀ key, key ≠ "cursor" → params' !! key = params !! key).
  { intros key Hkey. subst params'.
    destruct cursor; [by rewrite lookup_insert_ne|by rewrite lookup_delete_ne]. }
  assert (Hcur : decodeOffsetCursor (params' !! "cursor") = Z.of_nat k).
  { subst params'. destruct cursor.
    - by rewrite lookup_insert_eq.
    - by rewrite lookup_delete_eq. }
  destruct (GET_list_ok organizationId params' s1 (next_fault_nil s1 Hf))
    as (data & next & s' & Hrun).
  rewrite Hrun.
  apply GET_list_data in Hrun as (-> & -> & Hc' & _ & Hf').
  rewrite Hf in Hf'. simpl in Hf'.
  rewrite (list_matching_ext organizationId params params' s s1 Hc Hother).
  rewrite Hcur, (Hother "limit") by done.
  set (m := list_matching organizationId params s) in *.
  set (L := parseLimit (params !! "limit")) in *.
  assert (Hrange : range (Z.of_nat k) (Z.of_nat k + L - 1) m
                   = take (Z.to_nat L) (drop k m)).
  { unfold range. rewrite Nat2Z.id. do 2 f_equal. lia. }
  rewrite Hrange.
  destruct (Z.ltb_spec (Z.of_nat k + L) (Z.of_nat (length m))) as [Hlt|Hge].
  - rewrite (IH (k + Z.to_nat L)%nat).
    + rewrite <- fmap_app. f_equal.
      rewrite <- (take_drop (Z.to_nat L) (drop k m)) at 2.
      by rewrite drop_drop.
    + replace (Z.of_nat k + L) with (Z.of_nat (k + Z.to_nat L)) by lia.
      apply decode_encode_nat.
    + congruence.
    + done.
    + lia.
  - rewrite app_nil_r. f_equal. apply take_ge. rewrite length_drop. lia.
Qed.



(** ** Fetch by id *)

Lemma GET_one_cases `{Platform} (organizationId contactId : string)
    (s s' : store) (resp : response) :
  isValidUUID contactId = true →
  GET_one (AuthOk organizationId) contactId s = (resp, s') →
  contacts s' = contacts s ∧ companies s' = companies s
  ∧ faults s' = tail (faults s)
  ∧ let matches :=
      List.filter (λ r, visible_to organizationId r
                        && eq_col "id" (JStr contactId) r) (contacts s) in
    match resp with
    | RespOne st d a =>
        ∃ r, matches = [r] ∧ st = 200 ∧ d = Some (shown r) ∧ a = None
    | RespError st e c =>
        (st = 404 ∧ e = "Contact not found" ∧ c = NOT_FOUND
         ∧ next_fault s = None ∧ matches = [])
        ∨ (st = 500 ∧ c = DB_ERROR
           ∧ (next_fault s = Some e
              ∨ (next_fault s = None ∧ (1 < length matches)%nat)))
    | _ => False
    end.
Proof.
  intros Hid. unfold GET_one. rewrite Hid. simpl.
  destruct (select_maybeSingle _ _ _ s) as [res s1] eqn:Hq.
  apply select_maybeSingle_facts in Hq as (Hc & Hk & _ & Hf & _ & Hres).
  simpl in Hres.
  destruct res as [[d|]|m]; intros [= <- <-];
    (split; [done|]); (split; [done|]); (split; [done|]); simpl.
  - destruct Hres as (_ & r & Hr & ->). by exists r.
  - destruct Hres as [? ?]. by left.
  - right. destruct Hres as [?|(? & -> & ?)]; auto.
Qed.

(** X4. Fetching by id checks the id first and only reads: an authenticated
    request with a malformed id is answered 422 'Invalid contact id' with
    code VALIDATION_ERROR without any adapter call, and whatever record is
    returned is the stored contact with that id, of the caller's tenant and
    not soft-deleted; the tables are never changed. *)
Theorem GET_one_returns_visible `{Platform} (auth : auth_result)
    (contactId : string) (s s' : store) (resp : response) :
  GET_one auth contactId s = (resp, s') →
  contacts s' = contacts s ∧ companies s' = companies s
  ∧ (isValidUUID contactId = false →
     s' = s
     ∧ ∀ organizationId,
         auth = AuthOk organizationId →
         resp = RespError 422 "Invalid contact id" VALIDATION_ERROR)
  ∧ (∀ d, response_data resp = Some d →
       ∃ organizationId r,
         auth = AuthOk organizationId
         ∧ r ∈ contacts s ∧ d = shown r
         ∧ visible_to organizationId r = true
         ∧ r !! "id" = Some (JStr contactId)).
Proof.
  destruct auth as [st b|org].
  { intros [= <- <-]. by repeat split. }
  destruct (isValidUUID contactId) eqn:Hid.
  - intros Hrun. apply (GET_one_cases _ _ _ _ _ Hid) in Hrun
      as (Hc & Hk & _ & Hres).
    split; [done|]. split; [done|]. split; [done|].
    intros d Hd. destruct resp as [| |st d' a|]; try done.
    simpl in Hd. subst d'. destruct Hres as (r & Hr & _ & [= ->] & _).
    assert (Hin : r ∈ List.filter
                    (λ r, visible_to org r && eq_col "id" (JStr contactId) r)
                    (contacts s)) by (rewrite Hr; by left).
    apply filter_elem_of in Hin as [Hin [Hv Hi]%andb_prop].
    exists org, r. repeat split; auto. by apply bool_decide_eq_true in Hi.
  - unfold GET_one. rewrite Hid. simpl. intros [= <- <-]. by repeat split.
Qed.

Lemma GET_one_returns_visible_witness :
  ∃ d s',
    @GET_one Sample.platform (AuthOk Sample.org) Sample.uuid Sample.crm_uuid
    = (RespOne 200 (Some d) None, s')
    ∧ ∃ r, r ∈ contacts Sample.crm_uuid ∧ d = shown r
           ∧ visible_to Sample.org r = true
           ∧ r !! "id" = Some (JStr Sample.uuid).
Proof.
  assert (Hshape :
    match (@GET_one Sample.platform (AuthOk Sample.org) Sample.uuid
             Sample.crm_uuid).1 with
    | RespOne st (Some _) None => st = 200
    | _ => False
    end) by (vm_compute; exact eq_refl).
  remember (@GET_one Sample.platform (AuthOk Sample.org) Sample.uuid
              Sample.crm_uuid) as out eqn:Hrun.
  destruct out as [[| |st [d|] [a|]|] s']; try contradiction.
  simpl in Hshape. subst st.
  exists d, s'. split; [done|]. symmetry in Hrun.
  destruct (proj2 (proj2 (proj2 (@GET_one_returns_visible Sample.platform
                                   _ _ _ _ _ Hrun))) d eq_refl)
    as (org & r & [= <-] & Hr). by exists r.
Defined.

Lemma filter_andb {A : Type} (p q : A → bool) (l : list A) :
  List.filter (λ x, p x && q x) l = List.filter p (List.filter q l).
Proof.
  induction l as [|a l IH]; [done|]. simpl.
  destruct (q a); simpl; [|by rewrite andb_false_r].
  rewrite andb_true_r. destruct (p a); by rewrite IH.
Qed.

Lemma filter_none {A : Type} (p : A → bool) (l : list A) :
  (∀ x, x ∈ l → p x = false) → List.filter p l = [].
Proof.
  induction l as [|a l IH]; intros Hall; [done|]. simpl.
  rewrite (Hall a) by by left. apply IH. intros x Hx. apply Hall. by right.
Qed.

Lemma GET_one_read `{Platform} (organizationId contactId : string)
    (s : store) (matches : list row) :
  isValidUUID contactId = true → next_fault s = None →
  List.filter (λ r, visible_to organizationId r
                    && eq_col "id" (JStr contactId) r) (contacts s)
  = matches →
  (length matches ≤ 1)%nat →
  (GET_one (AuthOk organizationId) contactId s).1
  = match matches with
    | r :: _ => RespOne 200 (Some (shown r)) None
    | [] => RespError 404 "Contact not found" NOT_FOUND
    end.
Proof.
  intros Hid Hf Hm Hlen.
  destruct (GET_one (AuthOk organizationId) contactId s) as [resp s'] eqn:Hrun.
  apply (GET_one_cases _ _ _ _ _ Hid) in Hrun as (_ & _ & _ & Hres).
  simpl in *. rewrite Hm in Hres.
  destruct resp as [|st e c|st d a|]; try done.
  - destruct Hres as [(-> & -> & -> & _ & ->)|(_ & _ & [?|[_ ?]])];
      [done|congruence|lia].
  - destruct Hres as (r & -> & -> & -> & ->). done.
Qed.

Lemma GET_one_present `{Platform} (organizationId contactId : string)
    (s : store) (r : row) :
  isValidUUID contactId = true → next_fault s = None →
  well_keyed (contacts s) →
  r ∈ contacts s → r !! "id" = Some (JStr contactId) →
  (GET_one (AuthOk organizationId) contactId s).1
  = if visible_to organizationId r
    then RespOne 200 (Some (shown r)) None
    else RespError 404 "Contact not found" NOT_FOUND.
Proof.
  intros Hid Hf Hkeys Hr Hrid.
  assert (Hrow : row_id r = JStr contactId)
    by (unfold row_id; by rewrite Hrid).
  destruct (well_keyed_lookup_by_id _ r Hkeys Hr) as [_ Hone].
  rewrite Hrow in Hone.
  rewrite (GET_one_read organizationId contactId s
             (if visible_to organizationId r then [r] else []) Hid Hf).
  - by destruct (visible_to organizationId r).
  - rewrite filter_andb, Hone. simpl.
    by destruct (visible_to organizationId r).
  - destruct (visible_to organizationId r); simpl; lia.
Qed.

(** X5. Over contacts keyed by id and without adapter fault, fetching a
    well-formed id returns the contact with that id when it belongs to the
    caller's tenant and is not soft-deleted; a contact of another tenant, a
    soft-deleted contact and an id that no contact has are all answered with
    the same 404. *)
Theorem GET_one_by_id `{Platform} (organizationId contactId : string)
    (s : store) :
  isValidUUID contactId = true → next_fault s = None →
  well_keyed (contacts s) →
  (∀ r, r ∈ contacts s → r !! "id" = Some (JStr contactId) →
        (GET_one (AuthOk organizationId) contactId s).1
        = if visible_to organizationId r
          then RespOne 200 (Some (shown r)) None
          else RespError 404 "Contact not found" NOT_FOUND)
  ∧ ((∀ r, r ∈ contacts s → r !! "id" ≠ Some (JStr contactId)) →
     (GET_one (AuthOk organizationId) contactId s).1
     = RespError 404 "Contact not found" NOT_FOUND).
Proof.
  intros Hid Hf Hkeys.
  destruct (GET_one (AuthOk organizationId) contactId s) as [resp s'] eqn:Hrun.
  apply (GET_one_cases _ _ _ _ _ Hid) in Hrun as (_ & _ & _ & Hres).
  rewrite filter_andb in Hres. simpl in *.
  assert (Hread : ∀ matches,
    List.filter (visible_to organizationId)
      (List.filter (eq_col "id" (JStr contactId)) (contacts s)) = matches →
    (length matches ≤ 1)%nat →
    resp = match matches with
           | r :: _ => RespOne 200 (Some (shown r)) None
           | [] => RespError 404 "Contact not found" NOT_FOUND
           end).
  { intros matches Hm Hlen. rewrite Hm in Hres.
    destruct resp as [|st e c|st d a|]; try done.
    - destruct Hres as [(-> & -> & -> & _ & ->)|(_ & _ & [?|[_ ?]])];
        [done|congruence|lia].
    - destruct Hres as (r & -> & -> & -> & ->). done. }
  split.
  - intros r Hr Hrid.
    assert (Hrow : row_id r = JStr contactId) by (unfold row_id; by rewrite Hrid).
    destruct (well_keyed_lookup_by_id _ r Hkeys Hr) as [_ Hone].
    rewrite Hrow in Hone.
    destruct (visible_to organizationId r) eqn:Hv.
    + apply (Hread [r]); [|simpl; lia]. rewrite Hone. simpl. by rewrite Hv.
    + apply (Hread []); [|simpl; lia]. rewrite Hone. simpl. by rewrite Hv.
  - intros Hnone. apply (Hread []); [|simpl; lia].
    rewrite (filter_none (eq_col "id" (JStr contactId))); [done|].
    intros r Hr. apply bool_decide_eq_false. by apply Hnone.
Qed.

Lemma GET_one_by_id_witness :
  (@GET_one Sample.platform (AuthOk "org-2") Sample.uuid Sample.crm_uuid).1
  = RespError 404 "Contact not found" NOT_FOUND
  ∧ (@GET_one Sample.platform (AuthOk Sample.org) Sample.uuid
       Sample.crm_uuid).1
    = RespOne 200
        (Some (shown (Sample.contact Sample.uuid "Ana" "ana@ex.com" "+5511"
                        "2024-01-01T00:00:00.000Z"))) None.
Proof.
  assert (Hkeys : well_keyed (contacts Sample.crm_uuid)).
  { split; [|by repeat constructor].
    refine (bool_decide_unpack _ _). vm_compute. exact I. }
  assert (Hin : Sample.contact Sample.uuid "Ana" "ana@ex.com" "+5511"
                  "2024-01-01T00:00:00.000Z" ∈ contacts Sample.crm_uuid)
    by (by left).
  split.
  - exact (proj1 (@GET_one_by_id Sample.platform "org-2" Sample.uuid
                    Sample.crm_uuid eq_refl eq_refl Hkeys) _ Hin eq_refl).
  - exact (proj1 (@GET_one_by_id Sample.platform Sample.org Sample.uuid
                    Sample.crm_uuid eq_refl eq_refl Hkeys) _ Hin eq_refl).
Defined.

(** ** Partial update: scope and read-back *)

Lemma PATCH_ok_inv `{Platform} (auth : auth_result) (contactId : string)
    (body : option row) (now : string) (s s' : store) (st : Z)
    (d : option row) (a : option string) :
  PATCH auth contactId body now s = (RespOne st d a, s') →
  ∃ organizationId data updates r0,
    auth = AuthOk organizationId
    ∧ isValidUUID contactId = true
    ∧ safeParse ContactPatchSchema body = Some data
    ∧ patch_updates data now = inr updates
    ∧ List.filter (patch_filter organizationId contactId) (contacts s) = [r0]
    ∧ d = Some (shown (updates ∪ r0)) ∧ st = 200 ∧ a = None
    ∧ contacts s'
      = apply_update (patch_filter organizationId contactId) updates
          (contacts s)
    ∧ faults s' = tail (faults s).
Proof.
  unfold PATCH. destruct auth as [?|org]; [done|].
  destruct (isValidUUID contactId) eqn:Hid; [|done]. simpl.
  destruct (safeParse _ body) as [data|] eqn:Hparse; [|done].
  destruct (patch_updates data now) as [r|updates] eqn:Hu.
  { apply patch_updates_code in Hu as [message ->]. done. }
  destruct (update_one _ _ _ _ _ s) as [res s1] eqn:Hq.
  apply update_one_facts in Hq as (Hf & _ & _ & _ & Hres).
  destruct res as [[r|]|m]; intros [= <- <- <- <-].
  destruct Hres as (_ & r0 & Hf0 & -> & Hrows).
  exists org, data, updates, r0. by repeat split.
Qed.

Lemma apply_update_lookup (p : row → bool) (payload : row) (l : list row)
    (j : nat) :
  apply_update p payload l !! j
  = (λ r, if p r then payload ∪ r else r) <$> l !! j.
Proof.
  unfold apply_update. change (List.map ?f l) with (f <$> l).
  apply list_lookup_fmap.
Qed.

(** X6. A partial update never adds or removes a contact, never touches the
    companies, and leaves every contact alone that is not the one with the
    requested id in the caller's tenant. *)
Theorem PATCH_touches_only_target `{Platform} (auth : auth_result)
    (contactId : string) (body : option row) (now : string) (s s' : store)
    (resp : response) :
  PATCH auth contactId body now s = (resp, s') →
  companies s' = companies s
  ∧ length (contacts s') = length (contacts s)
  ∧ ∀ j r, contacts s !! j = Some r →
      contacts s' !! j = Some r
      ∨ ∃ organizationId,
          auth = AuthOk organizationId
          ∧ r !! "organization_id" = Some (JStr organizationId)
          ∧ r !! "id" = Some (JStr contactId).
Proof.
  unfold PATCH. destruct auth as [?|org]; [by intros [= <- <-]; auto|].
  destruct (negb (isValidUUID contactId)); [by intros [= <- <-]; auto|].
  destruct (safeParse _ body) as [data|]; [|by intros [= <- <-]; auto].
  destruct (patch_updates data now) as [r|updates];
    [by intros [= <- <-]; auto|].
  destruct (update_one _ _ _ _ _ s) as [res s1] eqn:Hq.
  apply update_one_facts in Hq as (_ & _ & _ & Hother & Hres).
  specialize (Hother Companies). simpl in Hother.
  assert (Hsame : contacts s1 = contacts s →
    companies s1 = companies s
    ∧ length (contacts s1) = length (contacts s)
    ∧ ∀ j r, contacts s !! j = Some r →
        contacts s1 !! j = Some r
        ∨ ∃ organizationId,
            AuthOk org = AuthOk organizationId
            ∧ r !! "organization_id" = Some (JStr organizationId)
            ∧ r !! "id" = Some (JStr contactId)).
  { intros ->. split; [by apply Hother|]. split; [done|]. auto. }
  destruct res as [[r|]|m]; intros [= <- <-].
  - destruct Hres as (_ & r0 & _ & _ & Hrows). simpl in Hrows.
    split; [by apply Hother|]. rewrite Hrows.
    split; [apply length_apply_update|].
    intros j r' Hj. rewrite apply_update_lookup, Hj. simpl.
    destruct (eq_col "organization_id" (JStr org) r'
              && eq_col "id" (JStr contactId) r') eqn:Hp; [|by left].
    right. exists org. apply andb_prop in Hp as [Ho Hi].
    apply bool_decide_eq_true in Ho, Hi. done.
  - apply Hsame. by destruct Hres.
  - apply Hsame. by destruct Hres.
Qed.

Lemma PATCH_touches_only_target_witness :
  let out :=
    @PATCH Sample.platform (AuthOk "org-2") Sample.uuid
      (Some {["notes" := JStr "x"]}) Sample.t1 Sample.crm_uuid in
  contacts out.2 = contacts Sample.crm_uuid.
Proof.
  intros out.
  destruct (@PATCH_touches_only_target Sample.platform _ _ _ _ _ _ _
              (surjective_pairing out)) as (_ & Hlen & Hrows).
  apply list_eq. intros [|j].
  - destruct (Hrows 0%nat _ eq_refl) as [Hsame|(org & [= <-] & Horg & _)].
    + exact Hsame.
    + vm_compute in Horg. discriminate.
  - rewrite !lookup_ge_None_2; [done|simpl; lia|rewrite Hlen; simpl; lia].
Defined.

Lemma patch_body_keys `{Platform} (body : option row) (data : row)
    (k : string) :
  safeParse ContactPatchSchema body = Some data →
  ContactPatchSchema !! k = None → data !! k = None.
Proof.
  intros Hparse Hk. apply safeParse_Some in Hparse as [_ Hok].
  destruct (data !! k) as [v|] eqn:Hv; [|done].
  destruct (Hok k v Hv) as (? & ? & Hs & _). congruence.
Qed.

Lemma well_keyed_insert (l : list row) (i : nat) (old new : row) :
  well_keyed l → l !! i = Some old → row_id new = row_id old →
  well_keyed (<[i := new]> l).
Proof.
  intros [Hnd Hall] Hi Hid. split.
  - change (List.map row_id ?x) with (row_id <$> x) in *.
    rewrite list_fmap_insert, Hid.
    rewrite list_insert_id; [done|]. by rewrite list_lookup_fmap, Hi.
  - apply Forall_insert; [done|]. rewrite Hid.
    rewrite Forall_forall in Hall. apply Hall.
    by eapply list_elem_of_lookup_2.
Qed.

(** X7. A successful partial update can be read back, and it does not look at
    the deletion mark: over contacts keyed by id and without adapter fault,
    fetching the id right after the update returns the very record the update
    returned when the contact is not soft-deleted, and 404 when it is,
    although the update went through. *)
Theorem PATCH_then_GET `{Platform} (organizationId contactId : string)
    (body : option row) (now : string) (s s' : store) (d : row) :
  faults s = [] → well_keyed (contacts s) →
  PATCH (AuthOk organizationId) contactId body now s
  = (RespOne 200 (Some d) None, s') →
  ∃ i old,
    contacts s !! i = Some old
    ∧ old !! "id" = Some (JStr contactId)
    ∧ (GET_one (AuthOk organizationId) contactId s').1
      = if is_null "deleted_at" old
        then RespOne 200 (Some d) None
        else RespError 404 "Contact not found" NOT_FOUND.
Proof.
  intros Hf Hkeys Hrun.
  pose proof Hrun as Hinv. apply PATCH_ok_inv in Hinv
    as (org & data & updates & old & [= <-] & Hid & Hparse & Hu & Hf0 & [= ->]
        & _ & _ & Hrows & Hf').
  rewrite Hf in Hf'. simpl in Hf'.
  destruct (apply_update_single _ updates _ _ Hf0) as (i & Hi & Hupd).
  rewrite Hupd in Hrows.
  assert (Hin : old ∈ List.filter (patch_filter organizationId contactId)
                        (contacts s)) by (rewrite Hf0; by left).
  apply filter_elem_of in Hin as [Hin [Horg Hcid]%andb_prop].
  apply bool_decide_eq_true in Hcid.
  assert (Hkeep : ∀ k, ContactPatchSchema !! k = None → k ≠ "updated_at" →
                       (updates ∪ old) !! k = old !! k).
  { intros k Hk Hne. apply lookup_update_kept.
    destruct (patch_updates_lookup data now updates k Hu) as (Hnone & _).
    apply Hnone; [done|]. by eapply patch_body_keys. }
  assert (Hid' : (updates ∪ old) !! "id" = old !! "id") by (by apply Hkeep).
  assert (Hdel : (updates ∪ old) !! "deleted_at" = old !! "deleted_at")
    by (by apply Hkeep).
  assert (Horg' : (updates ∪ old) !! "organization_id"
                  = old !! "organization_id") by (by apply Hkeep).
  exists i, old. split; [done|]. split; [done|].
  assert (Hkeys' : well_keyed (contacts s')).
  { rewrite Hrows. eapply well_keyed_insert; [done..|].
    unfold row_id. by rewrite Hid'. }
  assert (Hnew : updates ∪ old ∈ contacts s').
  { rewrite Hrows. eapply list_elem_of_lookup_2.
    apply list_lookup_insert_eq. by eapply lookup_lt_Some. }
  rewrite (GET_one_present organizationId contactId s' _ Hid
             (next_fault_nil s' Hf') Hkeys' Hnew)
    by (by rewrite Hid').
  unfold visible_to, is_null, eq_col in *. rewrite Hdel, Horg', Horg. simpl.
  done.
Qed.

Lemma PATCH_then_GET_witness :
  let deleted :=
    <["deleted_at" := JStr "2024-06-01T00:00:00.000Z"]>
      (Sample.contact Sample.uuid "Ana" "ana@ex.com" "+5511"
         "2024-01-01T00:00:00.000Z") in
  let s := Store [deleted] [] 1 [] [] in
  let out :=
    @PATCH Sample.platform (AuthOk Sample.org) Sample.uuid
      (Some {["notes" := JStr "x"]}) Sample.t1 s in
  ∃ d, out.1 = RespOne 200 (Some d) None
       ∧ (@GET_one Sample.platform (AuthOk Sample.org) Sample.uuid out.2).1
         = RespError 404 "Contact not found" NOT_FOUND.
Proof.
  intros deleted s out.
  assert (Hshape : match out.1 with
                   | RespOne st (Some _) None => st = 200
                   | _ => False
                   end) by (vm_compute; exact eq_refl).
  assert (Hkeys : well_keyed (contacts s)).
  { split; [|by repeat constructor].
    refine (bool_decide_unpack _ _). vm_compute. exact I. }
  pose proof (surjective_pairing out) as Hrun.
  destruct out.1 as [| |st [d|] [a|]|]; try contradiction. subst st.
  exists d. split; [done|].
  destruct (@PATCH_then_GET Sample.platform Sample.org Sample.uuid _
              Sample.t1 s out.2 d eq_refl Hkeys Hrun)
    as (i & old & Hi & _ & Hget).
  assert (i = 0%nat) as ->.
  { apply lookup_lt_Some in Hi. change (i < 1)%nat in Hi. lia. }
  injection Hi as <-. exact Hget.
Defined.

(** ** Upsert: scope and read-back *)

(** X8. An upsert never removes or moves a contact, and the only contact it
    can change is one its dedup lookup matched: a contact of the caller's
    tenant, not soft-deleted, and -- when the request does not splice a
    reserved character into the lookup's filter string -- with the normalized
    email or phone of the request. *)
Theorem POST_touches_only_match `{Platform} (auth : auth_result)
    (body : option row) (now_company now : string) (s s' : store)
    (resp : response) :
  POST auth body now_company now s = (resp, s') →
  ∀ j r, contacts s !! j = Some r →
    contacts s' !! j = Some r
    ∨ ∃ organizationId data,
        auth = AuthOk organizationId ∧ body = Some data
        ∧ visible_to organizationId r = true
        ∧ (or_safe (body_email data) (body_phone data) = true →
           dedup_filter organizationId (body_email data) (body_phone data) r
           = true).
Proof.
  intros Hrun j r Hj.
  pose proof (POST_store_effect _ _ _ _ _ _ _ Hrun)
    as [_ [Hsame|[[d ->]|[d ->]]]].
  - left. by rewrite Hsame.
  - apply POST_updated_inv in Hrun
      as (org & data & cid & s1 & found & r0 & -> & Hparse & Hcc & Hm & Hid
          & Hf0 & _ & Hrows).
    apply safeParse_Some in Hparse as [-> _].
    apply client_company_facts in Hcc as [Hc _].
    unfold dedup_matches in Hm. rewrite Hc in Hm, Hf0, Hrows.
    rewrite Hrows, apply_update_lookup, Hj. simpl.
    destruct (eq_col "id" (row_id found) r) eqn:Hp; [|by left].
    right. exists org, data. split; [done|]. split; [done|].
    assert (Hfound : found ∈ List.filter
                       (dedup_filter org (body_email data) (body_phone data))
                       (contacts s)) by (rewrite Hm; by left).
    apply filter_elem_of in Hfound as [Hfound Hdedup].
    assert (r = found) as ->.
    { assert (Hr : r ∈ List.filter (eq_col "id" (row_id found)) (contacts s)).
      { apply filter_elem_of. split; [|done].
        by eapply list_elem_of_lookup_2. }
      assert (Hfd : found ∈ List.filter (eq_col "id" (row_id found))
                              (contacts s)).
      { apply filter_elem_of. split; [done|]. by apply eq_col_row_id. }
      rewrite Hf0 in Hr, Hfd.
      apply list_elem_of_singleton in Hr, Hfd. congruence. }
    split; [|by intros _]. unfold dedup_filter in Hdedup.
    by apply andb_prop in Hdedup as [? _].
  - apply POST_created_inv in Hrun
      as (org & data & cid & s1 & _ & _ & Hcc & _ & _ & _ & _ & Hrows & _).
    apply client_company_facts in Hcc as [Hc _].
    left. rewrite Hrows, Hc. by apply lookup_app_l_Some.
Qed.

Lemma POST_touches_only_match_witness :
  let out :=
    @POST Sample.platform (AuthOk Sample.org) (Some Sample.ana_renamed)
      Sample.t0 Sample.t1 Sample.crm in
  contacts out.2 !! 1%nat = Some Sample.bia
  ∧ contacts out.2 !! 2%nat = Some Sample.caio.
Proof.
  intros out.
  pose proof (@POST_touches_only_match Sample.platform _ _ _ _ _ _ _
                (surjective_pairing out)) as Hscope.
  split.
  - destruct (Hscope 1%nat Sample.bia eq_refl)
      as [Hsame|(org & data & [= <-] & [= <-] & _ & Hd)]; [exact Hsame|].
    specialize (Hd eq_refl). vm_compute in Hd. discriminate.
  - destruct (Hscope 2%nat Sample.caio eq_refl)
      as [Hsame|(org & data & [= <-] & [= <-] & _ & Hd)]; [exact Hsame|].
    specialize (Hd eq_refl). vm_compute in Hd. discriminate.
Defined.

(** X9. A contact that an upsert created can be fetched by the id the upsert
    returned, and the fetch returns the same record: this holds when the id,
    a generated UUID, is fresh among the contacts and passes the id check of
    the fetch, and the adapter injects no fault. *)
Theorem POST_created_then_GET `{Platform} (organizationId : string)
    (body : option row) (now_company now : string) (s s1 : store) (d : row)
    (id : string) :
  POST (AuthOk organizationId) body now_company now s
  = (RespOne 201 (Some d) (Some "created"), s1) →
  d !! "id" = Some (JStr id) →
  isValidUUID id = true → next_fault s1 = None →
  (∀ r, r ∈ contacts s → r !! "id" ≠ Some (JStr id)) →
  (GET_one (AuthOk organizationId) id s1).1 = RespOne 200 (Some d) None.
Proof.
  intros Hrun Hd Hid Hf Hfresh.
  apply POST_created_inv in Hrun
    as (org & data & cid & s0 & [= <-] & _ & Hcc & _ & _ & _ & [= ->]
        & Hrows & _).
  apply client_company_facts in Hcc as [Hc _]. rewrite Hc in Hrows.
  set (new := <["id" := JStr (gen_id (next_id s0))]> _) in *.
  assert (Hnewid : new !! "id" = Some (JStr id)).
  { rewrite project_lookup in Hd by (by repeat constructor).
    subst new. rewrite lookup_insert_eq in *. simpl in Hd. congruence. }
  rewrite (GET_one_read organizationId id s1 [new] Hid Hf);
    [done| |simpl; lia].
  rewrite Hrows, List.filter_app, filter_none.
  - simpl.
    assert (visible_to organizationId new = true) as ->.
    { unfold visible_to. apply andb_true_intro. split.
      - apply bool_decide_eq_true. subst new.
        unfold insert_payload, body_payload, upsert_payload,
          with_total_value.
        destruct (data !! "total_value") as [[]|]; reflexivity.
      - unfold is_null. subst new.
        unfold insert_payload, body_payload, upsert_payload,
          with_total_value.
        destruct (data !! "total_value") as [[]|]; reflexivity. }
    assert (eq_col "id" (JStr id) new = true) as ->
      by (by apply bool_decide_eq_true).
    done.
  - intros r Hr. apply andb_false_intro2, bool_decide_eq_false.
    by apply Hfresh.
Qed.

Lemma POST_created_then_GET_witness :
  let out :=
    @POST Sample.platform (AuthOk Sample.org)
      (Some Sample.new_lead_with_status) Sample.t0 Sample.t1 Sample.crm in
  ∃ d, out.1 = RespOne 201 (Some d) (Some "created")
       ∧ d !! "id" = Some (JStr "00000000-0000-4000-8000-000000000007")
       ∧ @isValidUUID Sample.platform "00000000-0000-4000-8000-000000000007"
         = true
       ∧ (@GET_one Sample.platform (AuthOk Sample.org)
            "00000000-0000-4000-8000-000000000007" out.2).1
         = RespOne 200 (Some d) None.
Proof.
  intros out.
  assert (Hshape : match out.1 with
                   | RespOne st (Some d) (Some a) =>
                       st = 201 ∧ a = "created"
                       ∧ d !! "id"
                         = Some (JStr "00000000-0000-4000-8000-000000000007")
                   | _ => False
                   end) by (vm_compute; by repeat split).
  pose proof (surjective_pairing out) as Hrun.
  destruct out.1 as [| |st [d|] [a|]|]; try contradiction.
  destruct Hshape as (-> & -> & Hd).
  exists d. split; [done|]. split; [done|]. split; [reflexivity|].
  apply (@POST_created_then_GET Sample.platform Sample.org _ Sample.t0
           Sample.t1 Sample.crm out.2 d
           "00000000-0000-4000-8000-000000000007" Hrun Hd eq_refl eq_refl).
  intros r Hr Hid. apply list_elem_of_In in Hr.
  destruct Hr as [<-|[<-|[<-|[]]]]; vm_compute in Hid; discriminate.
Defined.

(** ** Company resolution: what a call does to the store *)

(** X10. Resolving a company name never touches the contacts and never changes
    or removes a company. A blank name is answered null without any adapter
    call. Otherwise the call makes one lookup and at most one insert; when it
    inserts, it appends one company of the tenant with the trimmed name and
    both timestamps set to the time of the call, returns that company's new
    id, and the lookup had matched no company with an id. *)
Theorem resolveCompanyIdFromName_effect
    (organizationId companyName now : string) (s s' : store)
    (res : result jsval) :
  resolveCompanyIdFromName organizationId companyName now s = (res, s') →
  contacts s' = contacts s
  ∧ (normalizeText (Some companyName) = None → res = Ok JNull ∧ s' = s)
  ∧ (∃ evs, log s' = log s ++ evs ∧ (length evs ≤ 2)%nat)
  ∧ (companies s' = companies s
     ∨ ∃ name id,
         normalizeText (Some companyName) = Some name
         ∧ res = Ok (JStr id)
         ∧ companies s'
           = companies s
             ++ [<["id" := JStr id]>
                   (list_to_map
                      [("organization_id", JStr organizationId);
                       ("name", JStr name);
                       ("created_at", JStr now); ("updated_at", JStr now)])]
         ∧ Forall (λ r, truthy (row_id r) = false)
             (List.filter (company_filter organizationId name)
                (companies s))).
Proof.
  intros Hrun.
  pose proof (resolveCompanyIdFromName_trace _ _ _ _ _ _ Hrun) as [Hc _].
  split; [done|]. revert Hrun. unfold resolveCompanyIdFromName.
  destruct (normalizeText (Some companyName)) as [name|].
  2:{ intros [= <- <-]. split; [by intros _|]. split; [|by left].
      exists []. split; [by rewrite app_nil_r|simpl; lia]. }
  intros Hrun. split; [done|].
  destruct (select_maybeSingle _ _ _ s) as [existing s1] eqn:H1.
  apply select_maybeSingle_facts in H1 as (_ & Hk1 & Hn1 & _ & Hl1 & Hres).
  simpl in Hres.
  destruct existing as [data|m].
  2:{ injection Hrun as <- <-. split; [|by left].
      exists [Event Companies Select (Some m)]. split; [done|simpl; lia]. }
  destruct (truthy (default JNull (data ≫= _))) eqn:Hid.
  { injection Hrun as <- <-. split; [|by left].
    exists [Event Companies Select None]. split; [done|simpl; lia]. }
  destruct (insert_single _ _ _ s1) as [created s2] eqn:H2.
  apply insert_single_facts in H2 as (_ & Hl2 & Hins).
  split.
  { eexists [_; _]. split; [|simpl; lia].
    destruct created; injection Hrun as <- <-;
      by rewrite Hl2, Hl1, <- app_assoc. }
  destruct created as [r|m]; injection Hrun as <- <-.
  - destruct Hins as (_ & -> & Hrows & _). simpl in Hrows.
    right. exists name, (gen_id (next_id s1)).
    split; [done|]. split; [reflexivity|]. split; [by rewrite Hrows, Hk1|].
    destruct data as [d|].
    + destruct Hres as (_ & r0 & -> & ->).
      rewrite found_id in Hid by (by repeat constructor).
      by repeat constructor.
    + destruct Hres as [_ ->]. constructor.
  - destruct Hins as (_ & _ & Hk2 & _). left. congruence.
Qed.

Lemma resolveCompanyIdFromName_effect_witness :
  let out :=
    resolveCompanyIdFromName Sample.org "  Nova  " Sample.t0 Sample.crm in
  contacts out.2 = contacts Sample.crm
  ∧ length (companies out.2) = 2%nat.
Proof.
  intros out.
  destruct (resolveCompanyIdFromName_effect _ _ _ _ _ _
              (surjective_pairing out))
    as (Hc & _ & _ & [Hsame|(name & id & _ & _ & Hk & _)]).
  - exfalso.
    assert (Hlen : length (companies out.2) = 2%nat)
      by (vm_compute; exact eq_refl).
    rewrite Hsame in Hlen. vm_compute in Hlen. discriminate.
  - split; [exact Hc|]. rewrite Hk, length_app. reflexivity.
Defined.

(** ** Free-text search *)

Lemma like_percent (rest l : list ascii) :
  like ("%"%char :: rest) l
  = like rest l
    || match l with [] => false | _ :: l' => like ("%"%char :: rest) l' end.
Proof. by destruct l. Qed.

Lemma like_percent_end (l : list ascii) : like ["%"%char] l = true.
Proof.
  induction l as [|x l IH]; [done|].
  rewrite like_percent. by rewrite IH, orb_true_r.
Qed.

Lemma like_literal_prefix (p s : string) :
  literal_name p = true →
  like (list_ascii_of_string p ++ ["%"%char]) (list_ascii_of_string s)
  = startsWith p s.
Proof.
  unfold literal_name. revert s.
  induction p as [|c p IH]; intros s Hp.
  - simpl. rewrite like_percent_end. by destruct s.
  - simpl in Hp. apply andb_prop in Hp as [Hc Hp].
    unfold pattern_char in Hc. apply negb_true_iff in Hc.
    apply orb_false_elim in Hc as [Hc H4].
    apply orb_false_elim in Hc as [Hc H3].
    apply orb_false_elim in Hc as [H1 H2].
    simpl. rewrite H1, H2, H3, H4. simpl.
    destruct s as [|x s]; [done|]. simpl. by rewrite IH.
Qed.

Lemma like_literal_includes (p s : string) :
  literal_name p = true →
  like ("%"%char :: list_ascii_of_string p ++ ["%"%char])
    (list_ascii_of_string s)
  = includes p s.
Proof.
  intros Hp. induction s as [|x s IH].
  - rewrite like_percent, (like_literal_prefix p "" Hp). simpl.
    by rewrite orb_false_r.
  - rewrite like_percent, (like_literal_prefix p (String x s) Hp).
    simpl in *. by rewrite IH.
Qed.

Lemma list_ascii_of_string_app (s1 s2 : string) :
  list_ascii_of_string (s1 +:+ s2)
  = list_ascii_of_string s1 ++ list_ascii_of_string s2.
Proof. induction s1 as [|c s1 IH]; [done|]. simpl. by rewrite IH. Qed.

Lemma toLowerCase_app (s1 s2 : string) :
  Js.toLowerCase (s1 +:+ s2) = Js.toLowerCase s1 +:+ Js.toLowerCase s2.
Proof. induction s1 as [|c s1 IH]; [done|]. simpl. by rewrite IH. Qed.

Lemma ilike_substring (col q : string) (r : row) :
  literal_name q = true →
  ilike_col col ("%" +:+ q +:+ "%") r
  = match r !! col with
    | Some (JStr v) => includes (Js.toLowerCase q) (Js.toLowerCase v)
    | _ => false
    end.
Proof.
  intros Hq. unfold ilike_col. destruct (r !! col) as [[| | |v]|]; try done.
  change ("%" +:+ q +:+ "%") with (String "%" (q +:+ "%")).
  cbn [Js.toLowerCase list_ascii_of_string].
  rewrite toLowerCase_app, list_ascii_of_string_app.
  change (Js.lower_char "%") with "%"%char.
  apply like_literal_includes. by rewrite literal_toLowerCase.
Qed.

(** X11. A search with a term [q] free of pattern characters and of the
    characters the filter syntax reserves ([q] is spliced into the filter
    string), no exact filter and no cursor returns only stored contacts of the
    tenant, not soft-deleted, whose name, email or phone contains [q] letter
    case aside; and when the response carries no next cursor it returns every
    such contact. *)
Theorem GET_list_search `{Platform} (organizationId : string)
    (params : gmap string string) (s s' : store) (data : list row)
    (next : option string) :
  let q := Js.trim (default "" (params !! "q")) in
  literal_name q = true → plain_value q = true → q ≠ "" →
  normalizeEmail (params !! "email") = None →
  normalizePhone (params !! "phone") = None →
  sanitizeUUID (params !! "client_company_id") = None →
  params !! "cursor" = None →
  GET_list (AuthOk organizationId) params s = (RespList data next, s') →
  (∀ d, d ∈ data →
        ∃ r, r ∈ contacts s ∧ d = shown r
             ∧ visible_to organizationId r = true
             ∧ text_contains q r = true)
  ∧ (next = None →
     ∀ r, r ∈ contacts s → visible_to organizationId r = true →
          text_contains q r = true → shown r ∈ data).
Proof.
  intros q Hlit _ Hq He Hp Hc Hcur Hrun.
  assert (Hfilter : ∀ r,
    list_filter organizationId
      (sanitizeUUID (params !! "client_company_id"))
      (normalizeEmail (params !! "email"))
      (normalizePhone (params !! "phone")) q r
    = visible_to organizationId r && text_contains q r).
  { intros r. unfold list_filter, visible_to, text_contains.
    rewrite He, Hp, Hc. simpl.
    assert (Js.falsy q = false) as -> by (by destruct q).
    rewrite !ilike_substring by done. simpl.
    rewrite !andb_true_r, orb_false_r. by rewrite orb_assoc. }
  apply GET_list_data in Hrun as (-> & -> & _). rewrite Hcur. simpl.
  split.
  - intros d (r & -> & Hr)%list_elem_of_fmap.
    apply elem_of_range, list_matching_elem_of in Hr as [Hr Hf].
    fold q in Hf. rewrite Hfilter in Hf. apply andb_prop in Hf as [? ?].
    by exists r.
  - intros Hnext r Hr Hv Ht.
    destruct (Z.ltb_spec
                (0 + parseLimit (params !! "limit"))
                (Z.of_nat (length (list_matching organizationId params s))))
      as [?|Hge]; [done|].
    apply list_elem_of_fmap_2.
    unfold range. simpl. rewrite drop_0, take_ge by lia.
    apply list_matching_elem_of. split; [done|].
    fold q. rewrite Hfilter. by rewrite Hv, Ht.
Qed.

Lemma GET_list_search_witness :
  ∃ data s',
    @GET_list Sample.platform (AuthOk Sample.org) {["q" := " BIA "]}
      Sample.crm
    = (RespList data None, s')
    ∧ shown Sample.bia ∈ data.
Proof.
  assert (Hshape :
    match (@GET_list Sample.platform (AuthOk Sample.org) {["q" := " BIA "]}
             Sample.crm).1 with
    | RespList _ None => True
    | _ => False
    end) by (vm_compute; exact I).
  remember (@GET_list Sample.platform (AuthOk Sample.org) {["q" := " BIA "]}
              Sample.crm) as out eqn:Hrun.
  destruct out as [[| | |data [?|]] s']; try contradiction.
  symmetry in Hrun. exists data, s'. split; [done|].
  set (params := {["q" := " BIA "]} : gmap string string).
  assert (Hlit : literal_name (Js.trim (default "" (params !! "q"))) = true)
    by (vm_compute; exact eq_refl).
  assert (Hplain : plain_value (Js.trim (default "" (params !! "q"))) = true)
    by (vm_compute; exact eq_refl).
  assert (Hq : Js.trim (default "" (params !! "q")) ≠ "")
    by (vm_compute; discriminate).
  apply (proj2 (@GET_list_search Sample.platform Sample.org
                  {["q" := " BIA "]} Sample.crm s' data None
                  Hlit Hplain Hq eq_refl eq_refl eq_refl eq_refl
                  Hrun) eq_refl Sample.bia).
  - right. by left.
  - apply andb_true_intro. split; [by apply bool_decide_eq_true|reflexivity].
  - reflexivity.
Defined.

(** ** Calendar dates *)

Lemma is_digit_not_space (c : ascii) :
  Js.is_digit c = true → Js.is_space c = false.
Proof. by destruct c as [[] [] [] [] [] [] [] []]. Qed.

Lemma is_ymd_trim (s : string) : is_ymd s = true → Js.trim s = s.
Proof.
  unfold is_ymd.
  do 11 (destruct s as [|? s]; simpl; try discriminate).
  intros Hs.
  repeat match type of Hs with
         | _ && _ = true => apply andb_prop in Hs as [Hs ?]
         end.
  unfold Js.trim. cbn [Js.trimStart].
  rewrite (is_digit_not_space _ Hs). cbn [Js.trimEnd].
  by rewrite (is_digit_not_space a8) by done.
Qed.

Lemma is_ymd_truthy (s : string) : is_ymd s = true → Js.falsy s = false.
Proof. by destruct s. Qed.

(** X12. A date-only value of the form YYYY-MM-DD, whitespace around it aside,
    is taken as it stands without consulting the date parser -- whatever the
    digits are and even when the parser rejects them -- and converting the
    stored value again gives the same value. *)
Theorem calendar_date_kept `{Platform} (s : string) :
  is_ymd (Js.trim s) = true →
  toIsoDateString (Some s) = Some (Js.trim s)
  ∧ toIsoDateString (toIsoDateString (Some s)) = toIsoDateString (Some s)
  ∧ unparsable_date (Some (JStr s)) = false.
Proof.
  intros Hymd.
  assert (H1 : toIsoDateString (Some s) = Some (Js.trim s)).
  { unfold toIsoDateString. simpl.
    by rewrite (is_ymd_truthy _ Hymd), Hymd. }
  split; [done|]. split.
  - rewrite H1. unfold toIsoDateString. simpl.
    rewrite (is_ymd_trim _ Hymd).
    by rewrite (is_ymd_truthy _ Hymd), Hymd.
  - unfold unparsable_date. simpl.
    by rewrite Hymd, andb_false_r.
Qed.

Lemma calendar_date_kept_witness :
  @toIsoDateString Sample.platform (Some " 2024-13-45 ") = Some "2024-13-45".
Proof.
  exact (proj1 (@calendar_date_kept Sample.platform " 2024-13-45 " eq_refl)).
Defined.

(** ** Tenants and the identity of rows *)

Lemma upsert_payload_keeps `{Platform} (organizationId : string) (data : row)
    (clientCompanyId : jsval) (now : string) (name : option string)
    (k : string) (r : row) :
  k ∈ ["id"; "organization_id"; "created_at"; "deleted_at"] →
  r !! "organization_id" = Some (JStr organizationId) →
  (with_name name (body_payload organizationId data clientCompanyId now) ∪ r)
    !! k = r !! k.
Proof.
  intros Hk Hr.
  assert (Hcases :
    (k ≠ "organization_id"
     ∧ with_name name (body_payload organizationId data clientCompanyId now)
         !! k = None)
    ∨ (k = "organization_id"
       ∧ with_name name (body_payload organizationId data clientCompanyId now)
           !! k = Some (JStr organizationId))).
  { unfold with_name, body_payload, upsert_payload, with_total_value.
    rewrite !elem_of_cons, elem_of_nil in Hk.
    destruct Hk as [->|[->|[->|[->|[]]]]];
      destruct (negb (absent name));
      destruct (data !! "total_value") as [[]|];
      first [by left | by right]. }
  destruct Hcases as [[_ Hp]|[-> Hp]].
  - by apply lookup_update_kept.
  - rewrite Hr. by apply lookup_update_written.
Qed.

Lemma patch_updates_keep `{Platform} (body : option row) (data updates : row)
    (now : string) (k : string) (r : row) :
  safeParse ContactPatchSchema body = Some data →
  patch_updates data now = inr updates →
  k ∈ ["id"; "organization_id"; "created_at"; "deleted_at"] →
  (updates ∪ r) !! k = r !! k.
Proof.
  intros Hparse Hu Hk. apply lookup_update_kept.
  destruct (patch_updates_lookup data now updates k Hu) as (Hnone & _).
  apply Hnone.
  - intros ->. rewrite !elem_of_cons, elem_of_nil in Hk.
    by destruct Hk as [?|[?|[?|[?|[]]]]].
  - apply (patch_body_keys body data k Hparse).
    rewrite !elem_of_cons, elem_of_nil in Hk.
    by destruct Hk as [->|[->|[->|[->|[]]]]].
Qed.

Lemma POST_companies_effect `{Platform} (organizationId : string)
    (body : option row) (now_company now : string) (s s' : store)
    (resp : response) :
  POST (AuthOk organizationId) body now_company now s = (resp, s') →
  companies s' = companies s
  ∨ ∃ new, companies s' = companies s ++ [new]
           ∧ new !! "organization_id" = Some (JStr organizationId).
Proof.
  unfold POST.
  destruct (safeParse _ body) as [data|]; [|intros [= <- <-]; auto].
  destruct (absent _ && absent _); [intros [= <- <-]; auto|].
  destruct (bool_decide (toIsoDateString (as_string (data !! "birth_date"))
                         = _)); [intros [= <- <-]; auto|].
  destruct (bool_decide (toIsoDateString
                           (as_string (data !! "last_purchase_date")) = _));
    [intros [= <- <-]; auto|].
  destruct (bool_decide (toIsoTimestamp
                           (as_string (data !! "last_interaction")) = _));
    [intros [= <- <-]; auto|].
  destruct (client_company organizationId data now_company s)
    as [resolved s1] eqn:Hr.
  assert (Hk : companies s1 = companies s
               ∨ ∃ new, companies s1 = companies s ++ [new]
                        ∧ new !! "organization_id"
                          = Some (JStr organizationId)).
  { unfold client_company in Hr. destruct (negb _ && negb _) in Hr.
    - apply resolveCompanyIdFromName_companies in Hr
        as [?|(? & ? & _ & _ & ->)]; [by left|].
      right. eexists. split; [done|]. reflexivity.
    - inversion Hr; subst. by left. }
  clear Hr.
  destruct resolved as [cid|m]; [|intros [= <- <-]; auto].
  destruct (select_maybeSingle _ _ _ s1) as [existing s2] eqn:H2.
  apply select_maybeSingle_facts in H2 as (_ & Hk2 & _).
  rewrite <- Hk2 in Hk.
  destruct existing as [found|m]; [|intros [= <- <-]; auto].
  destruct (truthy (default JNull (found ≫= _))).
  - destruct (update_one _ _ _ _ _ s2) as [res s3] eqn:H3.
    apply update_one_facts in H3 as (_ & _ & _ & Hother & _).
    specialize (Hother Companies). simpl in Hother.
    rewrite <- Hother in Hk by done.
    by destruct res as [r|m]; intros [= <- <-].
  - destruct (absent (normalizeText _)); [intros [= <- <-]; auto|].
    destruct (insert_single _ _ _ s2) as [res s3] eqn:H3.
    apply insert_single_facts in H3 as (_ & _ & Hres).
    destruct res as [r|m]; intros [= <- <-].
    + destruct Hres as (_ & _ & _ & Hother & _).
      specialize (Hother Companies). simpl in Hother.
      by rewrite <- Hother in Hk.
    + destruct Hres as (_ & _ & Hk3 & _). by rewrite <- Hk3 in Hk.
Qed.

Lemma POST_contacts_effect `{Platform} (organizationId : string)
    (body : option row) (now_company now : string) (s s' : store)
    (resp : response) :
  POST (AuthOk organizationId) body now_company now s = (resp, s') →
  contacts s' = contacts s
  ∨ (∃ data clientCompanyId found,
       List.filter
         (dedup_filter organizationId (body_email data) (body_phone data))
         (contacts s) = [found]
       ∧ List.filter (eq_col "id" (row_id found)) (contacts s) = [found]
       ∧ contacts s'
         = apply_update (eq_col "id" (row_id found))
             (with_name (body_name data)
                (body_payload organizationId data clientCompanyId now))
             (contacts s))
  ∨ (∃ new, contacts s' = contacts s ++ [new]
            ∧ new !! "organization_id" = Some (JStr organizationId)).
Proof.
  intros Hrun.
  pose proof (POST_store_effect _ _ _ _ _ _ _ Hrun)
    as [_ [Hsame|[[d ->]|[d ->]]]].
  - by left.
  - right. left.
    apply POST_updated_inv in Hrun
      as (org & data & cid & s1 & found & r0 & [= <-] & _ & Hcc & Hm & Hid
          & Hf0 & _ & Hrows).
    apply client_company_facts in Hcc as [Hc _].
    unfold dedup_matches in Hm. rewrite Hc in Hm, Hf0, Hrows.
    exists data, cid, found. split; [done|]. split; [|done].
    assert (Hfound : found ∈ List.filter (eq_col "id" (row_id found))
                               (contacts s)).
    { apply filter_elem_of. split; [|by apply eq_col_row_id].
      assert (Hin : found ∈ List.filter
                      (dedup_filter organizationId (body_email data)
                         (body_phone data)) (contacts s))
        by (rewrite Hm; by left).
      by apply filter_elem_of in Hin as [? _]. }
    rewrite Hf0 in Hfound. apply list_elem_of_singleton in Hfound.
    by rewrite Hf0, Hfound.
  - right. right.
    apply POST_created_inv in Hrun
      as (org & data & cid & s1 & [= <-] & _ & Hcc & _ & _ & _ & _ & Hrows
          & _).
    apply client_company_facts in Hcc as [Hc _].
    eexists. split; [by rewrite Hrows, Hc|].
    unfold insert_payload, body_payload, upsert_payload, with_total_value.
    by destruct (data !! "total_value") as [[]|].
Qed.

Lemma handle_reads `{Platform} (auth : auth_result) (c : call)
    (s s' : store) (resp : response) :
  match c with CallList _ | CallGet _ => True | _ => False end →
  handle auth c s = (resp, s') →
  contacts s' = contacts s ∧ companies s' = companies s.
Proof.
  destruct c as [params|contactId| |]; try done; intros _; simpl.
  - unfold GET_list. destruct auth as [?|org]; [by intros [= <- <-]|].
    unfold page_window.
    destruct (select_range _ _ _ _ _ s) as [res s1] eqn:Hq.
    apply select_range_facts in Hq as (Hc & Hk & _).
    by destruct res as [[data count]|m]; intros [= <- <-].
  - unfold GET_one. destruct auth as [?|org]; [by intros [= <- <-]|].
    destruct (negb (isValidUUID contactId)); [by intros [= <- <-]|].
    destruct (select_maybeSingle _ _ _ s) as [res s1] eqn:Hq.
    apply select_maybeSingle_facts in Hq as (Hc & Hk & _).
    by destruct res as [[d|]|m]; intros [= <- <-].
Qed.

Lemma PATCH_contacts_effect `{Platform} (organizationId contactId : string)
    (body : option row) (now : string) (s s' : store) (resp : response) :
  PATCH (AuthOk organizationId) contactId body now s = (resp, s') →
  companies s' = companies s
  ∧ (contacts s' = contacts s
     ∨ ∃ data updates,
         safeParse ContactPatchSchema body = Some data
         ∧ patch_updates data now = inr updates
         ∧ contacts s'
           = apply_update (patch_filter organizationId contactId) updates
               (contacts s)).
Proof.
  unfold PATCH.
  destruct (negb (isValidUUID contactId)); [by intros [= <- <-]; auto|].
  destruct (safeParse _ body) as [data|] eqn:Hparse;
    [|by intros [= <- <-]; auto].
  destruct (patch_updates data now) as [r|updates] eqn:Hu;
    [by intros [= <- <-]; auto|].
  destruct (update_one _ _ _ _ _ s) as [res s1] eqn:Hq.
  apply update_one_facts in Hq as (_ & _ & _ & Hother & Hres).
  specialize (Hother Companies). simpl in Hother, Hres.
  destruct res as [[r|]|m]; intros [= <- <-];
    (split; [by apply Hother|]).
  - destruct Hres as (_ & r0 & _ & _ & Hrows). right. by exists data, updates.
  - left. by destruct Hres as [? _].
  - left. by destruct Hres as [? _].
Qed.

(** X13. No request reaches across tenants or rewrites what identifies a row.
    An unauthenticated request is answered with the authentication failure and
    changes nothing. An authenticated one keeps every stored contact and
    company at its place with its id, tenant, creation time and deletion mark,
    leaves the rows of other tenants exactly as they are, and whatever row it
    adds belongs to the caller's tenant. *)
Theorem tenant_isolation `{Platform} (auth : auth_result) (c : call)
    (s s' : store) (resp : response) :
  handle auth c s = (resp, s') →
  match auth with
  | AuthFailed status body => resp = RespAuth status body ∧ s' = s
  | AuthOk organizationId =>
      ∀ t : table,
        (∀ j r, rows t s !! j = Some r →
           ∃ r', rows t s' !! j = Some r'
                 ∧ (eq_col "organization_id" (JStr organizationId) r = false →
                    r' = r)
                 ∧ ∀ k, k ∈ ["id"; "organization_id"; "created_at";
                              "deleted_at"] → r' !! k = r !! k)
        ∧ (∀ j r', rows t s !! j = None → rows t s' !! j = Some r' →
             r' !! "organization_id" = Some (JStr organizationId))
  end.
Proof.
  intros Hrun. destruct auth as [st b|org].
  { destruct c; simpl in Hrun; by injection Hrun as <- <-. }
  assert (Hsame : ∀ t, rows t s' = rows t s →
    (∀ j r, rows t s !! j = Some r →
       ∃ r', rows t s' !! j = Some r'
             ∧ (eq_col "organization_id" (JStr org) r = false → r' = r)
             ∧ ∀ k, k ∈ ["id"; "organization_id"; "created_at";
                          "deleted_at"] → r' !! k = r !! k)
    ∧ (∀ j r', rows t s !! j = None → rows t s' !! j = Some r' →
         r' !! "organization_id" = Some (JStr org))).
  { intros t ->. split; [by eauto|]. intros j r' Hn Hs. congruence. }
  assert (Happ : ∀ t new, rows t s' = rows t s ++ [new] →
    new !! "organization_id" = Some (JStr org) →
    (∀ j r, rows t s !! j = Some r →
       ∃ r', rows t s' !! j = Some r'
             ∧ (eq_col "organization_id" (JStr org) r = false → r' = r)
             ∧ ∀ k, k ∈ ["id"; "organization_id"; "created_at";
                          "deleted_at"] → r' !! k = r !! k)
    ∧ (∀ j r', rows t s !! j = None → rows t s' !! j = Some r' →
         r' !! "organization_id" = Some (JStr org))).
  { intros t new -> Hnew. split.
    - intros j r Hj. exists r. split; [by apply lookup_app_l_Some|done].
    - intros j r' Hn Hs. apply lookup_ge_None in Hn.
      rewrite lookup_app_r in Hs by done.
      apply list_lookup_singleton_Some in Hs as [_ <-]. done. }
  assert (Hupd : ∀ (p : row → bool) payload,
    contacts s' = apply_update p payload (contacts s) →
    (∀ r, r ∈ contacts s → p r = true →
       r !! "organization_id" = Some (JStr org)
       ∧ ∀ k, k ∈ ["id"; "organization_id"; "created_at"; "deleted_at"] →
              (payload ∪ r) !! k = r !! k) →
    (∀ j r, contacts s !! j = Some r →
       ∃ r', contacts s' !! j = Some r'
             ∧ (eq_col "organization_id" (JStr org) r = false → r' = r)
             ∧ ∀ k, k ∈ ["id"; "organization_id"; "created_at";
                          "deleted_at"] → r' !! k = r !! k)
    ∧ (∀ j r', contacts s !! j = None → contacts s' !! j = Some r' →
         r' !! "organization_id" = Some (JStr org))).
  { intros p payload Hrows Hp. split.
    - intros j r Hj. rewrite Hrows, apply_update_lookup, Hj. simpl.
      destruct (p r) eqn:Hpr; [|by eauto].
      destruct (Hp r (list_elem_of_lookup_2 _ _ _ Hj) Hpr) as [Horg Hkeep].
      eexists. split; [done|]. split; [|done].
      unfold eq_col. intros Hne. apply bool_decide_eq_false in Hne. done.
    - intros j r' Hn Hs. apply lookup_ge_None in Hn.
      apply lookup_lt_Some in Hs.
      rewrite Hrows, length_apply_update in Hs. lia. }
  destruct c as [params|contactId|body now_company now|contactId body now].
  - intros t. apply Hsame.
    destruct (handle_reads _ (CallList params) _ _ _ I Hrun). by destruct t.
  - intros t. apply Hsame.
    destruct (handle_reads _ (CallGet contactId) _ _ _ I Hrun).
    by destruct t.
  - simpl in Hrun. intros [|].
    + apply POST_contacts_effect in Hrun
        as [Hc|[(data & cid & found & Hm & Hf0 & Hrows)|(new & Hrows & Hnew)]].
      * by apply (Hsame Contacts).
      * apply (Hupd _ _ Hrows). intros r Hr Hpr.
        assert (r = found) as ->.
        { assert (Hin : r ∈ List.filter (eq_col "id" (row_id found))
                              (contacts s)) by (by apply filter_elem_of).
          rewrite Hf0 in Hin. by apply list_elem_of_singleton in Hin. }
        assert (Horg : found !! "organization_id" = Some (JStr org)).
        { assert (Hin : found ∈ List.filter
                          (dedup_filter org (body_email data)
                             (body_phone data)) (contacts s))
            by (rewrite Hm; by left).
          apply filter_elem_of in Hin as [_ Hd]. unfold dedup_filter in Hd.
          apply andb_prop in Hd as [Hd _]. apply andb_prop in Hd as [Hd _].
          by apply bool_decide_eq_true in Hd. }
        split; [done|]. intros k Hk. by apply upsert_payload_keeps.
      * by apply (Happ Contacts new).
    + apply POST_companies_effect in Hrun as [Hk|(new & Hrows & Hnew)].
      * by apply (Hsame Companies).
      * by apply (Happ Companies new).
  - simpl in Hrun.
    apply PATCH_contacts_effect in Hrun
      as [Hk [Hc|(data & updates & Hparse & Hu & Hrows)]].
    + intros [|]; by apply Hsame.
    + intros [|]; [|by apply (Hsame Companies)].
      apply (Hupd _ _ Hrows). intros r Hr Hpr.
      unfold patch_filter in Hpr. apply andb_prop in Hpr as [Horg _].
      apply bool_decide_eq_true in Horg. split; [done|].
      intros k Hk'. by eapply patch_updates_keep.
Qed.

Lemma tenant_isolation_witness :
  let out :=
    @handle Sample.platform (AuthOk "org-2")
      (CallPost (Some Sample.ana_renamed) Sample.t0 Sample.t1) Sample.crm in
  contacts out.2 !! 0%nat = Some Sample.ana.
Proof.
  intros out.
  destruct (proj1 (@tenant_isolation Sample.platform (AuthOk "org-2") _ _ _ _
                     (surjective_pairing out) Contacts)
              0%nat Sample.ana eq_refl) as (r' & Hr' & Hsame & _).
  assert (Hforeign : eq_col "organization_id" (JStr "org-2") Sample.ana
                     = false) by (vm_compute; exact eq_refl).
  rewrite (Hsame Hforeign) in Hr'. exact Hr'.
Defined.

(** ** What a response shows *)

Lemma project_keys (cols : list string) (r : row) (k : string) :
  is_Some (project cols r !! k) ↔ k ∈ cols.
Proof.
  split.
  - intros [v Hv]. destruct (decide (k ∈ cols)) as [|Hn]; [done|].
    rewrite project_lookup_None in Hv by done. discriminate.
  - intros Hk. rewrite project_lookup by done. eauto.
Qed.

Lemma response_rows_projected `{Platform} (auth : auth_result) (c : call)
    (s s' : store) (resp : response) (d : row) :
  handle auth c s = (resp, s') → d ∈ response_rows resp →
  ∃ r, d = project CONTACT_COLUMNS r.
Proof.
  assert (Hnil : ∀ x : row, x ∈ @nil row → ∃ r, x = project CONTACT_COLUMNS r)
    by (intros x Hx; by apply elem_of_nil in Hx).
  destruct c as [params|contactId|body now_company now|contactId body now];
    simpl.
  - unfold GET_list. destruct auth as [?|org];
      [intros [= <- <-]; apply Hnil|].
    unfold page_window.
    destruct (select_range _ _ _ _ _ s) as [[[data count]|m] s1];
      intros [= <- <-]; [|apply Hnil].
    simpl. change (List.map ?f ?l) with (f <$> l).
    intros (x & -> & _)%list_elem_of_fmap. by exists x.
  - unfold GET_one. destruct auth as [?|org];
      [intros [= <- <-]; apply Hnil|].
    destruct (negb (isValidUUID contactId)); [intros [= <- <-]; apply Hnil|].
    destruct (select_maybeSingle _ _ _ s) as [res s1] eqn:Hq.
    apply select_maybeSingle_facts in Hq as (_ & _ & _ & _ & _ & Hres).
    destruct res as [[x|]|m]; intros [= <- <-]; try apply Hnil.
    intros ->%list_elem_of_singleton.
    destruct Hres as (_ & r0 & _ & ->). by exists r0.
  - unfold POST. destruct auth as [?|org]; [intros [= <- <-]; apply Hnil|].
    destruct (safeParse _ body) as [data|]; [|intros [= <- <-]; apply Hnil].
    destruct (absent _ && absent _); [intros [= <- <-]; apply Hnil|].
    destruct (bool_decide (toIsoDateString (as_string (data !! "birth_date"))
                           = _)); [intros [= <- <-]; apply Hnil|].
    destruct (bool_decide (toIsoDateString
                             (as_string (data !! "last_purchase_date")) = _));
      [intros [= <- <-]; apply Hnil|].
    destruct (bool_decide (toIsoTimestamp
                             (as_string (data !! "last_interaction")) = _));
      [intros [= <- <-]; apply Hnil|].
    destruct (client_company org data now_company s) as [[cid|m] s1];
      [|intros [= <- <-]; apply Hnil].
    destruct (select_maybeSingle _ _ _ s1) as [[found|m] s2];
      [|intros [= <- <-]; apply Hnil].
    destruct (truthy (default JNull (found ≫= _))).
    + destruct (update_one _ _ _ _ _ s2) as [res s3] eqn:H3.
      apply update_one_facts in H3 as (_ & _ & _ & _ & Hres).
      destruct res as [[x|]|m]; intros [= <- <-]; try apply Hnil.
      intros ->%list_elem_of_singleton.
      destruct Hres as (_ & r0 & _ & -> & _). eauto.
    + destruct (absent (normalizeText _)); [intros [= <- <-]; apply Hnil|].
      destruct (insert_single _ _ _ s2) as [res s3] eqn:H3.
      apply insert_single_facts in H3 as (_ & _ & Hres).
      destruct res as [x|m]; intros [= <- <-]; [|apply Hnil].
      intros ->%list_elem_of_singleton.
      destruct Hres as (_ & -> & _). eauto.
  - unfold PATCH. destruct auth as [?|org]; [intros [= <- <-]; apply Hnil|].
    destruct (negb (isValidUUID contactId)); [intros [= <- <-]; apply Hnil|].
    destruct (safeParse _ body) as [data|]; [|intros [= <- <-]; apply Hnil].
    destruct (patch_updates data now) as [r|updates] eqn:Hu.
    { apply patch_updates_code in Hu as [message ->].
      intros [= <- <-]. apply Hnil. }
    destruct (update_one _ _ _ _ _ s) as [res s1] eqn:Hq.
    apply update_one_facts in Hq as (_ & _ & _ & _ & Hres).
    destruct res as [[x|]|m]; intros [= <- <-]; try apply Hnil.
    intros ->%list_elem_of_singleton.
    destruct Hres as (_ & r0 & _ & -> & _). eauto.
Qed.

(** X14. Every record in a response of the four handlers has exactly the
    eighteen listed columns, each present (null where the contact has no
    value); the tenant and the deletion mark of a contact are never part of
    it. *)
Theorem response_columns `{Platform} (auth : auth_result) (c : call)
    (s s' : store) (resp : response) (d : row) :
  handle auth c s = (resp, s') → d ∈ response_rows resp →
  (∀ k, is_Some (d !! k) ↔ k ∈ CONTACT_COLUMNS)
  ∧ d !! "organization_id" = None ∧ d !! "deleted_at" = None.
Proof.
  intros Hrun Hd.
  destruct (response_rows_projected _ _ _ _ _ _ Hrun Hd) as [r ->].
  split; [intros k; apply project_keys|].
  assert (Hout : ∀ k, bool_decide (k ∈ CONTACT_COLUMNS) = false →
                      project CONTACT_COLUMNS r !! k = None).
  { intros k Hk. apply project_lookup_None.
    by apply bool_decide_eq_false in Hk. }
  split; by apply Hout.
Qed.

Lemma response_columns_witness :
  ∃ d, d ∈ response_rows
             (@handle Sample.platform (AuthOk Sample.org) (CallList ∅)
                Sample.crm).1
       ∧ d !! "organization_id" = None ∧ is_Some (d !! "email").
Proof.
  assert (Hin : shown Sample.caio
                ∈ response_rows
                    (@handle Sample.platform (AuthOk Sample.org) (CallList ∅)
                       Sample.crm).1).
  { refine (bool_decide_unpack _ _). vm_compute. exact I. }
  exists (shown Sample.caio). split; [exact Hin|].
  destruct (@response_columns Sample.platform _ _ _ _ _ _
              (surjective_pairing _) Hin) as (Hkeys & Horg & _).
  split; [exact Horg|]. apply Hkeys.
  refine (bool_decide_unpack _ _). vm_compute. exact I.
Defined.

(** ** The installer's project route *)

(** Letter case beyond ASCII: a capital E with acute (code unit 201) and its
    small form (233) are the same letter to [toLowerCase], so a project
    listed in small letters is the project asked for in capitals. *)
Lemma same_name_latin1 :
  Js.toLowerCase ("CAF" +:+ String "201" "") = "caf" +:+ String "233" ""
  ∧ Installer.same_name ("CAF" +:+ String "201" "")
      (Some (Installer.Project (Some ("caf" +:+ String "233" ""))
               (Some "ref-9"))) = true.
Proof. split; vm_compute; exact eq_refl. Qed.

Lemma find_first {A : Type} (f : A → bool) (l : list A) (x : A) :
  List.find f l = Some x ↔
  ∃ pre post, l = pre ++ x :: post
              ∧ Forall (λ y, f y = false) pre ∧ f x = true.
Proof.
  split.
  - induction l as [|y l IH]; simpl; [done|].
    destruct (f y) eqn:Hy.
    + intros [= ->]. exists [], l. by repeat split.
    + intros (pre & post & -> & Hpre & Hx)%IH.
      exists (y :: pre), post. repeat split; [|done]. by constructor.
  - intros (pre & post & -> & Hpre & Hx).
    induction Hpre as [|y pre Hy _ IH]; simpl; [by rewrite Hx|].
    by rewrite Hy.
Qed.

Lemma installer_admitted `{Installer.Collaborators} (e : Installer.env)
    (req : Installer.request) (data : row) :
  Installer.admitted e req data →
  Installer.isAllowedOrigin req = true
  ∧ bool_decide (Installer.INSTALLER_ENABLED e = Some "false") = false
  ∧ Installer.safeParse (Installer.req_json req) = Some data
  ∧ negb (absent (Installer.INSTALLER_TOKEN e))
    && negb (bool_decide (as_string (data !! "installerToken")
                          = Installer.INSTALLER_TOKEN e)) = false.
Proof.
  intros (Ho & He & Hp & Ht). split; [done|].
  split; [by apply bool_decide_eq_false|]. split; [done|].
  destruct Ht as [->|Ht]; [done|].
  rewrite (bool_decide_eq_true_2 _ Ht). apply andb_false_r.
Qed.

(** X15. The provider is only called for a request that passed every check: an
    allowed origin, an installer that is not switched off, a body the schema
    accepts and, when a token is configured (a non-empty one), the same token
    in the body. A request that fails a check is answered 403 or 400 without
    any call. One that passes makes the create call first, with the access
    token, organization and name trimmed and the password as sent, and at most
    one listing after it, only when the create failed. *)
Theorem provider_called_after_checks `{Installer.Collaborators}
    (e : Installer.env) (req : Installer.request) (rep : Installer.reply)
    (calls : list Installer.sent) :
  Installer.POST e req = (rep, calls) →
  (calls = []
   ∧ (Installer.reply_status rep = 403 ∨ Installer.reply_status rep = 400)
   ∧ ∀ data, ¬ Installer.admitted e req data)
  ∨ ∃ data rest,
      Installer.admitted e req data
      ∧ let args :=
          Installer.CreateArgs
            (Js.trim (Installer.field data "accessToken"))
            (Js.trim (Installer.field data "organizationSlug"))
            (Js.trim (Installer.field data "name"))
            (Installer.field data "dbPass")
            (as_string (data !! "regionSmartGroup")) in
        calls = Installer.SentCreate args :: rest
        ∧ (rest = []
           ∨ ∃ error status response largs,
               Installer.createSupabaseProject args
               = Installer.CreateFailed error status response
               ∧ rest = [Installer.SentList largs]
               ∧ Installer.search largs
                 = Js.trim (Installer.field data "name")
               ∧ Installer.statuses largs = None).
Proof.
  unfold Installer.POST.
  destruct (Installer.isAllowedOrigin req) eqn:Ho; simpl.
  2:{ intros [= <- <-]. left. split; [done|]. split; [by left|].
      intros data (Ho' & _). congruence. }
  destruct (bool_decide (Installer.INSTALLER_ENABLED e = Some "false"))
    eqn:He.
  { intros [= <- <-]. left. split; [done|]. split; [by left|].
    intros data (_ & He' & _). by apply bool_decide_eq_true in He. }
  apply bool_decide_eq_false in He.
  destruct (Installer.safeParse (Installer.req_json req)) as [data|] eqn:Hp.
  2:{ intros [= <- <-]. left. split; [done|]. split; [by right|].
      intros data (_ & _ & Hp' & _). congruence. }
  destruct (negb (absent (Installer.INSTALLER_TOKEN e))
            && negb (bool_decide _)) eqn:Ht.
  { intros [= <- <-]. left. split; [done|]. split; [by left|].
    intros data' (_ & _ & Hp' & Ht'). rewrite Hp in Hp'.
    injection Hp' as <-. apply andb_prop in Ht as [Ha Hb].
    apply negb_true_iff in Ha, Hb. apply bool_decide_eq_false in Hb.
    destruct Ht'; congruence. }
  assert (Hadm : Installer.admitted e req data).
  { split; [done|]. split; [done|]. split; [done|].
    apply andb_false_iff in Ht as [Ha|Hb].
    - left. by apply negb_false_iff in Ha.
    - right. apply negb_false_iff in Hb. by apply bool_decide_eq_true in Hb. }
  intros Hrun. right. exists data.
  destruct (Installer.createSupabaseProject _) as [pr pn|error status resp]
    eqn:Hc.
  { injection Hrun as <- <-. exists []. split; [done|]. split; [done|].
    by left. }
  destruct ((bool_decide (status = Some 400)
             || bool_decide (status = Some 409)) && _).
  2:{ injection Hrun as <- <-. exists []. split; [done|]. split; [done|].
      by left. }
  set (largs := Installer.ListArgs _ _ _ _) in Hrun.
  exists [Installer.SentList largs]. split; [done|].
  split.
  { by destruct (Installer.listAllSupabaseOrganizationProjects _)
      as [projects|];
      [destruct (List.find _ projects) as [[p|]|];
       [destruct (negb (absent (Installer.ref p)))|..]|];
      injection Hrun as <- <-. }
  right. by exists error, status, resp, largs.
Qed.

Lemma provider_called_after_checks_witness :
  ∃ data rest,
    @Installer.admitted Installer.taken Installer.sample_env
      Installer.sample_request data
    ∧ (@Installer.POST Installer.taken Installer.sample_env
         Installer.sample_request).2
      = Installer.SentCreate
          (Installer.CreateArgs
             (Js.trim (Installer.field data "accessToken"))
             (Js.trim (Installer.field data "organizationSlug"))
             (Js.trim (Installer.field data "name"))
             (Installer.field data "dbPass")
             (as_string (data !! "regionSmartGroup"))) :: rest.
Proof.
  destruct (@provider_called_after_checks Installer.taken
              Installer.sample_env Installer.sample_request _ _
              (surjective_pairing _))
    as [(Hnil & _)|(data & rest & Hadm & Hcalls & _)].
  - vm_compute in Hnil. discriminate.
  - exists data, rest. split; [exact Hadm|exact Hcalls].
Defined.

Lemma provider_checks_passed `{Installer.Collaborators} (e : Installer.env)
    (req : Installer.request) (rep : Installer.reply)
    (calls : list Installer.sent) :
  Installer.POST e req = (rep, calls) →
  ∀ data, Installer.safeParse (Installer.req_json req) = Some data →
          calls ≠ [] → Installer.admitted e req data.
Proof.
  unfold Installer.POST.
  destruct (Installer.isAllowedOrigin req) eqn:Ho; simpl;
    [|by intros [= <- <-]].
  destruct (bool_decide (Installer.INSTALLER_ENABLED e = Some "false"))
    eqn:He; [by intros [= <- <-]|].
  apply bool_decide_eq_false in He.
  destruct (Installer.safeParse (Installer.req_json req)) as [data|] eqn:Hp;
    [|by intros [= <- <-]].
  destruct (negb (absent (Installer.INSTALLER_TOKEN e))
            && negb (bool_decide _)) eqn:Ht; [by intros [= <- <-]|].
  intros _ data' [= <-] _.
  split; [done|]. split; [done|]. split; [done|].
  apply andb_false_iff in Ht as [Ha|Hb].
  - left. by apply negb_false_iff in Ha.
  - right. apply negb_false_iff in Hb. by apply bool_decide_eq_true in Hb.
Qed.

(** X16. For a requested name and listed names written in ASCII: when the
    reply says an existing project was reused, the create call had failed
    with status 400 or 409 and a message containing "already exists" in any
    letter case, the listing succeeded, and the project is the first entry of
    the listing whose name equals the requested name, letter case and
    surrounding whitespace aside; that entry has a non-empty ref, which the
    reply returns together with the entry's name as listed and the URL built
    from the ref, with status 200. *)
Theorem reused_project_is_first_match `{Installer.Collaborators}
    (e : Installer.env) (req : Installer.request) (rep : Installer.reply)
    (calls : list Installer.sent) (projectRef url : string)
    (projectName : option string) :
  Installer.POST e req = (rep, calls) →
  Installer.reply_body rep
  = Installer.ProjectBody projectRef projectName url true →
  (∀ data, Installer.safeParse (Installer.req_json req) = Some data →
           Installer.ascii_only (Installer.field data "name") = true) →
  (∀ largs projects,
     Installer.listAllSupabaseOrganizationProjects largs
     = Installer.Listed projects →
     Installer.ascii_names projects) →
  ∃ data error status response largs projects pre p post,
    Installer.admitted e req data
    ∧ calls = [Installer.SentCreate
                 (Installer.CreateArgs
                    (Js.trim (Installer.field data "accessToken"))
                    (Js.trim (Installer.field data "organizationSlug"))
                    (Js.trim (Installer.field data "name"))
                    (Installer.field data "dbPass")
                    (as_string (data !! "regionSmartGroup")));
               Installer.SentList largs]
    ∧ Installer.createSupabaseProject
        (Installer.CreateArgs
           (Js.trim (Installer.field data "accessToken"))
           (Js.trim (Installer.field data "organizationSlug"))
           (Js.trim (Installer.field data "name"))
           (Installer.field data "dbPass")
           (as_string (data !! "regionSmartGroup")))
      = Installer.CreateFailed error (Some status) response
    ∧ (status = 400 ∨ status = 409)
    ∧ includes "already exists" (Js.toLowerCase (default "" error)) = true
    ∧ Installer.listAllSupabaseOrganizationProjects largs
      = Installer.Listed projects
    ∧ projects = pre ++ Some p :: post
    ∧ Forall (λ q, Installer.same_name (Installer.field data "name") q
                   = false) pre
    ∧ Installer.same_name (Installer.field data "name") (Some p) = true
    ∧ Installer.ref p = Some projectRef ∧ projectRef ≠ ""
    ∧ projectName = Installer.project_name p
    ∧ url = Installer.supabaseUrl_of projectRef
    ∧ Installer.reply_status rep = 200.
Proof.
  intros Hrun Hbody _ _.
  pose proof (provider_checks_passed _ _ _ _ Hrun) as Hchecks.
  revert Hrun. unfold Installer.POST.
  destruct (negb (Installer.isAllowedOrigin req));
    [intros [= <- <-]; discriminate|].
  destruct (bool_decide (Installer.INSTALLER_ENABLED e = Some "false"));
    [intros [= <- <-]; discriminate|].
  destruct (Installer.safeParse (Installer.req_json req)) as [data|] eqn:Hp;
    [|intros [= <- <-]; discriminate].
  destruct (negb (absent (Installer.INSTALLER_TOKEN e))
            && negb (bool_decide _)); [intros [= <- <-]; discriminate|].
  destruct (Installer.createSupabaseProject _) as [pr pn|error status resp]
    eqn:Hc; [intros [= <- <-]; discriminate|].
  destruct (bool_decide (status = Some 400) || bool_decide (status = Some 409))
    eqn:Hst; [|intros [= <- <-]; discriminate].
  destruct (includes "already exists" _) eqn:Hmsg;
    [|intros [= <- <-]; discriminate].
  simpl.
  set (largs := Installer.ListArgs _ _ _ _).
  destruct (Installer.listAllSupabaseOrganizationProjects largs)
    as [projects|] eqn:Hl; [|intros [= <- <-]; discriminate].
  destruct (List.find _ projects) as [[p|]|] eqn:Hfind;
    [|intros [= <- <-]; discriminate..].
  destruct (absent (Installer.ref p)) eqn:Href;
    [intros [= <- <-]; discriminate|].
  intros [= <- <-]. simpl in Hbody. injection Hbody as <- <- <-.
  apply find_first in Hfind as (pre & post & -> & Hpre & Hp').
  destruct status as [st|]; [|done].
  destruct (Installer.ref p) as [rf|] eqn:Hrf; [|done].
  exists data, error, st, resp, largs, (pre ++ Some p :: post), pre, p, post.
  split; [by apply Hchecks|]. split; [done|]. split; [done|].
  split.
  { apply orb_prop in Hst as [Hs|Hs]; apply bool_decide_eq_true in Hs;
      injection Hs as ->; auto. }
  repeat (split; [done|]). split; [|done].
  simpl. by destruct rf.
Qed.

Lemma sample_body_parses :
  Installer.safeParse (Some Installer.sample_body)
  = Some Installer.sample_body.
Proof. vm_compute. exact eq_refl. Qed.

Lemma reused_project_is_first_match_witness :
  Installer.reply_body
    (@Installer.POST Installer.taken Installer.sample_env
       Installer.sample_request).1
  = Installer.ProjectBody "ref-1" (Some " My CRM")
      "https://ref-1.supabase.co" true
  ∧ Installer.reply_status
      (@Installer.POST Installer.taken Installer.sample_env
         Installer.sample_request).1 = 200.
Proof.
  assert (Hbody :
    Installer.reply_body
      (@Installer.POST Installer.taken Installer.sample_env
         Installer.sample_request).1
    = Installer.ProjectBody "ref-1" (Some " My CRM")
        "https://ref-1.supabase.co" true) by (vm_compute; exact eq_refl).
  split; [exact Hbody|].
  assert (Hname : ∀ data,
    Installer.safeParse (Installer.req_json Installer.sample_request)
    = Some data →
    Installer.ascii_only (Installer.field data "name") = true).
  { intros data Hdata.
    change (Installer.req_json Installer.sample_request)
      with (Some Installer.sample_body) in Hdata.
    rewrite sample_body_parses in Hdata. injection Hdata as <-.
    vm_compute. exact eq_refl. }
  assert (Hlisted : ∀ largs projects,
    @Installer.listAllSupabaseOrganizationProjects Installer.taken largs
    = Installer.Listed projects →
    Installer.ascii_names projects).
  { intros largs projects [= <-]. repeat constructor. }
  destruct (@reused_project_is_first_match Installer.taken _ _ _ _ _ _ _
              (surjective_pairing _) Hbody Hname Hlisted)
    as (? & ? & ? & ? & ? & ? & ? & ? & ? & Hrest).
  exact (proj2 (proj2 (proj2 (proj2 (proj2 (proj2 (proj2 (proj2 (proj2
           (proj2 (proj2 (proj2 (proj2 Hrest))))))))))))).
Defined.

(** X17. A failed create is never swallowed or rewritten. For a request that
    passed the checks, and a provider status that [Response] accepts (from
    200 to 599 and not one of 204, 205 and 304; a missing status or 0 counts
    as 500), the reply either reuses an existing project or carries the
    provider's error, status and response as they came, under that status.
    It is the latter, after the create call alone, whenever the status is
    neither 400 nor 409 or the message does not contain "already exists";
    and it is the latter, too, when the first listed project of that name
    has no ref, whatever follows it in the listing (for names written in
    ASCII). *)
Theorem failed_create_is_forwarded `{Installer.Collaborators}
    (e : Installer.env) (req : Installer.request) (rep : Installer.reply)
    (calls : list Installer.sent) (data : row) (error : option string)
    (status : option Z) (response : option jsval) :
  let args :=
    Installer.CreateArgs
      (Js.trim (Installer.field data "accessToken"))
      (Js.trim (Installer.field data "organizationSlug"))
      (Js.trim (Installer.field data "name"))
      (Installer.field data "dbPass")
      (as_string (data !! "regionSmartGroup")) in
  let forwarded :=
    Installer.Reply (Installer.status_or_500 status)
      (Installer.Forwarded error status response) in
  Installer.admitted e req data →
  Installer.createSupabaseProject args
  = Installer.CreateFailed error status response →
  Installer.accepted_status (Installer.status_or_500 status) = true →
  Installer.POST e req = (rep, calls) →
  (rep = forwarded
   ∨ ∃ projectRef projectName,
       rep = Installer.Reply 200
               (Installer.ProjectBody projectRef projectName
                  (Installer.supabaseUrl_of projectRef) true))
  ∧ ((status ≠ Some 400 ∧ status ≠ Some 409)
     ∨ includes "already exists" (Js.toLowerCase (default "" error)) = false
     → rep = forwarded ∧ calls = [Installer.SentCreate args])
  ∧ (∀ largs pre p post,
       calls = [Installer.SentCreate args; Installer.SentList largs] →
       Installer.listAllSupabaseOrganizationProjects largs
       = Installer.Listed (pre ++ p :: post) →
       Installer.ascii_only (Installer.field data "name") = true →
       Installer.ascii_names (pre ++ [p]) →
       Forall (λ q, Installer.same_name (Installer.field data "name") q
                    = false) pre →
       Installer.same_name (Installer.field data "name") p = true →
       absent (p ≫= Installer.ref) = true →
       rep = forwarded).
Proof.
  intros args forwarded Hadm Hc _.
  apply installer_admitted in Hadm as (Ho & He & Hp & Ht).
  unfold Installer.POST. rewrite Ho, He, Hp, Ht. simpl.
  fold args. rewrite Hc.
  destruct (bool_decide (status = Some 400) || bool_decide (status = Some 409))
    eqn:Hst; simpl.
  2:{ intros [= <- <-]. split; [by left|]. split; [done|].
      intros largs pre p post [=]. }
  destruct (includes "already exists" _) eqn:Hmsg.
  2:{ intros [= <- <-]. split; [by left|]. split; [done|].
      intros largs pre p post [=]. }
  set (largs0 := Installer.ListArgs _ _ _ _).
  change (Installer.json (Installer.Forwarded error status response)
            (Some (Installer.status_or_500 status))) with forwarded.
  intros Hrun.
  assert (Hfirst : (status ≠ Some 400 ∧ status ≠ Some 409) ∨ true = false →
                   rep = forwarded ∧ calls = [Installer.SentCreate args]).
  { intros [[H4 H9]|?]; [|done]. exfalso.
    apply orb_prop in Hst as [Hs|Hs]; apply bool_decide_eq_true in Hs; done. }
  destruct (Installer.listAllSupabaseOrganizationProjects largs0)
    as [projects|] eqn:Hl.
  2:{ injection Hrun as <- <-. split; [by left|]. split; [done|].
      intros largs pre p post [= <-]. congruence. }
  destruct (List.find _ projects) as [found|] eqn:Hfind.
  2:{ injection Hrun as <- <-. split; [by left|]. split; [done|].
      intros largs pre p post [= <-] Hl' _ _ Hpre Hp'.
      rewrite Hl in Hl'. injection Hl' as ->.
      assert (Hsome : List.find
                        (Installer.same_name (Installer.field data "name"))
                        (pre ++ p :: post) = Some p)
        by (apply find_first; by exists pre, post).
      congruence. }
  assert (Hthird :
    calls = [Installer.SentCreate args; Installer.SentList largs0] →
    (absent (found ≫= Installer.ref) = true → rep = forwarded) →
    ∀ largs pre p post,
      calls = [Installer.SentCreate args; Installer.SentList largs] →
      Installer.listAllSupabaseOrganizationProjects largs
      = Installer.Listed (pre ++ p :: post) →
      Installer.ascii_only (Installer.field data "name") = true →
      Installer.ascii_names (pre ++ [p]) →
      Forall (λ q, Installer.same_name (Installer.field data "name") q
                   = false) pre →
      Installer.same_name (Installer.field data "name") p = true →
      absent (p ≫= Installer.ref) = true →
      rep = forwarded).
  { intros Hcalls Hr largs pre p post Hcs Hl' _ _ Hpre Hp' Hno.
    rewrite Hcalls in Hcs. injection Hcs as <-.
    rewrite Hl in Hl'. injection Hl' as ->.
    assert (Hsome : List.find
                      (Installer.same_name (Installer.field data "name"))
                      (pre ++ p :: post) = Some p)
      by (apply find_first; by exists pre, post).
    rewrite Hfind in Hsome. injection Hsome as ->. by apply Hr. }
  destruct found as [p|].
  - destruct (absent (Installer.ref p)) eqn:Href; simpl in Hrun.
    + split; [left; congruence|]. split; [done|].
      apply Hthird; [congruence|]. intros _. congruence.
    + split; [right; injection Hrun as <- <-; eauto|]. split; [done|].
      apply Hthird; [congruence|]. simpl. congruence.
  - split; [left; congruence|]. split; [done|].
    apply Hthird; [congruence|]. intros _. congruence.
Qed.

Lemma sample_request_admitted `{Installer.Collaborators} :
  Installer.isAllowedOrigin Installer.sample_request = true →
  Installer.admitted Installer.sample_env Installer.sample_request
    Installer.sample_body.
Proof.
  intros Ho. split; [exact Ho|]. split; [discriminate|].
  split; [vm_compute; exact eq_refl|]. right. vm_compute. exact eq_refl.
Qed.

Lemma failed_create_is_forwarded_witness :
  (@Installer.POST Installer.shadowed Installer.sample_env
     Installer.sample_request).1
  = Installer.Reply 409
      (Installer.Forwarded (Some "Project ALREADY EXISTS") (Some 409) None).
Proof.
  assert (Hcalls :
    (@Installer.POST Installer.shadowed Installer.sample_env
       Installer.sample_request).2
    = [Installer.SentCreate
         (Installer.CreateArgs
            (Js.trim (Installer.field Installer.sample_body "accessToken"))
            (Js.trim
               (Installer.field Installer.sample_body "organizationSlug"))
            (Js.trim (Installer.field Installer.sample_body "name"))
            (Installer.field Installer.sample_body "dbPass")
            (as_string (Installer.sample_body !! "regionSmartGroup")));
       Installer.SentList
         (Installer.ListArgs "sbp_1" "acme" None "My CRM")])
    by (vm_compute; exact eq_refl).
  assert (Hnames :
    Installer.ascii_names
      ([] ++ [Some (Installer.Project (Some "My CRM") None)]))
    by (repeat constructor).
  exact (proj2 (proj2
           (@failed_create_is_forwarded Installer.shadowed
              Installer.sample_env Installer.sample_request _ _
              Installer.sample_body _ _ _
              (@sample_request_admitted Installer.shadowed eq_refl)
              eq_refl eq_refl (surjective_pairing _)))
           (Installer.ListArgs "sbp_1" "acme" None "My CRM")
           [] (Some (Installer.Project (Some "My CRM") None))
           [Some (Installer.Project (Some "my crm") (Some "ref-2"))]
           Hcalls eq_refl eq_refl Hnames (Forall_nil_2 _) eq_refl eq_refl).
Defined.

Lemma trimStart_blank (s : string) :
  forallb Js.is_space (list_ascii_of_string s) = true → Js.trimStart s = "".
Proof.
  induction s as [|c s IH]; [done|]. simpl.
  intros [Hc Hs]%andb_prop. rewrite Hc. by apply IH.
Qed.

Lemma installer_parsed_name (raw : option row) (data : row) :
  Installer.safeParse raw = Some data →
  ∃ x, data !! "name" = Some (JStr x)
       ∧ (2 ≤ String.length x ≤ 64)%nat.
Proof.
  unfold Installer.safeParse. destruct raw as [d|]; [|done].
  destruct (forallb _ (map_to_list d)) eqn:Hall; [|done].
  destruct (forallb _ Installer.REQUIRED) eqn:Hreq; [|done].
  intros [= <-]. simpl in Hreq.
  repeat (apply andb_prop in Hreq as [? Hreq]).
  match goal with
  | H : bool_decide (is_Some (d !! "name")) = true |- _ =>
      apply bool_decide_eq_true in H as [v Hv]
  end.
  rewrite forallb_forall in Hall.
  assert (Hin : In ("name", v) (map_to_list d)).
  { apply list_elem_of_In. by apply elem_of_map_to_list. }
  specialize (Hall _ Hin). simpl in Hall.
  destruct v as [| | |x]; try done.
  exists x. split; [done|].
  apply andb_prop in Hall as [Hmin Hmax].
  apply Nat.leb_le in Hmin, Hmax. lia.
Qed.

(** X18. The bounds of the schema apply to the values as sent, before they are
    trimmed: a request that passes the checks with a project name made of
    whitespace only (two to sixty-four characters of it) reaches the provider,
    which is asked to create a project whose name is the empty string. *)
Theorem blank_name_reaches_provider `{Installer.Collaborators}
    (e : Installer.env) (req : Installer.request) (data : row) :
  Installer.admitted e req data →
  forallb Js.is_space (list_ascii_of_string (Installer.field data "name"))
  = true →
  (2 ≤ String.length (Installer.field data "name") ≤ 64)%nat
  ∧ ∃ args rest,
      (Installer.POST e req).2 = Installer.SentCreate args :: rest
      ∧ Installer.name args = "".
Proof.
  intros Hadm Hblank.
  pose proof Hadm as (_ & _ & Hparse & _).
  destruct (installer_parsed_name _ _ Hparse) as (x & Hx & Hlen).
  split; [unfold Installer.field; by rewrite Hx|].
  apply installer_admitted in Hadm as (Ho & He & Hp & Ht).
  unfold Installer.POST. rewrite Ho, He, Hp, Ht. simpl.
  set (args := Installer.CreateArgs _ _ _ _ _).
  assert (Hname : Installer.name args = "").
  { subst args. simpl. unfold Js.trim. by rewrite trimStart_blank. }
  destruct (Installer.createSupabaseProject args) as [pr pn|error status resp].
  { by eexists args, _. }
  destruct ((bool_decide (status = Some 400)
             || bool_decide (status = Some 409)) && _);
    [|by eexists args, _].
  destruct (Installer.listAllSupabaseOrganizationProjects _) as [projects|];
    [|by eexists args, _].
  destruct (List.find _ projects) as [[p|]|]; [|by eexists args, _..].
  destruct (negb (absent (Installer.ref p))); by eexists args, _.
Qed.

Lemma blank_name_reaches_provider_witness :
  ∃ args rest,
    (@Installer.POST Installer.taken Installer.sample_env
       Installer.blank_name_request).2
    = Installer.SentCreate args :: rest
    ∧ Installer.name args = "".
Proof.
  assert (Hadm : @Installer.admitted Installer.taken Installer.sample_env
                   Installer.blank_name_request
                   (<["name" := JStr "   "]> Installer.sample_body)).
  { split; [reflexivity|]. split; [discriminate|].
    split; [vm_compute; exact eq_refl|]. right. vm_compute. exact eq_refl. }
  exact (proj2 (@blank_name_reaches_provider Installer.taken _ _ _ Hadm
                  eq_refl)).
Defined.

(** ** The navigation rail *)

(** X19. Whatever the pathname, the rail marks at most one of its links as the
    current page, and it marks one exactly on the four destinations and on
    /pipeline, which lights the boards link; the last item is always the
    button that opens the menu, never a link. *)
Theorem rail_marks_one_page (pathname : string) :
  (length (List.filter Nav.is_current (Nav.NavigationRail pathname)) ≤ 1)%nat
  ∧ (existsb Nav.is_current (Nav.NavigationRail pathname) = true
     ↔ pathname ∈ ["/inbox"; "/boards"; "/pipeline"; "/contacts";
                   "/activities"])
  ∧ (Nav.Link "/boards" "Boards" true ∈ Nav.NavigationRail pathname
     ↔ pathname = "/boards" ∨ pathname = "/pipeline")
  ∧ last (Nav.NavigationRail pathname) = Some (Nav.Button "Mais").
Proof.
  unfold Nav.NavigationRail, Nav.PRIMARY_NAV, Nav.render, Nav.isActive.
  cbn [List.map Nav.id Nav.href Nav.label String.eqb Ascii.eqb Bool.eqb
       default from_option id Js.falsy andb orb List.filter existsb
       Nav.is_current].
  rewrite !elem_of_cons, !elem_of_nil.
  destruct (String.eqb_spec pathname "/inbox") as [->|H1];
    [cbn; intuition (congruence || lia)|].
  destruct (String.eqb_spec pathname "/boards") as [->|H2];
    [cbn; intuition (congruence || lia)|].
  destruct (String.eqb_spec pathname "/pipeline") as [->|H3];
    [cbn; intuition (congruence || lia)|].
  destruct (String.eqb_spec pathname "/contacts") as [->|H4];
    [cbn; intuition (congruence || lia)|].
  destruct (String.eqb_spec pathname "/activities") as [->|H5];
    [cbn; intuition (congruence || lia)|].
  cbn. intuition (congruence || lia).
Qed.

(** ** The same upsert twice *)

Lemma select_maybeSingle_run (t : table) (cols : list string)
    (p : row → bool) (s : store) :
  faults s = [] → (length (List.filter p (rows t s)) ≤ 1)%nat →
  ∃ s',
    select_maybeSingle t cols p s
    = (Ok (project cols <$> head (List.filter p (rows t s))), s')
    ∧ contacts s' = contacts s ∧ companies s' = companies s
    ∧ next_id s' = next_id s ∧ faults s' = [].
Proof.
  intros Hf Hlen. unfold select_maybeSingle, begin_call. rewrite Hf.
  assert (Hrows : rows t (Store (contacts s) (companies s) (next_id s) []
                            (log s)) = rows t s) by (by destruct t).
  destruct t; simpl in *;
    (destruct (List.filter p _) as [|r [|r' l]]; simpl in *; [| |lia]);
    eexists; repeat split; exact Hf.
Qed.

Lemma insert_single_run (t : table) (payload : row) (cols : list string)
    (s : store) :
  faults s = [] →
  ∃ s',
    insert_single t payload cols s
    = (Ok (project cols (<["id" := JStr (gen_id (next_id s))]> payload)), s')
    ∧ rows t s'
      = rows t s ++ [<["id" := JStr (gen_id (next_id s))]> payload]
    ∧ (∀ t', t' ≠ t → rows t' s' = rows t' s)
    ∧ faults s' = [].
Proof.
  intros Hf. unfold insert_single, begin_call. rewrite Hf.
  destruct t; simpl; eexists; (split; [reflexivity|]);
    (split; [reflexivity|]); (split; [|exact Hf]);
    by intros [|].
Qed.

Lemma update_one_run (allow_none : bool) (t : table) (payload : row)
    (cols : list string) (p : row → bool) (s : store) (r0 : row) :
  faults s = [] → List.filter p (rows t s) = [r0] →
  ∃ s',
    update_one allow_none t payload cols p s
    = (Ok (Some (project cols (payload ∪ r0))), s')
    ∧ rows t s' = apply_update p payload (rows t s)
    ∧ faults s' = [].
Proof.
  intros Hf Hr. unfold update_one, begin_call. rewrite Hf.
  destruct t; simpl in *; rewrite Hr; eexists; repeat split; exact Hf.
Qed.

Lemma resolve_again (organizationId companyName now now' : string)
    (s s0 sx : store) (id : jsval) :
  resolveCompanyIdFromName organizationId companyName now s = (Ok id, s0) →
  faults s = [] →
  Forall (λ r, truthy (row_id r) = true) (companies s) →
  companies sx = companies s0 → faults sx = [] →
  ∃ id' sx',
    resolveCompanyIdFromName organizationId companyName now' sx
    = (Ok id', sx')
    ∧ contacts sx' = contacts sx ∧ faults sx' = [].
Proof.
  intros Hfirst Hf Hids Hk Hfx. revert Hfirst.
  unfold resolveCompanyIdFromName.
  destruct (normalizeText (Some companyName)) as [name|]; [|by eauto].
  intros Hfirst.
  assert (Hlen : (length (List.filter (company_filter organizationId name)
                            (companies sx)) ≤ 1)%nat).
  { rewrite Hk. clear Hk Hfx sx.
    destruct (select_maybeSingle _ _ _ s) as [existing s1] eqn:H1.
    apply select_maybeSingle_facts in H1 as (_ & Hk1 & _ & _ & _ & Hres).
    simpl in Hres. destruct existing as [found|m]; [|done].
    destruct (truthy (default JNull (found ≫= _))) eqn:Hid.
    { injection Hfirst as _ <-. rewrite Hk1.
      destruct found as [d|].
      - destruct Hres as (_ & r0 & -> & _). simpl. lia.
      - destruct Hres as [_ ->]. simpl. lia. }
    assert (Hnone : List.filter (company_filter organizationId name)
                      (companies s) = []).
    { destruct found as [d|]; [|by destruct Hres].
      destruct Hres as (_ & r0 & Hr0 & ->).
      rewrite found_id in Hid by (by repeat constructor).
      assert (Hin : r0 ∈ companies s).
      { assert (Hin : r0 ∈ List.filter (company_filter organizationId name)
                             (companies s)) by (rewrite Hr0; by left).
        by apply filter_elem_of in Hin as [? _]. }
      rewrite Forall_forall in Hids. specialize (Hids r0 Hin). congruence. }
    destruct (insert_single _ _ _ s1) as [created s2] eqn:H2.
    apply insert_single_facts in H2 as (_ & _ & Hins).
    destruct created as [r|m]; [|done]. injection Hfirst as _ <-.
    destruct Hins as (_ & _ & Hrows & _). simpl in Hrows.
    rewrite Hrows, Hk1, List.filter_app, Hnone. simpl.
    destruct (company_filter _ _ _); simpl; lia. }
  destruct (select_maybeSingle_run Companies ["id"]
              (company_filter organizationId name) sx Hfx Hlen)
    as (sx1 & -> & Hc1 & _ & _ & Hf1).
  destruct (truthy _); [by eauto|].
  destruct (insert_single_run Companies
              (list_to_map
                 [("organization_id", JStr organizationId);
                  ("name", JStr name);
                  ("created_at", JStr now'); ("updated_at", JStr now')])
              ["id"] sx1 Hf1) as (sx2 & -> & _ & Hother & Hf2).
  eexists _, sx2. split; [done|]. split; [|done].
  rewrite <- Hc1. by apply (Hother Contacts).
Qed.

Lemma client_company_again `{Platform} (organizationId : string) (data : row)
    (now now' : string) (s s0 sx : store) (id : jsval) :
  client_company organizationId data now s = (Ok id, s0) →
  faults s = [] →
  Forall (λ r, truthy (row_id r) = true) (companies s) →
  companies sx = companies s0 → faults sx = [] →
  ∃ id' sx',
    client_company organizationId data now' sx = (Ok id', sx')
    ∧ contacts sx' = contacts sx ∧ faults sx' = [].
Proof.
  unfold client_company.
  destruct (negb _ && negb _); [by apply resolve_again|].
  intros _ _ _ _ Hfx. by eauto.
Qed.

Lemma POST_created_checks `{Platform} (organizationId : string) (data : row)
    (now_company now : string) (s s' : store) (st : Z) (r : option row) :
  POST (AuthOk organizationId) (Some data) now_company now s
  = (RespOne st r (Some "created"), s') →
  safeParse ContactUpsertSchema (Some data) = Some data
  ∧ absent (normalizeEmail (as_string (data !! "email")))
    && absent (normalizePhone (as_string (data !! "phone"))) = false
  ∧ bool_decide (toIsoDateString (as_string (data !! "birth_date"))
                 = Some INVALID) = false
  ∧ bool_decide (toIsoDateString (as_string (data !! "last_purchase_date"))
                 = Some INVALID) = false
  ∧ bool_decide (toIsoTimestamp (as_string (data !! "last_interaction"))
                 = Some INVALID) = false
  ∧ (faults s = [] → faults s' = []).
Proof.
  unfold POST.
  destruct (safeParse _ (Some data)) as [data'|] eqn:Hparse; [|done].
  apply safeParse_Some in Hparse as [[= <-] _].
  destruct (absent _ && absent _); [done|].
  destruct (bool_decide (toIsoDateString (as_string (data !! "birth_date"))
                         = _)); [done|].
  destruct (bool_decide (toIsoDateString
                           (as_string (data !! "last_purchase_date")) = _));
    [done|].
  destruct (bool_decide (toIsoTimestamp
                           (as_string (data !! "last_interaction")) = _));
    [done|].
  destruct (client_company organizationId data now_company s)
    as [[cid|m] s1] eqn:Hr; [|done].
  apply client_company_facts in Hr as [_ Hf1].
  destruct (select_maybeSingle _ _ _ s1) as [existing s2] eqn:H2.
  apply select_maybeSingle_facts in H2 as (_ & _ & _ & Hf2 & _).
  destruct existing as [found|m]; [|done].
  destruct (truthy (default JNull (found ≫= _))).
  { by destruct (update_one _ _ _ _ _ s2) as [[?|?] ?]. }
  destruct (absent (normalizeText _)); [done|].
  destruct (insert_single _ _ _ s2) as [res s3] eqn:H3.
  apply insert_single_facts in H3 as (Hf3 & _).
  destruct res as [r'|m]; [|done].
  intros [= <- <- <-]. repeat split; try done.
  intros Hf. by rewrite Hf3, Hf2, (Hf1 Hf).
Qed.

Lemma created_row_matches `{Platform} (organizationId : string) (data : row)
    (clientCompanyId : jsval) (now : string) (n : nat) :
  absent (body_email data) && absent (body_phone data) = false →
  let new :=
    <["id" := JStr (gen_id n)]>
      (insert_payload (body_payload organizationId data clientCompanyId now)
         (body_name data) now) in
  dedup_filter organizationId (body_email data) (body_phone data) new = true
  ∧ new !! "id" = Some (JStr (gen_id n))
  ∧ new !! "organization_id" = Some (JStr organizationId)
  ∧ new !! "created_at" = Some (JStr now)
  ∧ new !! "status" = Some (JStr "ACTIVE")
  ∧ new !! "stage" = Some (JStr "LEAD").
Proof.
  intros Hep new.
  assert (Hlook : new !! "organization_id" = Some (JStr organizationId)
                  ∧ new !! "deleted_at" = None
                  ∧ new !! "email" = Some (of_nullable (body_email data))
                  ∧ new !! "phone" = Some (of_nullable (body_phone data))
                  ∧ new !! "id" = Some (JStr (gen_id n))
                  ∧ new !! "created_at" = Some (JStr now)
                  ∧ new !! "status" = Some (JStr "ACTIVE")
                  ∧ new !! "stage" = Some (JStr "LEAD")).
  { subst new.
    unfold insert_payload, body_payload, upsert_payload, with_total_value.
    destruct (data !! "total_value") as [[]|]; repeat split; reflexivity. }
  destruct Hlook as (Horg & Hdel & Hemail & Hphone & Hid & Hcr & Hst & Hsg).
  repeat split; try done.
  unfold dedup_filter, eq_col, is_null.
  rewrite Horg, Hdel, Hemail, Hphone.
  rewrite !bool_decide_eq_true_2 by done. simpl.
  destruct (absent (body_email data)), (absent (body_phone data)); done.
Qed.



(** ** Partial update of a contact the tenant does not have *)

Lemma update_one_none (t : table) (payload : row) (cols : list string)
    (p : row → bool) (s : store) :
  next_fault s = None → List.filter p (rows t s) = [] →
  ∃ s',
    update_one true t payload cols p s = (Ok None, s')
    ∧ contacts s' = contacts s ∧ companies s' = companies s.
Proof.
  unfold next_fault, update_one, begin_call. intros Hf Hnone.
  destruct (faults s) as [|[m|] fs]; [|done|];
    destruct t; simpl in *; rewrite Hnone; by eexists.
Qed.

(** X21. A partial update addressed to an id that no contact of the caller's
    tenant has -- an unknown id, or the id of another tenant's contact -- is
    answered 404 'Contact not found' and changes neither table, provided the
    id and the body pass validation and the adapter injects no fault. *)
Theorem PATCH_unknown_id `{Platform} (organizationId contactId : string)
    (body : option row) (data updates : row) (now : string) (s : store) :
  isValidUUID contactId = true →
  safeParse ContactPatchSchema body = Some data →
  patch_updates data now = inr updates →
  next_fault s = None →
  (∀ r, r ∈ contacts s →
        r !! "organization_id" = Some (JStr organizationId) →
        r !! "id" ≠ Some (JStr contactId)) →
  ∃ s',
    PATCH (AuthOk organizationId) contactId body now s
    = (RespError 404 "Contact not found" NOT_FOUND, s')
    ∧ contacts s' = contacts s ∧ companies s' = companies s.
Proof.
  intros Hid Hparse Hu Hf Hnone.
  assert (Hfilter : List.filter (patch_filter organizationId contactId)
                      (rows Contacts s) = []).
  { apply filter_none. intros r Hr. unfold patch_filter, eq_col.
    destruct (bool_decide (r !! "organization_id"
                           = Some (JStr organizationId))) eqn:Horg; [|done].
    apply bool_decide_eq_true in Horg. simpl.
    apply bool_decide_eq_false. by apply Hnone. }
  destruct (update_one_none Contacts updates CONTACT_COLUMNS
              (patch_filter organizationId contactId) s Hf Hfilter)
    as (s' & Hrun & Hc & Hk).
  exists s'. split; [|done].
  unfold PATCH. rewrite Hid, Hparse, Hu. simpl.
  unfold patch_filter in Hrun. by rewrite Hrun.
Qed.

Lemma PATCH_unknown_id_witness :
  ∃ s',
    @PATCH Sample.platform (AuthOk "org-2") Sample.uuid
      (Some {["name" := JStr "Eve"]}) Sample.t0 Sample.crm_uuid
    = (RespError 404 "Contact not found" NOT_FOUND, s')
    ∧ contacts s' = contacts Sample.crm_uuid
    ∧ companies s' = companies Sample.crm_uuid.
Proof.
  assert (Hu : ∃ updates,
    @patch_updates Sample.platform {["name" := JStr "Eve"]} Sample.t0
    = inr updates).
  { destruct (@patch_updates Sample.platform {["name" := JStr "Eve"]}
                Sample.t0) as [r|updates] eqn:Hrun; [|by eauto].
    exfalso. vm_compute in Hrun. discriminate. }
  destruct Hu as [updates Hu].
  apply (@PATCH_unknown_id Sample.platform "org-2" Sample.uuid
           (Some {["name" := JStr "Eve"]}) {["name" := JStr "Eve"]}
           updates Sample.t0 Sample.crm_uuid eq_refl).
  - vm_compute. exact eq_refl.
  - exact Hu.
  - reflexivity.
  - intros r Hr Horg. apply list_elem_of_In in Hr.
    destruct Hr as [<-|[]]. vm_compute in Horg. discriminate.
Defined.

(** ** What a created contact always has *)

Lemma normalizeText_truthy (v : option string) (t : string) :
  normalizeText v = Some t → t ≠ "".
Proof.
  unfold normalizeText. destruct v as [s|]; [|done].
  destruct (Js.falsy (Js.trim s)) eqn:Hs; [done|].
  intros [= <-] Heq. by rewrite Heq in Hs.
Qed.

(** X22. No contact is created without a name and a way to reach it: the
    record of a 201 'created' answer has a non-empty id and name, an email or
    a phone that is not null, and the handler's clock reading as both its
    creation and its update time. *)
Theorem created_contact_is_reachable `{Platform} (auth : auth_result)
    (body : option row) (now_company now : string) (s s' : store)
    (d : row) (st : Z) :
  POST auth body now_company now s
  = (RespOne st (Some d) (Some "created"), s') →
  (∃ id, d !! "id" = Some (JStr id) ∧ id ≠ "")
  ∧ (∃ name, d !! "name" = Some (JStr name) ∧ name ≠ "")
  ∧ ((∃ email, d !! "email" = Some (JStr email) ∧ email ≠ "")
     ∨ (∃ phone, d !! "phone" = Some (JStr phone) ∧ phone ≠ ""))
  ∧ d !! "created_at" = Some (JStr now)
  ∧ d !! "updated_at" = Some (JStr now).
Proof.
  intros Hrun.
  assert (Hep : ∃ data, body = Some data
                  ∧ absent (body_email data) && absent (body_phone data)
                    = false).
  { pose proof Hrun as Hinv. apply POST_created_inv in Hinv
      as (org & data & _ & _ & -> & Hparse & _).
    apply safeParse_Some in Hparse as [-> _]. exists data. split; [done|].
    by apply POST_created_checks in Hrun as (_ & ? & _). }
  destruct Hep as (data & -> & Hep).
  apply POST_created_inv in Hrun
    as (org & data' & cid & s0 & -> & Hparse & _ & _ & Hname & _ & Hd & _).
  apply safeParse_Some in Hparse as [[= <-] _].
  cbv zeta in Hd. injection Hd as ->.
  rewrite !project_lookup by (by repeat constructor).
  assert (Hlook :
    let new :=
      <["id" := JStr (gen_id (next_id s0))]>
        (insert_payload (body_payload org data cid now) (body_name data)
           now) in
    new !! "id" = Some (JStr (gen_id (next_id s0)))
    ∧ new !! "name" = Some (of_nullable (body_name data))
    ∧ new !! "email" = Some (of_nullable (body_email data))
    ∧ new !! "phone" = Some (of_nullable (body_phone data))
    ∧ new !! "created_at" = Some (JStr now)
    ∧ new !! "updated_at" = Some (JStr now)).
  { unfold insert_payload, body_payload, upsert_payload, with_total_value.
    destruct (data !! "total_value") as [[]|]; repeat split; reflexivity. }
  cbv zeta in Hlook.
  destruct Hlook as (-> & -> & -> & -> & -> & ->). simpl.
  split; [by eexists|]. split.
  { destruct (body_name data) as [name|] eqn:Hn; [|done].
    exists name. split; [done|]. by destruct name. }
  split; [|done].
  destruct (body_email data) as [[|c email]|]; simpl in *.
  - destruct (body_phone data) as [[|c phone]|]; simpl in *; try done.
    right. by eexists.
  - left. by eexists.
  - destruct (body_phone data) as [[|c phone]|]; simpl in *; try done.
    right. by eexists.
Qed.

Lemma created_contact_is_reachable_witness :
  let out :=
    @POST Sample.platform (AuthOk Sample.org)
      (Some Sample.new_lead_with_status) Sample.t0 Sample.t1 Sample.crm in
  default ∅ (response_data out.1) !! "created_at" = Some (JStr Sample.t1).
Proof.
  intros out.
  assert (Hrun : out = (RespOne 201
                          (Some (default ∅ (response_data out.1)))
                          (Some "created"), out.2))
    by (vm_compute; exact eq_refl).
  pose proof (@created_contact_is_reachable Sample.platform _ _ _ _ _ _ _ _
                Hrun) as (_ & _ & _ & Hcreated & _).
  exact Hcreated.
Defined.
